(** * Verification of [constructor.briefcase]

    A shallow embedding of [src/constructor/briefcase.py]: the identifier
    normaliser ([get_name_version], [make_app_name], [get_bundle_app_name]),
    the install-options assembler ([create_install_options_list]) and the
    payload layout manager ([Payload._create_layout], [Payload.make_tar_gz],
    [Payload._convert_into_archive]).

    Conventions of the embedding.
    - A Python [str] is a list of 8-bit characters, read as the code points
      U+0000..U+00FF (Latin-1).  On these code points [str.lower] keeps the
      length of a string, [\d] is [0-9], and a class of ASCII letters under
      [re.IGNORECASE] holds ASCII letters only.  Texts with code points
      above U+00FF are not values of [str], and no statement here is about
      them: there [str.lower] lengthens U+0130, [\d] has further digits,
      and [[A-Z]] under [re.IGNORECASE] also accepts U+0130, U+0131, U+017F
      and U+212A.
    - The file system raises the errors of POSIX.  Opening a directory for
      writing is [IsADirectoryError] there and [PermissionError] on
      Windows; statements about that failure do not name its class.
    - [info] is a Python dict: an association list in insertion order whose
      values are dynamically typed ([value]).
    - A Python exception is a value of [exn]; a call returns [Ok] or [Raise].
    - The file system is an explicit state ([FS]) threaded through the
      methods of [Payload]. *)

From Stdlib Require Import Ascii String List Bool Arith Lia ZArith.
From Stdlib Require Import Permutation DecimalString.
Import ListNotations.

Set Implicit Arguments.
Set Warnings "-register-all".

(** ** Python strings *)

Definition str := list ascii.

(** A string literal of the source. *)
Definition s (x : string) : str := list_ascii_of_string x.

Arguments s : simpl never.

Definition code (c : ascii) : nat := nat_of_ascii c.

Definition in_range (lo hi : ascii) (c : ascii) : bool :=
  (code lo <=? code c) && (code c <=? code hi).

Definition is_digit (c : ascii) : bool := in_range "0" "9" c.
Definition is_lower (c : ascii) : bool := in_range "a" "z" c.
Definition is_upper (c : ascii) : bool := in_range "A" "Z" c.

(** ASCII letters and digits: the characters the source calls alphanumeric. *)
Definition is_alnum (c : ascii) : bool := is_digit c || is_lower c || is_upper c.

(** [str.lower] on one code point below U+0100: [A-Z] and the Latin-1 capitals
    U+00C0..U+00DE (but not the multiplication sign U+00D7) move up by 32. *)
Definition char_lower (c : ascii) : ascii :=
  let n := code c in
  if is_upper c then ascii_of_nat (n + 32)
  else if (192 <=? n) && (n <=? 222) && negb (n =? 215) then ascii_of_nat (n + 32)
  else c.

(** The simple upper-case mapping, where it stays below U+0100. *)
Definition char_upper (c : ascii) : ascii :=
  let n := code c in
  if is_lower c then ascii_of_nat (n - 32)
  else if (224 <=? n) && (n <=? 254) && negb (n =? 247) then ascii_of_nat (n - 32)
  else c.

(** [x.lower()] for a text of code points below U+0100: one character for
    each.  (Of all code points only U+0130 is lowered to two.) *)
Definition lower (x : str) : str := map char_lower x.

Definition ascii_eqb (a b : ascii) : bool := Ascii.eqb a b.

Fixpoint str_eqb (a b : str) : bool :=
  match a, b with
  | [], [] => true
  | x :: a', y :: b' => ascii_eqb x y && str_eqb a' b'
  | _, _ => false
  end.

(** [x.replace(a, b)] for one-character [a] and [b]. *)
Definition replace_char (a b : ascii) (x : str) : str :=
  map (fun c => if ascii_eqb c a then b else c) x.

Definition mem_char (c : ascii) (chars : str) : bool :=
  existsb (ascii_eqb c) chars.

Fixpoint lstrip (chars : str) (x : str) : str :=
  match x with
  | [] => []
  | c :: x' => if mem_char c chars then lstrip chars x' else x
  end.

Definition rstrip (chars : str) (x : str) : str :=
  rev (lstrip chars (rev x)).

(** [x.strip(chars)] *)
Definition strip (chars : str) (x : str) : str :=
  rstrip chars (lstrip chars x).

(** [sep.join(parts)] *)
Fixpoint join (sep : str) (parts : list str) : str :=
  match parts with
  | [] => []
  | [p] => p
  | p :: rest => p ++ sep ++ join sep rest
  end.

(** [x.startswith(p)] *)
Fixpoint startswith (p x : str) : bool :=
  match p, x with
  | [], _ => true
  | a :: p', b :: x' => ascii_eqb a b && startswith p' x'
  | _ :: _, [] => false
  end.

(** [x.split(sep)] for a one-character separator. *)
Fixpoint split_char (sep : ascii) (x : str) : list str :=
  match x with
  | [] => [[]]
  | c :: x' =>
      if ascii_eqb c sep then [] :: split_char sep x'
      else match split_char sep x' with
           | [] => [[c]]
           | w :: ws => (c :: w) :: ws
           end
  end.

(** [x.rsplit(sep, 1)] for a one-character separator that occurs in [x]:
    the text before the last separator and the text after it; [None] when
    the separator does not occur. *)
Fixpoint rsplit1 (sep : ascii) (x : str) : option (str * str) :=
  match x with
  | [] => None
  | c :: x' =>
      match rsplit1 sep x' with
      | Some (a, b) => Some (c :: a, b)
      | None => if ascii_eqb c sep then Some ([], x') else None
      end
  end.

(** [x[a:b]] for [0 <= a <= b]. *)
Definition slice (x : str) (a b : nat) : str := firstn (b - a) (skipn a x).

(** ** Regular expressions, as Python's [re] matches them

    A backtracking matcher in continuation-passing style: alternatives are
    tried left to right, repetitions are greedy, and the first way of
    matching the whole pattern that lets the continuation succeed wins. *)

Inductive regex : Type :=
| Eps
| Chr (p : ascii -> bool)
| Seq (a b : regex)
| Alt (a b : regex)
| Star (a : regex).

Definition Opt (a : regex) : regex := Alt a Eps.
Definition Plus (a : regex) : regex := Seq a (Star a).

Fixpoint Lit (x : str) : regex :=
  match x with
  | [] => Eps
  | c :: x' => Seq (Chr (ascii_eqb c)) (Lit x')
  end.

Section Matcher.
Variable R : Type.

(** The loop of a repetition: one more iteration if it consumes input and
    the rest then matches, otherwise leave the loop. *)
Fixpoint star_loop (step : str -> (str -> option R) -> option R)
         (k : str -> option R) (fuel : nat) (x : str) : option R :=
  match fuel with
  | 0 => k x
  | S fuel' =>
      match step x (fun x' =>
               if length x' <? length x then star_loop step k fuel' x'
               else None) with
      | Some r => Some r
      | None => k x
      end
  end.

Fixpoint rmatch (r : regex) (x : str) (k : str -> option R) : option R :=
  match r with
  | Eps => k x
  | Chr p =>
      match x with
      | c :: x' => if p c then k x' else None
      | [] => None
      end
  | Seq a b => rmatch a x (fun x' => rmatch b x' k)
  | Alt a b =>
      match rmatch a x k with
      | Some r => Some r
      | None => rmatch b x k
      end
  | Star a => star_loop (rmatch a) k (length x) x
  end.
End Matcher.

(** Length of the match of [r] at the start of [x], if there is one. *)
Definition match_len (r : regex) (x : str) : option nat :=
  rmatch r x (fun rest => Some (length x - length rest)).

(** [re.fullmatch(r, x)] as a truth value. *)
Definition fullmatch (r : regex) (x : str) : bool :=
  match rmatch r x (fun rest => match rest with [] => Some tt | _ => None end) with
  | Some _ => true
  | None => false
  end.

(** The spans of [re.finditer(r, x)]: scan from the left; after a match the
    scan resumes at its end ([skip] counts the characters still covered by
    the match found last). *)
Fixpoint finditer_from (r : regex) (pos skip : nat) (x : str) : list (nat * nat) :=
  match x with
  | [] =>
      match skip, match_len r [] with
      | 0, Some _ => [(pos, pos)]
      | _, _ => []
      end
  | _ :: x' =>
      match skip with
      | S k => finditer_from r (S pos) k x'
      | 0 =>
          match match_len r x with
          | Some len => (pos, pos + len) :: finditer_from r (S pos) (len - 1) x'
          | None => finditer_from r (S pos) 0 x'
          end
      end
  end.

Definition finditer (r : regex) (x : str) : list (nat * nat) :=
  finditer_from r 0 0 x.

(** [re.sub(r, repl, x)] for a pattern that matches no empty string. *)
Fixpoint sub_from (r : regex) (repl : str) (skip : nat) (x : str) : str :=
  match x with
  | [] => []
  | c :: x' =>
      match skip with
      | S k => sub_from r repl k x'
      | 0 =>
          match match_len r x with
          | Some (S len) => repl ++ sub_from r repl len x'
          | _ => c :: sub_from r repl 0 x'
          end
      end
  end.

Definition re_sub (r : regex) (repl : str) (x : str) : str :=
  sub_from r repl 0 x.

(** The patterns of the source. *)

Definition digits1 : regex := Plus (Chr is_digit).

(** [(\d+!)?\d+(\.\d+)*((a|b|rc)\d+)?(\.post\d+)?(\.dev\d+)?] *)
Definition version_re : regex :=
  Seq (Opt (Seq digits1 (Lit (s "!"))))
 (Seq digits1
 (Seq (Star (Seq (Lit (s ".")) digits1))
 (Seq (Opt (Seq (Alt (Lit (s "a")) (Alt (Lit (s "b")) (Lit (s "rc")))) digits1))
 (Seq (Opt (Seq (Lit (s ".post")) digits1))
      (Opt (Seq (Lit (s ".dev")) digits1)))))).

(** The class [[^a-z0-9]]. *)
Definition not_lower_digit (c : ascii) : bool := negb (is_lower c || is_digit c).

(** [[^a-z0-9]+] *)
Definition non_alnum_run_re : regex := Plus (Chr not_lower_digit).

(** A character class under [re.IGNORECASE], for code points below U+0100:
    a character is in it when it, its lower case or its upper case is.
    (Above U+00FF the library also takes U+0130, U+0131, U+017F and U+212A
    for ASCII letters.) *)
Definition icase (p : ascii -> bool) (c : ascii) : bool :=
  p c || p (char_lower c) || p (char_upper c).

Definition cls_name_edge : ascii -> bool :=
  icase (fun c => is_upper c || is_digit c).

Definition cls_name_inner : ascii -> bool :=
  icase (fun c => is_upper c || is_digit c || mem_char c (s "._-")).

(** [[A-Z0-9]|[A-Z0-9][A-Z0-9._-]*[A-Z0-9]] with [flags=re.IGNORECASE] *)
Definition app_name_re : regex :=
  Alt (Chr cls_name_edge)
      (Seq (Chr cls_name_edge) (Seq (Star (Chr cls_name_inner)) (Chr cls_name_edge))).

(** ** Python values, dicts and exceptions *)

Inductive value : Type :=
| VNone
| VBool (b : bool)
| VInt (z : Z)
| VStr (x : str)
| VList (items : list value).

(** Truth value of an object, as [if v:] and [not v] take it. *)
Definition truthy (v : value) : bool :=
  match v with
  | VNone => false
  | VBool b => b
  | VInt z => negb (Z.eqb z 0)
  | VStr x => match x with [] => false | _ => true end
  | VList l => match l with [] => false | _ => true end
  end.

Definition dquote : ascii := ascii_of_nat 34.
Definition squote : ascii := ascii_of_nat 39.
Definition backslash : ascii := ascii_of_nat 92.

Definition hex_digit (n : nat) : ascii := nth n (s "0123456789abcdef") "0"%char.

(** One character of [repr(x)] for a [str] [x] quoted with [quote]. *)
Definition repr_char (quote : ascii) (c : ascii) : str :=
  let n := code c in
  if ascii_eqb c quote || ascii_eqb c backslash then [backslash; c]
  else if n =? 9 then [backslash; "t"%char]
  else if n =? 10 then [backslash; "n"%char]
  else if n =? 13 then [backslash; "r"%char]
  else if (n <? 32) || (n =? 127) || ((128 <=? n) && (n <=? 160)) || (n =? 173)
       then [backslash; "x"%char; hex_digit (n / 16); hex_digit (n mod 16)]
  else [c].

(** [repr(x)] for a [str]: single quotes, unless the text has a single quote
    and no double quote. *)
Definition repr_str (x : str) : str :=
  let quote := if mem_char squote x && negb (mem_char dquote x) then dquote else squote in
  quote :: flat_map (repr_char quote) x ++ [quote].

Definition str_of_Z (z : Z) : str := s (NilZero.string_of_int (Z.to_int z)).

(** [repr(v)] *)
Fixpoint py_repr (v : value) : str :=
  match v with
  | VNone => s "None"
  | VBool true => s "True"
  | VBool false => s "False"
  | VInt z => str_of_Z z
  | VStr x => repr_str x
  | VList l => s "[" ++ join (s ", ") (map py_repr l) ++ s "]"
  end.

(** [str(v)], which is what an f-string field [{v}] inserts. *)
Definition py_str (v : value) : str :=
  match v with
  | VStr x => x
  | _ => py_repr v
  end.

Definition dict := list (str * value).

(** [d[key]], [None] standing for [KeyError]. *)
Fixpoint lookup (d : dict) (key : str) : option value :=
  match d with
  | [] => None
  | (k, v) :: d' => if str_eqb k key then Some v else lookup d' key
  end.

(** [d.get(key, default)] *)
Definition get_default (d : dict) (key : str) (default : value) : value :=
  match lookup d key with
  | Some v => v
  | None => default
  end.

(** [d.get(key)] *)
Definition get (d : dict) (key : str) : value := get_default d key VNone.

(** [key in d] *)
Definition has_key (d : dict) (key : str) : bool :=
  match lookup d key with Some _ => true | None => false end.

(** A file-system path: the list of its components, innermost first, so
    that [p / name] is [name :: p], [p.parent] is the tail and [p.name] the
    head.  The root is [[]]. *)
Definition Path := list str.

Inductive exn : Type :=
| ValueError (msg : str)
| KeyError (key : str)
| TypeError
| AttributeError
| RuntimeError (msg : str)
| NotADirectoryError (p : Path)
| FileExistsError (p : Path)
| FileNotFoundError (p : Path)
| IsADirectoryError (p : Path).

Inductive result (A : Type) : Type :=
| Ok (a : A)
| Raise (e : exn).

Arguments Ok {A} a.
Arguments Raise {A} e.

Definition bind {A B : Type} (m : result A) (f : A -> result B) : result B :=
  match m with
  | Ok a => f a
  | Raise e => Raise e
  end.

Notation "x <- m ;; f" := (bind m (fun x => f))
  (at level 61, m at next level, right associativity).

(** ** Identifier normaliser *)

Definition DEFAULT_VERSION : str := s "0.0.1".

Definition nonempty (x : str) : bool :=
  match x with [] => false | _ => true end.

Definition no_version_warning (version : str) : str :=
  s "Version " ++ repr_str version ++
  s " contains no valid version numbers; defaulting to " ++ DEFAULT_VERSION.

(** [get_name_version(info)]: the outcome, and the warnings it logs. *)
Definition get_name_version (info : dict) : result (str * str) * list str :=
  let name := get info (s "name") in
  if negb (truthy name) then (Raise (ValueError (s "Name is empty")), [])
  else
    let version := get info (s "version") in
    if negb (truthy version) then (Raise (ValueError (s "Version is empty")), [])
    else
      match version with
      | VStr v =>
          let subject := replace_char "-" "." (lower v) in
          let matches := finditer version_re subject in
          match rev matches with
          | [] =>
              (Ok (py_str name ++ s " " ++ v, DEFAULT_VERSION),
               [no_version_warning v])
          | (start, stop) :: _ =>
              let version' := slice subject start stop in
              let strip_chars := s " .-_" in
              let before := strip strip_chars (firstn start v) in
              let after := strip strip_chars (skipn stop v) in
              match name with
              | VStr n =>
                  (Ok (join (s " ") (filter nonempty [n; before; after]), version'), [])
              | _ => (Raise TypeError, [])
              end
          end
      | _ => (Raise AttributeError, [])
      end.

(** [make_app_name(name, source)] *)
Definition make_app_name (name source : str) : result str :=
  let app_name := strip (s "-") (re_sub non_alnum_run_re (s "-") (lower name)) in
  if negb (nonempty app_name)
  then Raise (ValueError (source ++ s " contains no alphanumeric characters"))
  else Ok app_name.

(** [x.rsplit(sep, 1)] as the list Python returns. *)
Definition rsplit_once (sep : ascii) (x : str) : list str :=
  match rsplit1 sep x with
  | Some (a, b) => [a; b]
  | None => [x]
  end.

Section BundleAppName.
(** [DEFAULT_REVERSE_DOMAIN_ID] is imported from [constructor.utils]. *)
Variable DEFAULT_REVERSE_DOMAIN_ID : str.

Definition get_bundle_app_name (info : dict) (name : str) : result (str * str) :=
  match get info (s "reverse_domain_identifier") with
  | VNone =>
      app_name <- make_app_name name (s "Name " ++ repr_str name) ;;
      Ok (DEFAULT_REVERSE_DOMAIN_ID, app_name)
  | VStr rdi =>
      if negb (mem_char "." rdi)
      then Raise (ValueError (s "reverse_domain_identifier " ++ repr_str rdi ++
                              s " contains no dots"))
      else
        match rsplit_once "." rdi with
        | [bundle; app_name] =>
            if negb (fullmatch app_name_re app_name)
            then
              app_name' <- make_app_name app_name
                (s "Last component of reverse_domain_identifier " ++ repr_str rdi) ;;
              Ok (bundle, app_name')
            else Ok (bundle, app_name)
        | _ => Raise (ValueError (s "not enough values to unpack (expected 2, got 1)"))
        end
  | VList items as rdi =>
      if negb (existsb (fun v => match v with VStr x => str_eqb x (s ".") | _ => false end) items)
      then Raise (ValueError (s "reverse_domain_identifier " ++ py_repr rdi ++
                              s " contains no dots"))
      else Raise AttributeError
  | VBool _ | VInt _ => Raise TypeError
  end.
End BundleAppName.

Definition info_nv (n v : string) : dict := [(s "name", VStr (s n)); (s "version", VStr (s v))].

(** ** The file system

    A state [FS] gives, for each path, what is there.  File contents are raw
    text or a gzip-compressed tar archive, kept as the members it holds: the
    byte format belongs to [tarfile] and is not modelled.  Links, permissions
    and the working directory are outside the model. *)

Inductive node : Type :=
| NDir
| NFile (d : data)
with data : Type :=
| Raw (text : str)
| TarGz (members : Path -> option node).

Definition FS := Path -> option node.

Fixpoint path_eqb (p q : Path) : bool :=
  match p, q with
  | [], [] => true
  | a :: p', b :: q' => str_eqb a b && path_eqb p' q'
  | _, _ => false
  end.

(** [p / name] *)
Definition child (p : Path) (name : str) : Path := name :: p.

(** [p.name] *)
Definition path_name (p : Path) : str :=
  match p with
  | [] => []
  | n :: _ => n
  end.

(** [p.parent] *)
Definition parent (p : Path) : Path := tl p.

(** [str(p)], written with [/] between the components. *)
Definition path_str (p : Path) : str := s "/" ++ join (s "/") (rev p).

(** [p.exists()], [p.is_dir()], [p.is_file()] *)
Definition exists_ (fs : FS) (p : Path) : bool :=
  match fs p with Some _ => true | None => false end.

Definition is_dir (fs : FS) (p : Path) : bool :=
  match fs p with Some NDir => true | _ => false end.

Definition is_file (fs : FS) (p : Path) : bool :=
  match fs p with Some (NFile _) => true | _ => false end.

Definition put (fs : FS) (p : Path) (n : node) : FS :=
  fun q => if path_eqb q p then Some n else fs q.

(** [q] is [p] or lies below it. *)
Definition under (p q : Path) : bool :=
  path_eqb (skipn (length q - length p) q) p.

(** The part of [q] below [p]: [Some rel] when [q = rel ++ p]. *)
Definition relative_to (p q : Path) : option Path :=
  if under p q then Some (firstn (length q - length p) q) else None.

(** Stateful calls: the outcome and the file system they leave. *)
Definition M (A : Type) : Type := FS -> result A * FS.

Definition ret {A : Type} (a : A) : M A := fun fs => (Ok a, fs).

Definition throw {A : Type} (e : exn) : M A := fun fs => (Raise e, fs).

Definition mbind {A B : Type} (m : M A) (f : A -> M B) : M B :=
  fun fs =>
    match m fs with
    | (Ok a, fs') => f a fs'
    | (Raise e, fs') => (Raise e, fs')
    end.

Notation "x <~ m ;; f" := (mbind m (fun x => f))
  (at level 61, m at next level, right associativity).

(** [os.mkdir(p)] *)
Definition os_mkdir (p : Path) : M unit :=
  fun fs =>
    match fs p with
    | Some _ => (Raise (FileExistsError p), fs)
    | None =>
        match p with
        | [] => (Raise (FileNotFoundError p), fs)
        | _ :: up =>
            match fs up with
            | Some NDir => (Ok tt, put fs p NDir)
            | Some (NFile _) => (Raise (NotADirectoryError p), fs)
            | None => (Raise (FileNotFoundError p), fs)
            end
        end
    end.

(** [p.mkdir()] *)
Definition mkdir (p : Path) : M unit := os_mkdir p.

(** [p.mkdir(exist_ok=True)] *)
Definition mkdir_exist_ok (p : Path) : M unit :=
  fun fs =>
    match os_mkdir p fs with
    | (Raise (FileNotFoundError q), fs') => (Raise (FileNotFoundError q), fs')
    | (Raise e, fs') => if is_dir fs' p then (Ok tt, fs') else (Raise e, fs')
    | ok => ok
    end.

(** [p.mkdir(parents=True, exist_ok=True)] *)
Fixpoint mkdir_parents_exist_ok (p : Path) : M unit :=
  fun fs =>
    match os_mkdir p fs with
    | (Raise (FileNotFoundError q), fs') =>
        match p with
        | [] => (Raise (FileNotFoundError q), fs')
        | _ :: up =>
            (_ <~ mkdir_parents_exist_ok up ;; mkdir_exist_ok p) fs'
        end
    | (Raise e, fs') => if is_dir fs' p then (Ok tt, fs') else (Raise e, fs')
    | ok => ok
    end.

(** [shutil.rmtree(p)] *)
Definition rmtree (p : Path) : M unit :=
  fun fs =>
    match fs p with
    | Some NDir => (Ok tt, fun q => if under p q then None else fs q)
    | Some (NFile _) => (Raise (NotADirectoryError p), fs)
    | None => (Raise (FileNotFoundError p), fs)
    end.

(** Opening [p] for writing creates or truncates the file.  For a
    directory at [p] the error is given its POSIX class. *)
Definition open_w (p : Path) : M unit :=
  fun fs =>
    match fs p with
    | Some NDir => (Raise (IsADirectoryError p), fs)
    | _ =>
        match fs (parent p), p with
        | Some NDir, _ :: _ => (Ok tt, put fs p (NFile (Raw [])))
        | Some (NFile _), _ :: _ => (Raise (NotADirectoryError p), fs)
        | _, _ => (Raise (FileNotFoundError p), fs)
        end
    end.

(** The members [tar.add(src, arcname=arcname)] collects for the archive
    being written at [archive_path]: everything at and below [src], under
    the name [arcname], except the archive file itself. *)
Definition tar_members (fs : FS) (archive_path src : Path) (arcname : str)
  : Path -> option node :=
  fun m =>
    match rev m with
    | [] => None
    | top :: inner =>
        let source := rev inner ++ src in
        if str_eqb top arcname && negb (path_eqb source archive_path)
        then fs source
        else None
    end.

(** [with tarfile.open(archive_path, mode="w:gz") as tar: tar.add(src, arcname=arcname)] *)
Definition tar_create (archive_path src : Path) (arcname : str) : M unit :=
  _ <~ open_w archive_path ;;
  fun fs => (Ok tt, put fs archive_path (NFile (TarGz (tar_members fs archive_path src arcname)))).

(** [tar.extractall(dest)] for an archive with the given members. *)
Definition extractall (members : Path -> option node) (dest : Path) (fs : FS) : FS :=
  fun q =>
    match relative_to dest q with
    | Some m =>
        match members m with
        | Some n => Some n
        | None => fs q
        end
    | None => fs q
    end.

(** ** Payload layout manager *)

Definition EXTERNAL_PACKAGE_PATH : str := s "external".

Record PayloadLayout : Type := {
  layout_root : Path;
  layout_external : Path;
  layout_base : Path;
  layout_pkgs : Path
}.

Record TemplateFile : Type := {
  template_name : str;
  template_src : Path;
  template_dst : Path
}.

Record Payload : Type := {
  info : dict;
  root : option Path;
  archive_name : str;
  conda_exe_name : str;
  rendered_templates : option (list TemplateFile)
}.

(** [Payload(info)] with the defaults of the dataclass. *)
Definition new_Payload (info : dict) : Payload :=
  {| info := info; root := None; archive_name := s "payload.tar.gz";
     conda_exe_name := s "_conda.exe"; rendered_templates := None |}.

Definition _create_layout (self : Payload) (root : Path) : M PayloadLayout :=
  let external_dir := child root EXTERNAL_PACKAGE_PATH in
  _ <~ mkdir_parents_exist_ok external_dir ;;
  let base_dir := child external_dir (s "base") in
  _ <~ mkdir base_dir ;;
  let pkgs_dir := child base_dir (s "pkgs") in
  _ <~ mkdir pkgs_dir ;;
  ret {| layout_root := root; layout_external := external_dir;
         layout_base := base_dir; layout_pkgs := pkgs_dir |}.

Definition make_tar_gz (self : Payload) (src dst : Path) : M Path :=
  fun fs =>
    if negb (is_dir fs src) then (Raise (NotADirectoryError src), fs)
    else if negb (is_dir fs dst) then (Raise (NotADirectoryError dst), fs)
    else
      let archive_path := child dst (archive_name self) in
      (_ <~ tar_create archive_path src (path_name src) ;;
       ret archive_path) fs.

Definition _convert_into_archive (self : Payload) (src dst : Path) : M Path :=
  archive_path <~ make_tar_gz self src dst ;;
  fun fs =>
    if negb (exists_ fs archive_path)
    then (Raise (RuntimeError (s "Unexpected error, failed to create archive: "
                               ++ path_str archive_path)), fs)
    else
      (_ <~ rmtree src ;; ret archive_path) fs.

(** ** Install-options assembler *)

(** One entry of the options list: a dict with the keys [name], [title],
    [description] and [default]. *)
Record install_option : Type := {
  opt_name : str;
  opt_title : str;
  opt_description : value;
  opt_default : value
}.

(** [p.suffix]: the last dot of the name and what follows it, unless that
    dot is the first or the last character of the name. *)
Definition suffix (p : Path) : str :=
  match rsplit1 "." (path_name p) with
  | Some (stem, ext) => if nonempty stem && nonempty ext then "."%char :: ext else []
  | None => []
  end.

Definition is_bat_file (fs : FS) (file_path : Path) : bool :=
  is_file fs file_path && str_eqb (lower (suffix file_path)) (s ".bat").

(** [x.capitalize()] *)
Definition capitalize (x : str) : str :=
  match x with
  | [] => []
  | c :: x' => char_upper c :: lower x'
  end.

(** [list(v)]: the items a [for] loop over [v] visits. *)
Definition iterate (v : value) : result (list value) :=
  match v with
  | VList items => Ok items
  | VStr x => Ok (map (fun c => VStr [c]) x)
  | _ => Raise TypeError
  end.

(** The loop over [_dists]: the version text [x.y] of the first item that
    starts with [python-], if there is one. *)
Fixpoint find_python (items : list value) : result (option str) :=
  match items with
  | [] => Ok None
  | VStr item :: rest =>
      if startswith (s "python-") item
      then
        let components := split_char "-" item in
        Ok (Some (join (s ".") (removelast (split_char "." (nth 1 components [])))))
      else find_python rest
  | _ :: _ => Raise AttributeError
  end.

Definition condabin_description : str :=
  s "Adds condabin, which only contains the 'conda' executables, to PATH. " ++
  s "Does not require special shortcuts but activation needs " ++
  s "to be performed manually.".

Definition classic_description : str :=
  s "NOT recommended. This can lead to conflicts with other applications. " ++
  s "Instead, use the Command Prompt and Powershell menus added to the Windows Start Menu.".

(** The entries the function appends, in the order of the source. *)

Definition register_python_option (name : value) (python_version : str) (default : value)
  : install_option :=
  {| opt_name := s "register_python";
     opt_title := s "Register " ++ py_str name ++
                  s " as my default Python " ++ python_version ++ s ".";
     opt_description := VStr (
       s "Allows other programs, such as VSCode, PyCharm, etc. to automatically " ++
       s "detect " ++ py_str name ++ s " as the primary Python " ++
       python_version ++ s " on the system.");
     opt_default := default |}.

Definition initialize_conda_option (description : str) (default : value) : install_option :=
  {| opt_name := s "initialize_conda";
     opt_title := s "Add installation to my PATH environment variable";
     opt_description := VStr description;
     opt_default := default |}.

Definition clear_package_cache_option (clear_package_cache : bool) : install_option :=
  {| opt_name := s "clear_package_cache";
     opt_title := s "Clear the package cache upon completion";
     opt_description :=
       VStr (s "Recommended. Recovers some disk space without harming functionality.");
     opt_default := VBool clear_package_cache |}.

Definition enable_shortcuts_option : install_option :=
  {| opt_name := s "enable_shortcuts";
     opt_title := s "Create shortcuts";
     opt_description := VStr (s "Create shortcuts (supported packages only).");
     opt_default := VBool false |}.

Definition install_script_option (script_type : str) (script_description : value)
  : install_option :=
  {| opt_name := script_type ++ s "_install_script";
     opt_title := capitalize script_type ++ s "-install script";
     opt_description := script_description;
     opt_default := VBool false |}.

(** Register Python (if Python is bundled): [python] is the version found
    by the loop over [_dists]. *)
Definition register_options (info : dict) (python : option str)
  : result (list install_option) :=
  match python with
  | Some python_version =>
      if truthy (get_default info (s "register_python") (VBool true))
      then
        match lookup info (s "name") with
        | None => Raise (KeyError (s "name"))
        | Some name =>
            Ok [register_python_option name python_version
                  (get_default info (s "register_python_default") (VBool false))]
        end
      else Ok []
  | None => Ok []
  end.

(** Initialize conda *)
Definition initialize_options (info : dict) : list install_option :=
  let initialize_conda := get_default info (s "initialize_conda") (VStr (s "classic")) in
  if truthy initialize_conda
  then
    let description :=
      match initialize_conda with
      | VStr x => if str_eqb x (s "condabin") then condabin_description
                  else classic_description
      | _ => classic_description
      end in
    [initialize_conda_option description
       (get_default info (s "initialize_by_default") (VBool false))]
  else [].

(** Keep package option (presented to the user as a negation) *)
Definition clear_options (info : dict) : list install_option :=
  let clear_package_cache := negb (truthy (get_default info (s "keep_pkgs") (VBool false))) in
  [clear_package_cache_option clear_package_cache].

(** Enable shortcuts: [info.get("_enable_shortcuts", False) is True] *)
Definition shortcut_options (info : dict) : list install_option :=
  match get_default info (s "_enable_shortcuts") (VBool false) with
  | VBool true => [enable_shortcuts_option]
  | _ => []
  end.

Section InstallOptions.
(** [Path(script)]: the parser of [pathlib], which resolves the text of a
    path to a place in the file system. *)
Variable path_of : str -> Path.
Variable fs : FS.

(** The check of the script inside the loop over [["pre", "post"]]. *)
Definition check_script (script_type : str) (script : value) : result unit :=
  if truthy script
  then match script with
       | VStr x =>
           if negb (is_bat_file fs (path_of x))
           then Raise (ValueError (s "Specified " ++ script_type ++
                         s "-install script '" ++ x ++
                         s "' must be an existing '.bat' file."))
           else Ok tt
       | _ => Raise TypeError
       end
  else Ok tt.

(** One round of the loop over [["pre", "post"]]: the option to append,
    if any. *)
Definition script_option (info : dict) (script_type : str)
  : result (list install_option) :=
  let script_description := get_default info (script_type ++ s "_install_desc") (VStr []) in
  let script := get_default info (script_type ++ s "_install") (VStr []) in
  if truthy script_description && negb (truthy script)
  then Raise (ValueError (script_type ++ s "_install_desc was set, but " ++
                          script_type ++ s "_install was not!"))
  else
    _ <- check_script script_type script ;;
    (* The UI option is only displayed if a description is set *)
    if truthy script_description
    then Ok [install_script_option script_type script_description]
    else Ok [].

Definition create_install_options_list (info : dict) : result (list install_option) :=
  dists <- iterate (get_default info (s "_dists") (VList [])) ;;
  python <- find_python dists ;;
  register <- register_options info python ;;
  pre <- script_option info (s "pre") ;;
  post <- script_option info (s "post") ;;
  Ok (register ++ initialize_options info ++ clear_options info ++
      shortcut_options info ++ pre ++ post).
End InstallOptions.

(** ** Text files *)

Definition CR : ascii := ascii_of_nat 13.
Definition LF : ascii := ascii_of_nat 10.

(** Reading in text mode: [\r\n] and a lone [\r] are read as [\n]. *)
Fixpoint universal_newlines (x : str) : str :=
  match x with
  | [] => []
  | c :: x' =>
      if ascii_eqb c CR
      then LF :: match x' with
                 | d :: x'' =>
                     if ascii_eqb d LF then universal_newlines x''
                     else universal_newlines x'
                 | [] => []
                 end
      else c :: universal_newlines x'
  end.

(** [p.read_text(encoding="utf-8")].  The text of a file is kept decoded;
    the bytes of a gzip archive are no UTF-8, and [UnicodeDecodeError] is a
    [ValueError]. *)
Definition read_text (p : Path) : M str :=
  fun fs =>
    match fs p with
    | Some (NFile (Raw text)) => (Ok (universal_newlines text), fs)
    | Some (NFile (TarGz _)) =>
        (Raise (ValueError
           (s "'utf-8' codec can't decode byte 0x8b in position 1: invalid start byte")), fs)
    | Some NDir => (Raise (IsADirectoryError p), fs)
    | None => (Raise (FileNotFoundError p), fs)
    end.

(** The values [open] accepts for [newline], [None] apart. *)
Definition legal_newline (newline : str) : bool :=
  str_eqb newline [] || str_eqb newline [LF] || str_eqb newline [CR]
  || str_eqb newline [CR; LF].

(** Writing in text mode: each [\n] is written as [newline], unless
    [newline] is empty or [\n]. *)
Definition translate_newlines (newline : str) (x : str) : str :=
  if str_eqb newline [] || str_eqb newline [LF] then x
  else flat_map (fun c => if ascii_eqb c LF then newline else [c]) x.

(** [p.write_text(data, encoding="utf-8", newline=newline)]: the file is
    opened, and so created or emptied, before [newline] is checked. *)
Definition write_text (p : Path) (data newline : str) : M unit :=
  _ <~ open_w p ;;
  fun fs =>
    if negb (legal_newline newline)
    then (Raise (ValueError (s "illegal newline value: " ++ newline)), fs)
    else (Ok tt, put fs p (NFile (Raw (translate_newlines newline data)))).

(** A pure call inside a stateful one. *)
Definition lift {A : Type} (r : result A) : M A := fun fs => (r, fs).

(** ** Template files ([template_file.py]) *)

Definition DEFAULT_LINE_ENDING : str := [CR; LF].

Section Templates.
(** [render_template] is imported from [constructor.jinja]: the text of a
    template and the variables give the rendered text, or an error. *)
Variable render_template : str -> dict -> result str.

Fixpoint render_template_files (files : list TemplateFile) (context : dict)
         (line_ending : str) : M unit :=
  match files with
  | [] => ret tt
  | f :: rest =>
      fun fs =>
        if negb (exists_ fs (template_src f))
        then (Raise (FileNotFoundError (template_src f)), fs)
        else
          (text <~ read_text (template_src f) ;;
           rendered <~ lift (render_template text context) ;;
           _ <~ mkdir_parents_exist_ok (parent (template_dst f)) ;;
           _ <~ write_text (template_dst f) rendered line_ending ;;
           render_template_files rest context line_ending) fs
  end.

(** ** The session state of [Payload] *)

(** [BRIEFCASE_DIR], the directory [briefcase] beside the module. *)
Variable BRIEFCASE_DIR : Path.

(** The name [tempfile.mkdtemp] settles on in a given file system. *)
Variable temp_name : FS -> Path.

(** [Path(tempfile.mkdtemp())] *)
Definition mkdtemp : M Path :=
  fun fs =>
    match os_mkdir (temp_name fs) fs with
    | (Ok _, fs') => (Ok (temp_name fs), fs')
    | (Raise e, fs') => (Raise e, fs')
    end.

Definition set_root (self : Payload) (p : Path) : Payload :=
  {| info := info self; root := Some p; archive_name := archive_name self;
     conda_exe_name := conda_exe_name self;
     rendered_templates := rendered_templates self |}.

Definition set_rendered_templates (self : Payload) (templates : list TemplateFile)
  : Payload :=
  {| info := info self; root := root self; archive_name := archive_name self;
     conda_exe_name := conda_exe_name self;
     rendered_templates := Some templates |}.

(** A method that may assign to [self]: the outcome, [self] afterwards and
    the file system afterwards. *)
Definition method (A : Type) : Type := FS -> result A * Payload * FS.

(** [self._ensure_root()] *)
Definition _ensure_root (self : Payload) : method Path :=
  fun fs =>
    match root self with
    | None =>
        match mkdtemp fs with
        | (Ok p, fs') => (Ok p, set_root self p, fs')
        | (Raise e, fs') => (Raise e, self, fs')
        end
    | Some p => (Ok p, self, fs)
    end.

(** [self.remove()] *)
Definition remove (self : Payload) : M unit :=
  match root self with
  | None => throw TypeError
  | Some p => rmtree p
  end.

Definition payload_templates (root : Path) : list TemplateFile :=
  [ {| template_name := s "post_install_script";
       template_src := child BRIEFCASE_DIR (s "run_installation.bat");
       template_dst := child root (s "run_installation.bat") |};
    {| template_name := s "pre_uninstall_script";
       template_src := child BRIEFCASE_DIR (s "pre_uninstall.bat");
       template_dst := child root (s "pre_uninstall.bat") |} ].

Definition template_context (self : Payload) : dict :=
  [ (s "archive_name", VStr (archive_name self));
    (s "conda_exe_name", VStr (conda_exe_name self)) ].

(** [self.render_templates()] *)
Definition render_templates (self : Payload) : method (list TemplateFile) :=
  fun fs =>
    match _ensure_root self fs with
    | (Raise e, self1, fs1) => (Raise e, self1, fs1)
    | (Ok root, self1, fs1) =>
        let templates := payload_templates root in
        let context := template_context self1 in
        match render_template_files templates context DEFAULT_LINE_ENDING fs1 with
        | (Raise e, fs2) => (Raise e, self1, fs2)
        | (Ok _, fs2) => (Ok templates, set_rendered_templates self1 templates, fs2)
        end
    end.
End Templates.

(** ** The parametrization of the tests ([tests/conftest.py]) *)

Section Conftest.
(** [sys.platform] *)
Variable platform : str.

Definition _platform_installer_types : list str :=
  if startswith (s "win") platform then [s "exe"]
  else if str_eqb platform (s "darwin") then [s "sh"; s "pkg"]
  else [s "sh"].

Definition ALL_INSTALLER_TYPES : list str := _platform_installer_types.

(** [t in ALL_INSTALLER_TYPES]: only a string equals a string. *)
Definition is_available (t : value) : bool :=
  match t with
  | VStr x => existsb (str_eqb x) ALL_INSTALLER_TYPES
  | _ => false
  end.

(** What the hook does with a test: it returns without a word, it skips
    the test, or it parametrizes an argument with values. *)
Inductive hook_outcome : Type :=
| Returned
| Skipped (msg : str)
| Parametrized (argname : str) (argvalues : list value).

(** [fixturenames] are the arguments of the test, [marker] the arguments
    of its closest [installer_types] marker, if it has one. *)
Definition pytest_generate_tests (fixturenames : list str) (marker : option (list value))
  : hook_outcome :=
  if negb (existsb (str_eqb (s "installer_type")) fixturenames) then Returned
  else
    match marker with
    | Some args =>
        let requested := args in
        let types := filter is_available requested in
        match types with
        | [] =>
            Skipped (s "No applicable installer types for this platform (requested: "
                     ++ py_repr (VList requested) ++ s ", available: "
                     ++ py_repr (VList (map VStr ALL_INSTALLER_TYPES)) ++ s ")")
        | _ :: _ => Parametrized (s "installer_type") types
        end
    | None => Parametrized (s "installer_type") (map VStr ALL_INSTALLER_TYPES)
    end.
End Conftest.

(** ** The project file ([Payload.write_pyproject_toml]) *)

(** What is handed to [tomli_w]: values, lists and tables with their keys
    in the order of insertion. *)
Inductive toml : Type :=
| TVal (v : value)
| TArray (items : list toml)
| TTable (items : list (str * toml)).

Definition table := list (str * toml).

(** [d[key] = v]: the value of a key that is there is replaced where it
    stands, a new key goes to the end. *)
Fixpoint table_set (d : table) (key : str) (v : toml) : table :=
  match d with
  | [] => [(key, v)]
  | (k, w) :: d' =>
      if str_eqb k key then (k, v) :: d' else (k, w) :: table_set d' key v
  end.

(** [d.update({key: v for (key, v) in items})] *)
Definition table_update (d : table) (items : list (str * toml)) : table :=
  fold_left (fun acc kv => table_set acc (fst kv) (snd kv)) items d.

(** [d[key]] *)
Definition getitem (d : dict) (key : str) : result value :=
  match lookup d key with
  | Some v => Ok v
  | None => Raise (KeyError key)
  end.

(** An installation option as the dict the code builds. *)
Definition option_table (o : install_option) : toml :=
  TTable [ (s "name", TVal (VStr (opt_name o)));
           (s "title", TVal (VStr (opt_title o)));
           (s "description", TVal (opt_description o));
           (s "default", TVal (opt_default o)) ].

Section ProjectFile.
(** [Path(__file__).parent], the directory of the module. *)
Variable MODULE_DIR : Path.
Variable DEFAULT_REVERSE_DOMAIN_ID : str.
Variable path_of : str -> Path.
Variable render_template : str -> dict -> result str.
Variable temp_name : FS -> Path.

(** [tomli_w.dumps]; where [tomli_w] is [None], off Windows, the call
    raises [AttributeError]. *)
Variable dumps : toml -> result str.

(** The encoding of the locale, the one [write_text] takes when none is
    given: the message of the [UnicodeEncodeError] for a text it cannot
    encode. *)
Variable locale_encode_error : str -> option str.

(** [os.linesep] *)
Variable linesep : str.

(** [p.write_text(data)]: the file is opened, and so created or emptied,
    before the text is encoded; each [\n] is written as [os.linesep].
    [UnicodeEncodeError] is a [ValueError]. *)
Definition write_text_locale (p : Path) (data : str) : M unit :=
  _ <~ open_w p ;;
  fun fs =>
    match locale_encode_error data with
    | Some msg => (Raise (ValueError msg), fs)
    | None => (Ok tt, put fs p (NFile (Raw (translate_newlines linesep data))))
    end.

Definition get_license (info : dict) : table :=
  match lookup info (s "license_file") with
  | Some license_file => [(s "file", TVal license_file)]
  | None =>
      let placeholder_license :=
        child (child MODULE_DIR (s "nsis")) (s "placeholder_license.txt") in
      [(s "file", TVal (VStr (path_str placeholder_license)))]
  end.

(** [f"{self.info['name']} {self.info['version']}"] *)
Definition formal_name (info : dict) : result str :=
  name <- getitem info (s "name") ;;
  version <- getitem info (s "version") ;;
  Ok (py_str name ++ s " " ++ py_str version).

(** The table under the name of the application, before the templates. *)
Definition app_table (formal : str) (layout : PayloadLayout)
           (options : list install_option) : table :=
  [ (s "formal_name", TVal (VStr formal));
    (s "description", TVal (VStr []));
    (s "external_package_path", TVal (VStr (path_str (layout_external layout))));
    (s "use_full_install_path", TVal (VBool false));
    (s "install_launcher", TVal (VBool false));
    (s "install_option", TArray (map option_table options)) ].

(** [{t.name: str(t.dst) for t in rendered_templates}], as the items in
    the order of the list. *)
Definition template_items (templates : list TemplateFile) : list (str * toml) :=
  map (fun t => (template_name t, TVal (VStr (path_str (template_dst t))))) templates.

(** [config] when it is handed to [tomli_w.dumps]. *)
Definition project_config (info : dict) (name version bundle app_name : str)
           (app : table) : table :=
  let config :=
    [ (s "project_name", TVal (VStr name));
      (s "bundle", TVal (VStr bundle));
      (s "version", TVal (VStr version));
      (s "license", TTable (get_license info));
      (s "app", TTable [(app_name, TTable app)]) ] in
  match lookup info (s "company") with
  | Some company => table_set config (s "author") (TVal company)
  | None => config
  end.

Definition document (config : table) : toml :=
  TTable [(s "tool", TTable [(s "briefcase", TTable config)])].

(** What a method of [Payload] leaves: the outcome, [self], the file
    system and the records written to the log. *)
Definition logged (A : Type) : Type := FS -> result A * Payload * FS * list str.

(** [self.write_pyproject_toml(layout)] *)
Definition write_pyproject_toml (self : Payload) (layout : PayloadLayout) : logged unit :=
  fun fs =>
    match get_name_version (info self) with
    | (Raise e, log) => (Raise e, self, fs, log)
    | (Ok (name, version), log) =>
    match get_bundle_app_name DEFAULT_REVERSE_DOMAIN_ID (info self) name with
    | Raise e => (Raise e, self, fs, log)
    | Ok (bundle, app_name) =>
    match formal_name (info self) with
    | Raise e => (Raise e, self, fs, log)
    | Ok formal =>
    match create_install_options_list path_of fs (info self) with
    | Raise e => (Raise e, self, fs, log)
    | Ok options =>
    (* Render the template files and add them to the necessary config field *)
    match render_templates render_template (child MODULE_DIR (s "briefcase"))
            temp_name self fs with
    | (Raise e, self1, fs1) => (Raise e, self1, fs1, log)
    | (Ok rendered, self1, fs1) =>
    let app := table_update (app_table formal layout options) (template_items rendered) in
    (* Add optional content *)
    let config := project_config (info self1) name version bundle app_name app in
    (* Finalize *)
    match dumps (document config) with
    | Raise e => (Raise e, self1, fs1, log)
    | Ok text =>
    match write_text_locale (child (layout_root layout) (s "pyproject.toml")) text fs1 with
    | (Raise e, fs2) => (Raise e, self1, fs2, log)
    | (Ok _, fs2) =>
        (Ok tt, self1, fs2,
         log ++ [s "Created TOML file at: " ++ path_str (layout_root layout)])
    end end end end end end end.
End ProjectFile.

(** ** Staging the packages ([Payload._stage_dists]) *)

(** The errors of staging: [shutil.SameFileError], and those of the file
    system and of the calls around it. *)
Inductive stage_error : Type :=
| SameFileError (src dst : Path)
| Other (e : exn).

(** A call that returns nothing: the error it raised, if any, and the file
    system it leaves. *)
Definition staging : Type := FS -> option stage_error * FS.

(** [shutil.copy(src, dst)]: into [dst] when that is a directory, under the
    name of [src]; the check for the same file comes first, then [src] is
    opened, then the target. *)
Definition shutil_copy (src dst : Path) : staging :=
  fun fs =>
    let dst := if is_dir fs dst then child dst (path_name src) else dst in
    if exists_ fs src && path_eqb src dst then (Some (SameFileError src dst), fs)
    else
      match fs src with
      | None => (Some (Other (FileNotFoundError src)), fs)
      | Some NDir => (Some (Other (IsADirectoryError src)), fs)
      | Some (NFile content) =>
          match open_w dst fs with
          | (Raise e, fs1) => (Some (Other e), fs1)
          | (Ok _, fs1) => (None, put fs1 dst (NFile content))
          end
      end.

Section StageDists.
(** [Path(text)] and [directory / text]: the parser of [pathlib]. *)
Variable path_of : str -> Path.
Variable joinpath : Path -> str -> Path.

(** [filename_dist] is imported from [constructor.utils]. *)
Variable filename_dist : value -> result str.

(** The loop over [self.info["_dists"]]. *)
Fixpoint copy_dists (download_dir pkgs : Path) (dists : list value) : staging :=
  match dists with
  | [] => fun fs => (None, fs)
  | dist :: rest =>
      fun fs =>
        match filename_dist dist with
        | Raise e => (Some (Other e), fs)
        | Ok fn =>
            match shutil_copy (joinpath download_dir fn) pkgs fs with
            | (Some err, fs1) => (Some err, fs1)
            | (None, fs1) => copy_dists download_dir pkgs rest fs1
            end
        end
  end.

(** [self._stage_dists(layout)] *)
Definition _stage_dists (self : Payload) (layout : PayloadLayout) : staging :=
  fun fs =>
    match getitem (info self) (s "_download_dir") with
    | Raise e => (Some (Other e), fs)
    | Ok (VStr d) =>
        let download_dir := path_of d in
        match getitem (info self) (s "_dists") with
        | Raise e => (Some (Other e), fs)
        | Ok v =>
            match iterate v with
            | Raise e => (Some (Other e), fs)
            | Ok dists => copy_dists download_dir (layout_pkgs layout) dists fs
            end
        end
    | Ok _ => (Some (Other TypeError), fs)
    end.
End StageDists.

(** ** Preparing the payload ([Payload.prepare]) *)

Section Prepare.
Variable MODULE_DIR : Path.
Variable DEFAULT_REVERSE_DOMAIN_ID : str.
Variable path_of : str -> Path.
Variable joinpath : Path -> str -> Path.
Variable render_template : str -> dict -> result str.
Variable temp_name : FS -> Path.
Variable dumps : toml -> result str.
Variable locale_encode_error : str -> option str.
Variable linesep : str.
Variable filename_dist : value -> result str.

(** [preconda.write_files] and [preconda.copy_extra_files], and
    [copy_conda_exe] of [constructor.utils]: calls on the file system. *)
Variable write_files : dict -> Path -> M unit.
Variable copy_extra_files : value -> Path -> M unit.
Variable copy_conda_exe : Path -> str -> value -> M unit.

(** [self._stage_conda(layout)] *)
Definition _stage_conda (self : Payload) (layout : PayloadLayout) : M unit :=
  fun fs =>
    match getitem (info self) (s "_conda_exe") with
    | Raise e => (Raise e, fs)
    | Ok conda_exe =>
        copy_conda_exe (layout_external layout) (conda_exe_name self) conda_exe fs
    end.

(** What [prepare] leaves: the layout or the error, [self], the file
    system and the records written to the log. *)
Definition preparing : Type := FS -> (PayloadLayout + stage_error) * Payload * FS * list str.

(** [self.prepare(as_archive)] *)
Definition prepare (self : Payload) (as_archive : bool) : preparing :=
  fun fs =>
    match _ensure_root temp_name self fs with
    | (Raise e, self1, fs1) => (inr (Other e), self1, fs1, [])
    | (Ok root, self1, fs1) =>
    match _create_layout self1 root fs1 with
    | (Raise e, fs2) => (inr (Other e), self1, fs2, [])
    | (Ok layout, fs2) =>
    match write_pyproject_toml MODULE_DIR DEFAULT_REVERSE_DOMAIN_ID path_of
            render_template temp_name dumps locale_encode_error linesep
            self1 layout fs2 with
    | (Raise e, self3, fs3, log) => (inr (Other e), self3, fs3, log)
    | (Ok _, self3, fs3, log) =>
    match write_files (info self3) (layout_base layout) fs3 with
    | (Raise e, fs4) => (inr (Other e), self3, fs4, log)
    | (Ok _, fs4) =>
    match copy_extra_files (get_default (info self3) (s "extra_files") (VList []))
            (layout_external layout) fs4 with
    | (Raise e, fs5) => (inr (Other e), self3, fs5, log)
    | (Ok _, fs5) =>
    match _stage_dists path_of joinpath filename_dist self3 layout fs5 with
    | (Some err, fs6) => (inr err, self3, fs6, log)
    | (None, fs6) =>
    match _stage_conda self3 layout fs6 with
    | (Raise e, fs7) => (inr (Other e), self3, fs7, log)
    | (Ok _, fs7) =>
        if as_archive
        then
          match _convert_into_archive self3 (layout_base layout) (layout_external layout)
                  fs7 with
          | (Raise e, fs8) => (inr (Other e), self3, fs8, log)
          | (Ok _, fs8) => (inl layout, self3, fs8, log)
          end
        else (inl layout, self3, fs7, log)
    end end end end end end end.
End Prepare.

(** * Vocabulary of the statements

    Languages of the patterns, the wording of the claims as definitions,
    and the examples the witnesses use. *)

Inductive Matches : regex -> str -> Prop :=
| MEps : Matches Eps []
| MChr p c : p c = true -> Matches (Chr p) [c]
| MSeq a b x y : Matches a x -> Matches b y -> Matches (Seq a b) (x ++ y)
| MAltL a b x : Matches a x -> Matches (Alt a b) x
| MAltR a b x : Matches b x -> Matches (Alt a b) x
| MStarNil a : Matches (Star a) []
| MStarApp a x y : Matches a x -> Matches (Star a) y -> Matches (Star a) (x ++ y).

Fixpoint nullable (r : regex) : bool :=
  match r with
  | Eps => true
  | Chr _ => false
  | Seq a b => nullable a && nullable b
  | Alt a b => nullable a || nullable b
  | Star _ => true
  end.

(** Can a match of [r] start with [c]? *)
Fixpoint first (r : regex) (c : ascii) : bool :=
  match r with
  | Eps => false
  | Chr p => p c
  | Seq a b => first a c || (nullable a && first b c)
  | Alt a b => first a c || first b c
  | Star a => first a c
  end.

Section MatcherVocabulary.
Variable R : Type.
Implicit Types (k : str -> option R) (x : str).

(** What a step must satisfy for the loop over it to be sound. *)
Definition sound_step (a : regex) (step : str -> (str -> option R) -> option R) : Prop :=
  forall x k v, step x k = Some v ->
    exists x1 x2, x = x1 ++ x2 /\ Matches a x1 /\ k x2 = Some v.

(** A pattern that matches the empty string cannot fail before a
    continuation that never fails. *)
Definition total_k k : Prop := forall x, k x <> None.

(** A repetition of one character class, written as a recursion on the
    input: take the character if it is in the class and the rest matches,
    otherwise stop here. *)
Fixpoint star_chr (p : ascii -> bool) k x : option R :=
  match x with
  | c :: x' =>
      if p c
      then match star_chr p k x' with
           | Some r => Some r
           | None => k x
           end
      else k x
  | [] => k []
  end.

End MatcherVocabulary.

Fixpoint drop_while (p : ascii -> bool) (x : str) : str :=
  match x with
  | c :: x' => if p c then drop_while p x' else x
  | [] => []
  end.

Fixpoint run_length (p : ascii -> bool) (x : str) : nat :=
  match x with
  | c :: x' => if p c then S (run_length p x') else 0
  | [] => 0
  end.

(** The claim's words for the text before stripping: every maximal run of
    non-alphanumeric characters becomes one hyphen.  [in_run] says that the
    hyphen of the current run is already written. *)
Fixpoint collapse_runs (in_run : bool) (x : str) : str :=
  match x with
  | [] => []
  | c :: x' =>
      if is_alnum c then c :: collapse_runs false x'
      else if in_run then collapse_runs true x'
      else "-"%char :: collapse_runs true x'
  end.

(** [make_app_name] as the claim words it. *)
Definition spec_app_name (raw : str) : str :=
  strip (s "-") (collapse_runs false (lower raw)).

Definition lower_digit (c : ascii) : bool := is_lower c || is_digit c.

(** Lowercase alphanumeric segments joined by hyphens, none of them empty. *)
Definition is_token (x : str) : Prop :=
  exists segs,
    segs <> [] /\
    Forall (fun seg => seg <> [] /\ Forall (fun c => lower_digit c = true) seg) segs /\
    x = join (s "-") segs.

(** The same, read from the left: [prev] says that the text so far is empty
    or ends with a hyphen; [trail] allows the text to end that way. *)
Fixpoint tok (trail prev : bool) (x : str) : bool :=
  match x with
  | [] => trail || negb prev
  | c :: x' =>
      if ascii_eqb c "-" then negb prev && tok trail true x'
      else lower_digit c && tok trail false x'
  end.

Definition name_inner (c : ascii) : bool := is_alnum c || mem_char c (s "._-").

(** A text whose last character is alphanumeric and whose other characters
    are alphanumeric or one of [._-]. *)
Fixpoint ends_alnum (x : str) : bool :=
  match x with
  | [] => false
  | [c] => is_alnum c
  | c :: x' => name_inner c && ends_alnum x'
  end.

(** The texts of [[A-Za-z0-9]|[A-Za-z0-9][A-Za-z0-9._-]*[A-Za-z0-9]]. *)
Definition valid_app_name (x : str) : bool :=
  match x with
  | [] => false
  | [c] => is_alnum c
  | c :: x' => is_alnum c && ends_alnum x'
  end.

Definition at_end (rest : str) : option unit :=
  match rest with [] => Some tt | _ => None end.

Definition rdi_key : str := s "reverse_domain_identifier".

Definition rdi_label (rdi : str) : str :=
  s "Last component of reverse_domain_identifier " ++ repr_str rdi.

Definition example_rdi : dict := [(rdi_key, VStr (s "com.example.MyApp"))].

(** The end of the last span of a list, [d] if the list is empty. *)
Definition last_end (l : list (nat * nat)) (d : nat) : nat :=
  match rev l with
  | (_, b) :: _ => b
  | [] => d
  end.

Definition no_digit (x : str) : Prop := Forall (fun c => is_digit c = false) x.

(** The text the pattern is matched against: the version in lower case,
    hyphens read as dots. *)
Definition version_subject (v : str) : str := replace_char "-" "." (lower v).

(** [x] has a part that is a version. *)
Definition contains_version (x : str) : Prop :=
  exists pre m post, x = pre ++ m ++ post /\ Matches version_re m.

Definition name_key : str := s "name".
Definition version_key : str := s "version".
Definition strip_chars : str := s " .-_".

Definition is_python_dist (v : value) : bool :=
  match v with
  | VStr item => startswith (s "python-") item
  | _ => false
  end.

(** A staged distribution is the bundled Python. *)
Definition has_python (info : dict) : bool :=
  match get_default info (s "_dists") (VList []) with
  | VList items => existsb is_python_dist items
  | _ => false
  end.

Definition shortcuts_enabled (info : dict) : bool :=
  match lookup info (s "_enable_shortcuts") with
  | Some (VBool true) => true
  | _ => false
  end.

(** The fixed priority sequence: each option name with the condition under
    which the option is listed. *)
Definition priority_table (info : dict) : list (str * bool) :=
  [ (s "register_python",
     has_python info && truthy (get_default info (s "register_python") (VBool true)));
    (s "initialize_conda",
     truthy (get_default info (s "initialize_conda") (VStr (s "classic"))));
    (s "clear_package_cache", true);
    (s "enable_shortcuts", shortcuts_enabled info);
    (s "pre_install_script", truthy (get_default info (s "pre_install_desc") (VStr [])));
    (s "post_install_script", truthy (get_default info (s "post_install_desc") (VStr []))) ].

Definition option_names (opts : list install_option) : list str := map opt_name opts.

Definition is_some {A : Type} (o : option A) : bool :=
  match o with Some _ => true | None => false end.

(** An example file system and a path parser for it: paths are written
    with [/], and the file system is a finite table. *)
Definition simple_path_of (x : str) : Path :=
  rev (filter nonempty (split_char "/" x)).

Fixpoint fs_of_list (l : list (Path * node)) : FS :=
  fun p =>
    match l with
    | [] => None
    | (q, n) :: l' => if path_eqb p q then Some n else fs_of_list l' p
    end.

Definition example_fs : FS :=
  fs_of_list
    [ ([], NDir);
      ([s "scripts"], NDir);
      ([s "pre.BAT"; s "scripts"], NFile (Raw (s "echo pre")));
      ([s "post.sh"; s "scripts"], NFile (Raw (s "echo post"))) ].

Definition example_info : dict :=
  [ (s "name", VStr (s "App"));
    (s "version", VStr (s "1.2.3"));
    (s "_dists", VList [VStr (s "numpy-1.26.4-py310_0"); VStr (s "python-3.10.2-h1_0")]);
    (s "keep_pkgs", VBool true);
    (s "_enable_shortcuts", VInt 1);
    (s "pre_install", VStr (s "/scripts/pre.BAT"));
    (s "pre_install_desc", VStr (s "Prepare the machine")) ].

Definition example_options : list install_option :=
  Eval vm_compute in
    match create_install_options_list simple_path_of example_fs example_info with
    | Ok opts => opts
    | Raise _ => []
    end.

Definition clear_name : str := s "clear_package_cache".

Definition shortcuts_key : str := s "_enable_shortcuts".
Definition shortcuts_name : str := s "enable_shortcuts".

Definition is_VStr (v : value) : bool :=
  match v with VStr _ => true | _ => false end.

Definition absent_or_str (info : dict) (key : str) : bool :=
  match lookup info key with
  | None | Some (VStr _) => true
  | _ => false
  end.

(** The metadata has the types the packaging schema gives it: [_dists] is
    a list of strings, [name] is there, the script paths are strings. *)
Definition well_typed (info : dict) : bool :=
  match lookup info (s "_dists") with
  | None => true
  | Some (VList items) => forallb is_VStr items
  | _ => false
  end
  && has_key info (s "name")
  && absent_or_str info (s "pre_install")
  && absent_or_str info (s "post_install").

(** A call fails, and with [ValueError] when the metadata is well typed. *)
Definition fails_validation (A : Type) (r : result A) (typed : bool) : Prop :=
  exists e, r = Raise e /\ (typed = true -> exists msg, e = ValueError msg).

Definition script_desc (info : dict) (t : str) : value :=
  get_default info (t ++ s "_install_desc") (VStr []).

Definition script_path (info : dict) (t : str) : value :=
  get_default info (t ++ s "_install") (VStr []).

(** The script of type [t] raises nothing: none is given and none is
    described, or the one given is an existing [.bat] file. *)
Definition script_ok (path_of : str -> Path) (fs : FS) (info : dict) (t : str) : Prop :=
  (truthy (script_path info t) = false /\ truthy (script_desc info t) = false) \/
  (exists x, script_path info t = VStr x /\ x <> [] /\ is_bat_file fs (path_of x) = true).

Definition undescribed_script_info : dict :=
  [ (s "name", VStr (s "App"));
    (s "pre_install_desc", VStr (s "Prepare the machine")) ].

Definition external_of (root : Path) : Path := child root EXTERNAL_PACKAGE_PATH.
Definition base_of (root : Path) : Path := child (external_of root) (s "base").
Definition pkgs_of (root : Path) : Path := child (base_of root) (s "pkgs").

Definition layout_of (root : Path) : PayloadLayout :=
  {| layout_root := root; layout_external := external_of root;
     layout_base := base_of root; layout_pkgs := pkgs_of root |}.

(** The file system once [external] is there. *)
Definition with_external (fs : FS) (root : Path) : FS :=
  if is_dir fs (external_of root) then fs else put fs (external_of root) NDir.

Definition archive_path_of (self : Payload) (dst : Path) : Path :=
  child dst (archive_name self).

(** An example: a payload tree, archived into its parent. *)
Definition payload_fs : FS :=
  fs_of_list
    [ ([], NDir);
      ([s "external"], NDir);
      ([s "base"; s "external"], NDir);
      ([s "pkgs"; s "base"; s "external"], NDir);
      ([s "numpy.conda"; s "pkgs"; s "base"; s "external"], NFile (Raw (s "numpy"))) ].

(** A file system in which a directory sits at the archive path. *)
Definition occupied_fs : FS :=
  fs_of_list
    [ ([], NDir);
      ([s "src"], NDir);
      ([s "dst"], NDir);
      ([s "payload.tar.gz"; s "dst"], NDir) ].

(** A directory [a] with a directory [b] inside. *)
Definition nested_fs : FS :=
  fs_of_list
    [ ([], NDir);
      ([s "a"], NDir);
      ([s "b"; s "a"], NDir);
      ([s "f.txt"; s "a"], NFile (Raw (s "text"))) ].

(** No file blocks the way to [p]: the root is a directory, and [p] and
    each directory above it is absent or a directory. *)
Fixpoint clear_way (fs : FS) (p : Path) : bool :=
  match p with
  | [] => is_dir fs []
  | _ :: up => (is_dir fs p || negb (exists_ fs p)) && clear_way fs up
  end.

(** A file system with nothing but its root. *)
Definition bare_fs : FS := fs_of_list [([], NDir)].

(** Later files neither read nor overwrite what an earlier file wrote. *)
Fixpoint independent (files : list TemplateFile) : Prop :=
  match files with
  | [] => True
  | f :: rest =>
      (forall g, In g rest ->
         template_dst f <> template_src g /\ template_dst f <> template_dst g) /\
      independent rest
  end.

(** Every line feed of a text follows a carriage return; [prev_cr] says
    that the character before the text is one. *)
Fixpoint lf_after_cr (prev_cr : bool) (x : str) : bool :=
  match x with
  | [] => true
  | c :: x' => (if ascii_eqb c LF then prev_cr else true) && lf_after_cr (ascii_eqb c CR) x'
  end.

Definition crlf_only (x : str) : bool := lf_after_cr false x.

(** From one file system to the next, nothing changed but directories that
    were made where nothing was. *)
Definition only_new_dirs (fs fs' : FS) : Prop :=
  forall q, fs' q = fs q \/ (fs q = None /\ fs' q = Some NDir).

(** A rendering that only fills in the two names. *)
Definition example_render (text : str) (context : dict) : result str :=
  Ok (text ++ s " " ++ py_str (get context (s "archive_name"))).

Definition template_fs : FS :=
  fs_of_list
    [ ([], NDir);
      ([s "briefcase"], NDir);
      ([s "run_installation.bat"; s "briefcase"], NFile (Raw (s "install")));
      ([s "pre_uninstall.bat"; s "briefcase"], NFile (Raw (s "uninstall"))) ].

(** The file system after [make_tar_gz] has written the archive. *)
Definition archived (self : Payload) (src dst : Path) (fs : FS) : FS :=
  put (put fs (archive_path_of self dst) (NFile (Raw [])))
      (archive_path_of self dst)
      (NFile (TarGz (tar_members
                       (put fs (archive_path_of self dst) (NFile (Raw [])))
                       (archive_path_of self dst) src (path_name src)))).

(** A name for the temporary directory, whatever the file system. *)
Definition example_temp_name (fs : FS) : Path := [s "constructor0"; s "tmp"].

(** The template directory and an empty [tmp] beside it. *)
Definition session_fs : FS :=
  fs_of_list
    [ ([], NDir);
      ([s "tmp"], NDir);
      ([s "briefcase"], NDir);
      ([s "run_installation.bat"; s "briefcase"], NFile (Raw (s "install")));
      ([s "pre_uninstall.bat"; s "briefcase"], NFile (Raw (s "uninstall"))) ].

(** A payload whose root has been set. *)
Definition rooted_Payload (p : Path) : Payload :=
  {| info := []; root := Some p; archive_name := s "payload.tar.gz";
     conda_exe_name := s "_conda.exe"; rendered_templates := None |}.

(** [d.get(key)] on a table, [None] when the key is not there. *)
Fixpoint table_lookup (d : table) (key : str) : option toml :=
  match d with
  | [] => None
  | (k, v) :: d' => if str_eqb k key then Some v else table_lookup d' key
  end.

(** The checks of the project file, in the order in which the code makes
    them: the name and the version, the identifier, the options. *)
Definition project_checks (DEFAULT_REVERSE_DOMAIN_ID : str) (path_of : str -> Path)
           (fs : FS) (info : dict) : result (str * str * (str * str) * list install_option) :=
  match fst (get_name_version info) with
  | Raise e => Raise e
  | Ok (name, version) =>
      match get_bundle_app_name DEFAULT_REVERSE_DOMAIN_ID info name with
      | Raise e => Raise e
      | Ok bundle_app =>
          match create_install_options_list path_of fs info with
          | Raise e => Raise e
          | Ok options => Ok (name, version, bundle_app, options)
          end
      end
  end.

(** A serializer that gives the same text for every document. *)
Definition example_dumps (doc : toml) : result str := Ok (s "[tool.briefcase]").

Definition example_project_info : dict :=
  [ (s "name", VStr (s "App")); (s "version", VStr (s "1.2.3"));
    (s "company", VStr (s "ACME")) ].

(** A download directory with two packages, and an empty layout. *)
Definition download_fs : FS :=
  fs_of_list
    [ ([], NDir);
      ([s "dl"], NDir);
      ([s "numpy.conda"; s "dl"], NFile (Raw (s "numpy")));
      ([s "python.conda"; s "dl"], NFile (Raw (s "python")));
      ([s "external"], NDir);
      ([s "base"; s "external"], NDir);
      ([s "pkgs"; s "base"; s "external"], NDir) ].

Definition download_info : dict :=
  [ (s "_download_dir", VStr (s "/dl"));
    (s "_dists", VList [VStr (s "numpy.conda"); VStr (s "python.conda")]) ].

(** The file name of a package given as its name. *)
Definition example_filename_dist (dist : value) : result str :=
  match dist with
  | VStr fn => Ok fn
  | _ => Raise AttributeError
  end.

(** The items [for] visits in [info[key]], when there are any to visit. *)
Definition items_of (info : dict) (key : str) : option (list value) :=
  match lookup info key with
  | Some v => match iterate v with Ok items => Some items | Raise _ => None end
  | None => None
  end.

(** A download directory, the templates and [tmp]. *)
Definition prepare_fs : FS :=
  fs_of_list
    [ ([], NDir);
      ([s "tmp"], NDir);
      ([s "dl"], NDir);
      ([s "numpy.conda"; s "dl"], NFile (Raw (s "numpy")));
      ([s "briefcase"], NDir);
      ([s "run_installation.bat"; s "briefcase"], NFile (Raw (s "install")));
      ([s "pre_uninstall.bat"; s "briefcase"], NFile (Raw (s "uninstall"))) ].

Definition prepare_info : dict :=
  [ (s "name", VStr (s "App")); (s "version", VStr (s "1.2.3"));
    (s "_download_dir", VStr (s "/dl"));
    (s "_dists", VList [VStr (s "numpy.conda")]);
    (s "_conda_exe", VStr (s "/dl/conda.exe")) ].

(** * Properties *)

Example version_re_ex1 :
  finditer version_re (s "1.0.rc1.2.0") = [(0, 3); (6, 11)].
Proof. vm_compute. reflexivity. Qed.

Example gnv_ex1 :
  get_name_version (info_nv "x" "1.0-rc1-2.0") = (Ok (s "x 1.0-rc", s "1.2.0"), []).
Proof. vm_compute. reflexivity. Qed.

Example gnv_ex2 :
  get_name_version (info_nv "Miniconda3" "py310_23.1.0-1") = (Ok (s "Miniconda3 py310", s "23.1.0.1"), []).
Proof. vm_compute. reflexivity. Qed.

Example man_ex1 : make_app_name (s "My App!!2024") (s "Name") = Ok (s "my-app-2024").
Proof. vm_compute. reflexivity. Qed.

Example gban_ex1 :
  get_bundle_app_name (s "io.continuum") [(s "reverse_domain_identifier", VStr (s "com.example.my app!"))] (s "x")
  = Ok (s "com.example", s "my-app").
Proof. vm_compute. reflexivity. Qed.

(** ** Characters and strings *)

Lemma ascii_eqb_eq (a b : ascii) : ascii_eqb a b = true <-> a = b.
Proof. apply Ascii.eqb_eq. Qed.

Lemma ascii_eqb_refl (a : ascii) : ascii_eqb a a = true.
Proof. apply Ascii.eqb_refl. Qed.

Lemma str_eqb_eq (a b : str) : str_eqb a b = true <-> a = b.
Proof.
  revert b; induction a as [|x a IH]; intros [|y b]; simpl; split; intro H;
    try reflexivity; try discriminate.
  - apply andb_true_iff in H as [H1 H2].
    apply ascii_eqb_eq in H1. apply IH in H2. congruence.
  - inversion H; subst. rewrite ascii_eqb_refl. simpl. now apply IH.
Qed.

Lemma str_eqb_refl (a : str) : str_eqb a a = true.
Proof. now apply str_eqb_eq. Qed.

Lemma str_eqb_neq (a b : str) : str_eqb a b = false <-> a <> b.
Proof.
  split.
  - intros H E. apply str_eqb_eq in E. congruence.
  - intro H. destruct (str_eqb a b) eqn:E; [|reflexivity].
    apply str_eqb_eq in E. contradiction.
Qed.

Lemma path_eqb_eq (p q : Path) : path_eqb p q = true <-> p = q.
Proof.
  revert q; induction p as [|a p IH]; intros [|b q]; simpl; split; intro H;
    try reflexivity; try discriminate.
  - apply andb_true_iff in H as [H1 H2].
    apply str_eqb_eq in H1. apply IH in H2. congruence.
  - inversion H; subst. rewrite str_eqb_refl. simpl. now apply IH.
Qed.

Lemma path_eqb_refl (p : Path) : path_eqb p p = true.
Proof. now apply path_eqb_eq. Qed.

Lemma path_eqb_neq (p q : Path) : path_eqb p q = false <-> p <> q.
Proof.
  split.
  - intros H E. apply path_eqb_eq in E. congruence.
  - intro H. destruct (path_eqb p q) eqn:E; [|reflexivity].
    apply path_eqb_eq in E. contradiction.
Qed.

Lemma mem_char_In (c : ascii) (chars : str) : mem_char c chars = true <-> In c chars.
Proof.
  unfold mem_char. rewrite existsb_exists. split.
  - intros [d [Hd E]]. apply ascii_eqb_eq in E. now subst.
  - intro H. exists c. split; [assumption | apply ascii_eqb_refl].
Qed.

(** ** The matcher against the languages of the patterns *)

#[local] Hint Constructors Matches : core.

Lemma Matches_nil_nullable r x : Matches r x -> x = [] -> nullable r = true.
Proof.
  induction 1; intro E; simpl; try reflexivity; try discriminate.
  - apply app_eq_nil in E as [E1 E2]. now rewrite IHMatches1, IHMatches2.
  - now rewrite IHMatches.
  - rewrite IHMatches by assumption. apply orb_true_r.
Qed.

Lemma Matches_first r x : Matches r x -> forall c x', x = c :: x' -> first r c = true.
Proof.
  induction 1; intros c0 x' E; simpl; try discriminate.
  - now inversion E; subst.
  - destruct x as [|d x].
    + simpl in E. rewrite (Matches_nil_nullable H eq_refl).
      rewrite (IHMatches2 _ _ E). apply orb_true_r.
    + simpl in E. inversion E; subst. now rewrite (IHMatches1 _ _ eq_refl).
  - now rewrite (IHMatches _ _ E).
  - rewrite (IHMatches _ _ E). apply orb_true_r.
  - destruct x as [|d x].
    + simpl in E. now apply (IHMatches2 _ _ E).
    + simpl in E. inversion E; subst. now apply (IHMatches1 _ _ eq_refl).
Qed.

Section MatcherFacts.
Variable R : Type.
Implicit Types (k : str -> option R) (x : str).

Lemma star_loop_sound a step k n x v :
  sound_step a step ->
  star_loop step k n x = Some v ->
  exists x1 x2, x = x1 ++ x2 /\ Matches (Star a) x1 /\ k x2 = Some v.
Proof.
  intro Hs. revert x v. induction n as [|n IH]; intros x v H; simpl in H.
  - exists [], x. auto.
  - destruct (step x _) as [r|] eqn:E.
    + inversion H; subst r. apply Hs in E as (x1 & x2 & -> & Hm & Hk).
      destruct (length x2 <? length (x1 ++ x2)); [|discriminate].
      apply IH in Hk as (y1 & y2 & -> & Hm' & Hk).
      exists (x1 ++ y1), y2. rewrite app_assoc. auto.
    + exists [], x. auto.
Qed.

(** Soundness: a successful match splits the input into a word of the
    language and a rest the continuation accepts. *)
Lemma rmatch_sound r : sound_step r (rmatch (R:=R) r).
Proof.
  induction r as [|p|a IHa b IHb|a IHa b IHb|a IHa]; intros x k v H; simpl in H.
  - exists [], x. auto.
  - destruct x as [|c x]; [discriminate|].
    destruct (p c) eqn:E; [|discriminate].
    exists [c], x. auto.
  - apply IHa in H as (x1 & x2 & -> & Hm1 & H).
    apply IHb in H as (y1 & y2 & -> & Hm2 & H).
    exists (x1 ++ y1), y2. rewrite app_assoc. auto.
  - destruct (rmatch a x k) as [r|] eqn:E.
    + inversion H; subst r. apply IHa in E as (x1 & x2 & -> & Hm & Hk).
      exists x1, x2. auto.
    + apply IHb in H as (x1 & x2 & -> & Hm & Hk). exists x1, x2. auto.
  - eapply star_loop_sound; eauto.
Qed.

Lemma star_loop_total step k n x : total_k k -> star_loop step k n x <> None.
Proof.
  intros Hk. destruct n; simpl; [apply Hk|].
  destruct (step x _); [discriminate | apply Hk].
Qed.

Lemma rmatch_nullable_total r :
  nullable r = true -> forall k x, total_k k -> rmatch r x k <> None.
Proof.
  induction r as [|p|a IHa b IHb|a IHa b IHb|a IHa]; simpl; intros Hn k x Hk.
  - apply Hk.
  - discriminate.
  - apply andb_true_iff in Hn as [Ha Hb].
    apply IHa; [assumption|]. intro y. now apply IHb.
  - destruct (rmatch a x k) eqn:E; [discriminate|].
    destruct (nullable a); [now apply IHa in E | now apply IHb].
  - now apply star_loop_total.
Qed.

Lemma star_loop_chr p k n x :
  length x <= n -> star_loop (rmatch (Chr p)) k n x = star_chr p k x.
Proof.
  revert x. induction n as [|n IH]; intros x Hn.
  - destruct x; [reflexivity | simpl in Hn; lia].
  - destruct x as [|c x]; [reflexivity|].
    simpl star_loop. simpl rmatch. simpl star_chr.
    destruct (p c); [|reflexivity].
    replace (length x <? S (length x)) with true
      by (symmetry; apply Nat.ltb_lt; lia).
    rewrite IH by (simpl in Hn; lia). reflexivity.
Qed.

Lemma rmatch_star_chr p k x : rmatch (Star (Chr p)) x k = star_chr p k x.
Proof. simpl. now apply star_loop_chr. Qed.

(** The equations of the matcher. *)
Lemma rmatch_Seq a b x k :
  rmatch (Seq a b) x k = rmatch a x (fun x' => rmatch b x' k).
Proof. reflexivity. Qed.

Lemma rmatch_Alt a b x k :
  rmatch (Alt a b) x k =
  match rmatch a x k with Some r => Some r | None => rmatch b x k end.
Proof. reflexivity. Qed.

Lemma rmatch_Eps x k : rmatch Eps x k = k x.
Proof. reflexivity. Qed.

Lemma rmatch_Chr_cons p c x k :
  rmatch (Chr p) (c :: x) k = if p c then k x else None.
Proof. reflexivity. Qed.

Lemma rmatch_Chr_nil p k : rmatch (Chr p) [] k = None.
Proof. reflexivity. Qed.
End MatcherFacts.

(** ** Facts about single characters, checked on all 256 of them *)

Ltac all_chars c := destruct c as [[] [] [] [] [] [] [] []]; vm_compute; try reflexivity; try discriminate; auto.

Lemma lower_not_upper c : is_upper (char_lower c) = false.
Proof. all_chars c. Qed.

Lemma lower_alnum c : is_alnum (char_lower c) = is_alnum c.
Proof. all_chars c. Qed.

Lemma not_upper_alnum c :
  is_upper c = false -> is_lower c || is_digit c = is_alnum c.
Proof. all_chars c. Qed.

Lemma alnum_not_hyphen c : is_alnum c = true -> ascii_eqb c "-" = false.
Proof. all_chars c. Qed.

Lemma edge_is_alnum c : cls_name_edge c = is_alnum c.
Proof. all_chars c. Qed.

Lemma inner_is_alnum_or_punct c :
  cls_name_inner c = is_alnum c || mem_char c (s "._-").
Proof. all_chars c. Qed.

Lemma digit_is_alnum c : is_digit c = true -> is_alnum c = true.
Proof. unfold is_alnum. now intros ->. Qed.

(** ** [make_app_name] *)

Lemma drop_while_length p x : length (drop_while p x) + run_length p x = length x.
Proof.
  induction x as [|c x IH]; simpl; [reflexivity|].
  destruct (p c); simpl; lia.
Qed.

Lemma star_chr_greedy (R : Type) p (k : str -> option R) x :
  total_k k -> star_chr p k x = k (drop_while p x).
Proof.
  intro Hk. induction x as [|c x IH]; simpl; [reflexivity|].
  destruct (p c); [|reflexivity].
  rewrite IH. destruct (k (drop_while p x)) eqn:E; [reflexivity|].
  now apply Hk in E.
Qed.

(** The match of [[class]+] at the start of a string is its longest run of
    characters of the class. *)
Lemma match_len_plus_chr p x :
  match_len (Plus (Chr p)) x =
  match x with
  | c :: x' => if p c then Some (S (run_length p x')) else None
  | [] => None
  end.
Proof.
  unfold match_len, Plus. destruct x as [|c x]; [reflexivity|].
  rewrite rmatch_Seq, rmatch_Chr_cons. destruct (p c); [|reflexivity].
  rewrite rmatch_star_chr, star_chr_greedy by (intro; discriminate).
  f_equal. pose proof (drop_while_length p x). cbn [length]. lia.
Qed.

Lemma re_sub_collapse x :
  Forall (fun c => is_upper c = false) x ->
  sub_from non_alnum_run_re (s "-") 0 x = collapse_runs false x /\
  sub_from non_alnum_run_re (s "-") (run_length not_lower_digit x) x = collapse_runs true x.
Proof.
  induction 1 as [|c x Hc Hx [IHa IHb]]; [split; reflexivity|].
  assert (A : sub_from non_alnum_run_re (s "-") 0 (c :: x) = collapse_runs false (c :: x)).
  { cbn [sub_from]. unfold non_alnum_run_re at 1.
    rewrite match_len_plus_chr.
    unfold not_lower_digit at 1. rewrite (not_upper_alnum _ Hc).
    cbn [collapse_runs]. destruct (is_alnum c); simpl negb; cbv iota.
    - now rewrite IHa.
    - now rewrite IHb. }
  split; [exact A|].
  cbn [run_length]. unfold not_lower_digit at 1. rewrite (not_upper_alnum _ Hc).
  destruct (is_alnum c) eqn:E; simpl negb; cbv iota.
  - rewrite A. cbn [collapse_runs]. now rewrite E.
  - cbn [sub_from collapse_runs]. now rewrite E, IHb.
Qed.

Lemma lower_no_upper raw : Forall (fun c => is_upper c = false) (lower raw).
Proof.
  unfold lower. induction raw; simpl; constructor; auto using lower_not_upper.
Qed.

Lemma make_app_name_eq raw label :
  make_app_name raw label =
  if nonempty (spec_app_name raw) then Ok (spec_app_name raw)
  else Raise (ValueError (label ++ s " contains no alphanumeric characters")).
Proof.
  unfold make_app_name, spec_app_name, re_sub.
  destruct (re_sub_collapse (lower_no_upper raw)) as [-> _].
  now destruct (nonempty _).
Qed.

(** [strip] by recursion from the left. *)
Lemma lstrip_snoc chars x c :
  lstrip chars (x ++ [c]) =
  match lstrip chars x with
  | [] => if mem_char c chars then [] else [c]
  | y => y ++ [c]
  end.
Proof.
  induction x as [|d x IH]; simpl; [reflexivity|].
  destruct (mem_char d chars); [exact IH | reflexivity].
Qed.

Lemma rstrip_cons chars c x :
  rstrip chars (c :: x) =
  match rstrip chars x with
  | [] => if mem_char c chars then [] else [c]
  | y => c :: y
  end.
Proof.
  unfold rstrip. simpl rev. rewrite lstrip_snoc.
  destruct (lstrip chars (rev x)) as [|d y] eqn:E.
  - now destruct (mem_char c chars).
  - simpl rev. rewrite rev_app_distr. simpl.
    destruct (rev y ++ [d]) eqn:E'; [now destruct (rev y) | reflexivity].
Qed.

Lemma rstrip_nil chars : rstrip chars [] = [].
Proof. reflexivity. Qed.

Lemma In_lstrip chars c x : In c x -> mem_char c chars = false -> In c (lstrip chars x).
Proof.
  intros Hin Hc. induction x as [|d x IH]; [contradiction|].
  simpl. destruct (mem_char d chars) eqn:E; [|assumption].
  destruct Hin as [->|Hin]; [congruence | auto].
Qed.

Lemma In_rstrip chars c x : In c x -> mem_char c chars = false -> In c (rstrip chars x).
Proof.
  intros Hin Hc. unfold rstrip. apply in_rev. rewrite rev_involutive.
  apply In_lstrip; [now apply in_rev in Hin | assumption].
Qed.

Lemma In_strip chars c x : In c x -> mem_char c chars = false -> In c (strip chars x).
Proof. intros. unfold strip. auto using In_rstrip, In_lstrip. Qed.

Lemma lstrip_all chars x :
  Forall (fun c => mem_char c chars = true) x -> lstrip chars x = [].
Proof. induction 1 as [|c x Hc _ IH]; simpl; [reflexivity | now rewrite Hc]. Qed.

Lemma strip_all chars x :
  Forall (fun c => mem_char c chars = true) x -> strip chars x = [].
Proof. intro H. unfold strip. now rewrite lstrip_all. Qed.

Lemma collapse_no_alnum b x :
  Forall (fun c => is_alnum c = false) x ->
  Forall (fun c => mem_char c (s "-") = true) (collapse_runs b x).
Proof.
  intro H. revert b. induction H as [|c x Hc _ IH]; intro b; simpl; [constructor|].
  rewrite Hc. destruct b; [apply IH | constructor; [reflexivity | apply IH]].
Qed.

Lemma collapse_keeps_alnum b x c :
  In c x -> is_alnum c = true -> In c (collapse_runs b x).
Proof.
  intros Hin Hc. revert b. induction x as [|d x IH]; intro b; [contradiction|].
  simpl. destruct Hin as [->|Hin].
  - rewrite Hc. now left.
  - destruct (is_alnum d); [right; auto|].
    destruct b; [auto | right; auto].
Qed.

Lemma spec_app_name_empty_iff raw :
  spec_app_name raw = [] <-> Forall (fun c => is_alnum c = false) raw.
Proof.
  unfold spec_app_name. split.
  - intro E. apply Forall_forall. intros c Hin.
    destruct (is_alnum c) eqn:Hc; [exfalso | reflexivity].
    assert (Hl : In (char_lower c) (lower raw)) by (unfold lower; now apply in_map).
    assert (Ha : is_alnum (char_lower c) = true) by now rewrite lower_alnum.
    pose proof (collapse_keeps_alnum false _ _ Hl Ha) as Hin'.
    apply (In_strip (s "-")) in Hin'.
    + rewrite E in Hin'. contradiction.
    + simpl. now rewrite (alnum_not_hyphen _ Ha).
  - intro H. apply strip_all, collapse_no_alnum.
    unfold lower. apply Forall_forall. intros c Hin.
    apply in_map_iff in Hin as [d [<- Hd]]. rewrite lower_alnum.
    rewrite Forall_forall in H. auto.
Qed.

(** C9.  For every string [raw], [make_app_name raw label] returns [raw]
    lowercased, with every maximal run of non-alphanumeric characters
    replaced by one hyphen and the hyphens at both ends stripped
    ([spec_app_name]); it raises [ValueError] with a message that starts with
    [label] exactly when that text is empty, which is when [raw] has no
    alphanumeric character.  [make_app_name "My App!!2024"] is
    ["my-app-2024"], and [make_app_name "???"] fails. *)
Theorem make_app_name_spec (raw label : str) :
  make_app_name raw label =
    (if nonempty (spec_app_name raw) then Ok (spec_app_name raw)
     else Raise (ValueError (label ++ s " contains no alphanumeric characters"))) /\
  (nonempty (spec_app_name raw) = false <-> Forall (fun c => is_alnum c = false) raw) /\
  make_app_name (s "My App!!2024") label = Ok (s "my-app-2024") /\
  make_app_name (s "???") label =
    Raise (ValueError (label ++ s " contains no alphanumeric characters")).
Proof.
  split; [|split; [|split]].
  - apply make_app_name_eq.
  - rewrite <- spec_app_name_empty_iff.
    destruct (spec_app_name raw); simpl; split; congruence.
  - rewrite make_app_name_eq. reflexivity.
  - rewrite make_app_name_eq. reflexivity.
Qed.

(** ** Package-name tokens *)

Lemma collapse_tok x :
  Forall (fun c => is_upper c = false) x ->
  tok true false (collapse_runs false x) = true /\
  tok true true (collapse_runs true x) = true.
Proof.
  induction 1 as [|c x Hc _ [IHa IHb]]; [split; reflexivity|].
  simpl collapse_runs. destruct (is_alnum c) eqn:E.
  - simpl tok. rewrite (alnum_not_hyphen _ E).
    unfold lower_digit. rewrite (not_upper_alnum _ Hc), E, IHa. now split.
  - simpl tok. rewrite IHb. now split.
Qed.

Lemma mem_hyphen c : mem_char c (s "-") = ascii_eqb c "-".
Proof. simpl. apply orb_false_r. Qed.

Lemma lstrip_tok b z : tok true b z = true -> tok true true (lstrip (s "-") z) = true.
Proof.
  revert b. induction z as [|c z IH]; intros b H; [reflexivity|].
  cbn [lstrip]. rewrite mem_hyphen. cbn [tok] in H.
  destruct (ascii_eqb c "-") eqn:E.
  - apply andb_true_iff in H as [_ H]. now apply IH in H.
  - cbn [tok]. now rewrite E.
Qed.

Lemma rstrip_tok b z :
  tok true b z = true ->
  rstrip (s "-") z = [] \/ tok false b (rstrip (s "-") z) = true.
Proof.
  revert b. induction z as [|c z IH]; intros b H; [now left|].
  rewrite rstrip_cons, mem_hyphen. cbn [tok] in H.
  destruct (ascii_eqb c "-") eqn:E.
  - apply andb_true_iff in H as [Hb H]. apply IH in H as [->|H]; [now left|].
    destruct (rstrip (s "-") z) eqn:Er; [now left|].
    right. cbn [tok]. now rewrite E, Hb.
  - apply andb_true_iff in H as [Hc H]. right. apply IH in H as [->|H].
    + cbn [tok]. now rewrite E, Hc.
    + destruct (rstrip (s "-") z) eqn:Er; cbn [tok]; rewrite E, Hc; [reflexivity|].
      exact H.
Qed.

Lemma spec_app_name_tok raw :
  spec_app_name raw <> [] -> tok false true (spec_app_name raw) = true.
Proof.
  unfold spec_app_name, strip. intro Hne.
  destruct (collapse_tok (lower_no_upper raw)) as [H _].
  apply lstrip_tok in H. apply rstrip_tok in H as [H|H]; [contradiction | exact H].
Qed.

Lemma join_cons_char sep c seg segs :
  join sep ((c :: seg) :: segs) = c :: join sep (seg :: segs).
Proof. now destruct segs. Qed.

Lemma tok_segments prev x :
  tok false prev x = true ->
  exists seg segs,
    x = join (s "-") (seg :: segs) /\
    Forall (fun c => lower_digit c = true) seg /\
    (prev = true -> seg <> []) /\
    Forall (fun seg => seg <> [] /\ Forall (fun c => lower_digit c = true) seg) segs.
Proof.
  revert prev. induction x as [|c x IH]; intros prev H; cbn [tok] in H.
  - exists [], []. repeat split; auto. intros ->. discriminate.
  - destruct (ascii_eqb c "-") eqn:E.
    + apply ascii_eqb_eq in E. subst c.
      apply andb_true_iff in H as [Hp H].
      apply IH in H as (seg & segs & -> & Hseg & Hne & Hsegs).
      exists [], (seg :: segs). repeat split; auto.
      intros ->. discriminate.
    + apply andb_true_iff in H as [Hc H].
      apply IH in H as (seg & segs & -> & Hseg & _ & Hsegs).
      exists (c :: seg), segs. rewrite join_cons_char. repeat split; auto.
      intros _. discriminate.
Qed.

Lemma tok_is_token x : tok false true x = true -> is_token x.
Proof.
  intro H. apply tok_segments in H as (seg & segs & -> & Hseg & Hne & Hsegs).
  exists (seg :: segs). repeat split; auto. discriminate.
Qed.


Lemma make_app_name_token raw label app :
  make_app_name raw label = Ok app -> is_token app.
Proof.
  rewrite make_app_name_eq. destruct (nonempty (spec_app_name raw)) eqn:E; [|discriminate].
  intro H. inversion H; subst app. apply tok_is_token, spec_app_name_tok.
  intro E'. now rewrite E' in E.
Qed.

(** ** [get_bundle_app_name] *)

Lemma rsplit1_none sep x : mem_char sep x = false -> rsplit1 sep x = None.
Proof.
  induction x as [|c x IH]; simpl; [reflexivity|].
  intro H. apply orb_false_iff in H as [H1 H2]. rewrite (IH H2).
  destruct (ascii_eqb c sep) eqn:E; [|reflexivity].
  apply ascii_eqb_eq in E. subst. now rewrite ascii_eqb_refl in H1.
Qed.

(** [rsplit1] cuts at the last separator. *)
Lemma rsplit1_some sep x :
  mem_char sep x = true ->
  exists a b, rsplit1 sep x = Some (a, b) /\ x = a ++ sep :: b /\ mem_char sep b = false.
Proof.
  induction x as [|c x IH]; simpl; [discriminate|].
  intro H. destruct (mem_char sep x) eqn:Hx.
  - destruct (IH eq_refl) as (a & b & -> & -> & Hb).
    exists (c :: a), b. auto.
  - rewrite orb_false_r in H. rewrite (rsplit1_none _ _ Hx).
    destruct (ascii_eqb c sep) eqn:E.
    + apply ascii_eqb_eq in E. subst c. exists [], x. auto.
    + apply ascii_eqb_eq in H. subst. now rewrite ascii_eqb_refl in E.
Qed.

Lemma star_inner_then_edge x :
  star_chr cls_name_inner (fun x' => rmatch (Chr cls_name_edge) x' at_end) x =
  if ends_alnum x then Some tt else None.
Proof.
  induction x as [|c x IH]; [reflexivity|].
  cbn [star_chr]. rewrite IH, rmatch_Chr_cons, edge_is_alnum, inner_is_alnum_or_punct.
  fold (name_inner c). destruct x as [|d x].
  - simpl. now destruct (name_inner c), (is_alnum c).
  - change (ends_alnum (c :: d :: x)) with (name_inner c && ends_alnum (d :: x)).
    cbn [at_end].
    now destruct (name_inner c), (ends_alnum (d :: x)), (is_alnum c).
Qed.

(** The matcher accepts exactly the valid names. *)
Lemma fullmatch_app_name x : fullmatch app_name_re x = valid_app_name x.
Proof.
  unfold fullmatch, app_name_re. fold at_end.
  rewrite rmatch_Alt, rmatch_Seq. destruct x as [|c x]; [reflexivity|].
  rewrite !rmatch_Chr_cons, edge_is_alnum.
  destruct (is_alnum c) eqn:Ea; [|destruct x; simpl; now rewrite Ea].
  rewrite rmatch_Seq, rmatch_star_chr, star_inner_then_edge.
  destruct x as [|d x]; [simpl; now rewrite Ea|].
  change (valid_app_name (c :: d :: x)) with (is_alnum c && ends_alnum (d :: x)).
  rewrite Ea. cbn [at_end andb]. now destruct (ends_alnum (d :: x)).
Qed.

Lemma fullmatch_Matches r x : fullmatch r x = true -> Matches r x.
Proof.
  unfold fullmatch. destruct (rmatch r x _) eqn:E; [|discriminate]. intros _.
  apply rmatch_sound in E as (x1 & x2 & -> & Hm & Hk).
  destruct x2; [|discriminate]. now rewrite app_nil_r.
Qed.

(** What C4 says, on texts of code points below U+0100 (the values of
    [str]): there the code does it.  When [reverse_domain_identifier] is
    absent, the result is the
    default bundle paired with [make_app_name] of the given name.  When it is
    a string without a dot, [ValueError] is raised.  When it is a string with
    a dot, it is cut at its last dot into [bundle] and [app_name]; a valid
    [app_name] is kept as it is, any other is replaced by [make_app_name] of
    it.  ["com.example.MyApp"] gives [("com.example", "MyApp")], and the last
    segment of ["com.example.my app!"] is sanitised to ["my-app"]. *)
Theorem get_bundle_app_name_spec (default : str) (info : dict) (name : str) :
  (get info rdi_key = VNone ->
   get_bundle_app_name default info name =
     (app_name <- make_app_name name (s "Name " ++ repr_str name) ;;
      Ok (default, app_name))) /\
  (forall rdi,
     get info rdi_key = VStr rdi -> mem_char "." rdi = false ->
     exists msg, get_bundle_app_name default info name = Raise (ValueError msg)) /\
  (forall rdi,
     get info rdi_key = VStr rdi -> mem_char "." rdi = true ->
     exists bundle app_name,
       rdi = bundle ++ s "." ++ app_name /\
       mem_char "." app_name = false /\
       get_bundle_app_name default info name =
         if valid_app_name app_name then Ok (bundle, app_name)
         else (app_name' <- make_app_name app_name (rdi_label rdi) ;;
               Ok (bundle, app_name'))) /\
  get_bundle_app_name default example_rdi (s "x") = Ok (s "com.example", s "MyApp") /\
  get_bundle_app_name default [(rdi_key, VStr (s "com.example.my app!"))] (s "x")
    = Ok (s "com.example", s "my-app").
Proof.
  unfold get_bundle_app_name. fold rdi_key. repeat apply conj.
  - now intros ->.
  - intros rdi -> H. rewrite H. simpl. eauto.
  - intros rdi -> H. rewrite H. simpl negb. cbv iota.
    destruct (rsplit1_some _ _ H) as (a & b & E & -> & Hb).
    exists a, b. unfold rsplit_once. rewrite E, fullmatch_app_name.
    repeat split; [assumption|]. now destruct (valid_app_name b).
  - reflexivity.
  - reflexivity.
Qed.

Lemma lower_digit_alnum c : lower_digit c = true -> is_alnum c = true.
Proof. all_chars c. Qed.

Lemma tok_ends_alnum b x : tok false b x = true -> x <> [] -> ends_alnum x = true.
Proof.
  revert b. induction x as [|c x IH]; intros b H Hne; [contradiction|].
  cbn [tok] in H. destruct x as [|d x].
  - simpl in *. destruct (ascii_eqb c "-").
    + rewrite andb_false_r in H. discriminate.
    + rewrite andb_true_r in H. now apply lower_digit_alnum.
  - change (ends_alnum (c :: d :: x)) with (name_inner c && ends_alnum (d :: x)).
    destruct (ascii_eqb c "-") eqn:E.
    + apply ascii_eqb_eq in E. subst c. apply andb_true_iff in H as [_ H].
      rewrite (IH _ H) by discriminate. reflexivity.
    + apply andb_true_iff in H as [Hc H].
      rewrite (IH _ H) by discriminate. unfold name_inner.
      now rewrite (lower_digit_alnum _ Hc).
Qed.

Lemma tok_valid x : tok false true x = true -> valid_app_name x = true.
Proof.
  destruct x as [|c x]; [discriminate|]. cbn [tok].
  destruct (ascii_eqb c "-"); [discriminate|]. intro H.
  apply andb_true_iff in H as [Hc H]. apply lower_digit_alnum in Hc.
  destruct x as [|d x]; [exact Hc|].
  change (valid_app_name (c :: d :: x)) with (is_alnum c && ends_alnum (d :: x)).
  rewrite Hc. apply (tok_ends_alnum _ H). discriminate.
Qed.

Lemma make_app_name_tok raw label app :
  make_app_name raw label = Ok app -> tok false true app = true.
Proof.
  rewrite make_app_name_eq. destruct (nonempty (spec_app_name raw)) eqn:E; [|discriminate].
  intro H. inversion H; subst app. apply spec_app_name_tok.
  intro E'. now rewrite E' in E.
Qed.





(** ** [get_name_version] *)

Lemma match_len_sound r x n :
  match_len r x = Some n -> n <= length x /\ Matches r (firstn n x).
Proof.
  unfold match_len. intro H.
  apply rmatch_sound in H as (x1 & x2 & -> & Hm & Hk).
  inversion Hk; subst n. rewrite length_app.
  replace (length x1 + length x2 - length x2) with (length x1 + 0) by lia.
  rewrite firstn_app_2. simpl. rewrite app_nil_r. split; [lia | assumption].
Qed.

Lemma version_re_not_nullable : nullable version_re = false.
Proof. reflexivity. Qed.

Lemma version_re_first c : first version_re c = is_digit c.
Proof. simpl. now destruct (is_digit c). Qed.

(** A version begins with a digit. *)
Lemma version_starts_with_digit m :
  Matches version_re m -> exists c m', m = c :: m' /\ is_digit c = true.
Proof.
  intro H. destruct m as [|c m].
  - apply Matches_nil_nullable in H; [discriminate | reflexivity].
  - exists c, m. split; [reflexivity|].
    rewrite <- version_re_first. eapply Matches_first; eauto.
Qed.

Lemma rmatch_plus_digit_total (R : Type) (k : str -> option R) c x :
  is_digit c = true -> total_k k -> rmatch digits1 (c :: x) k <> None.
Proof.
  intros Hc Hk. unfold digits1, Plus.
  rewrite rmatch_Seq, rmatch_Chr_cons, Hc.
  now apply rmatch_nullable_total.
Qed.

(** At a digit the pattern always matches. *)
Lemma version_re_matches_at_digit c x :
  is_digit c = true -> match_len version_re (c :: x) <> None.
Proof.
  intro Hc. unfold match_len, version_re.
  rewrite rmatch_Seq. unfold Opt at 1. rewrite rmatch_Alt.
  destruct (rmatch (Seq digits1 (Lit (s "!"))) _ _); [discriminate|].
  rewrite rmatch_Eps, rmatch_Seq.
  apply rmatch_plus_digit_total; [assumption|].
  intro y. apply rmatch_nullable_total; [reflexivity|]. intro; discriminate.
Qed.

Lemma version_re_match_positive x n : match_len version_re x = Some n -> 0 < n.
Proof.
  intro H. apply match_len_sound in H as [_ H].
  apply version_starts_with_digit in H as (c & m & E & _).
  destruct n; [discriminate | lia].
Qed.

(** The spans of [finditer] lie in the scanned text, in order, and hold
    words of the language. *)
Lemma finditer_from_spans r x : forall pos skip a b,
  In (a, b) (finditer_from r pos skip x) ->
  pos + skip <= a /\ a <= b /\ b <= pos + length x /\
  Matches r (firstn (b - a) (skipn (a - pos) x)).
Proof.
  induction x as [|c x IH]; intros pos skip a b Hin; cbn [finditer_from] in Hin.
  - destruct skip; [|contradiction].
    destruct (match_len r []) as [n|] eqn:E; [|contradiction].
    destruct Hin as [Hin|[]]. inversion Hin; subst a b.
    apply match_len_sound in E as [Hn Hm]. simpl in Hn.
    assert (n = 0) by lia. subst n.
    replace (pos - pos) with 0 by lia. simpl in *. repeat split; try lia. exact Hm.
  - destruct skip as [|k].
    + destruct (match_len r (c :: x)) as [n|] eqn:E.
      * destruct Hin as [Hin|Hin].
        -- inversion Hin; subst a b. apply match_len_sound in E as [Hn Hm].
           replace (pos + n - pos) with n by lia. replace (pos - pos) with 0 by lia.
           simpl in Hn. simpl length. repeat split; try lia. exact Hm.
        -- apply IH in Hin as (H1 & H2 & H3 & H4).
           replace (a - pos) with (S (a - S pos)) by lia.
           simpl length. repeat split; try lia. exact H4.
      * apply IH in Hin as (H1 & H2 & H3 & H4).
        replace (a - pos) with (S (a - S pos)) by lia.
        simpl length. repeat split; try lia. exact H4.
    + apply IH in Hin as (H1 & H2 & H3 & H4).
      replace (a - pos) with (S (a - S pos)) by lia.
      simpl length. repeat split; try lia. exact H4.
Qed.

Lemma last_end_cons p l d : last_end (p :: l) d = last_end l (snd p).
Proof.
  unfold last_end. simpl rev. destruct (rev l) as [|[a b] t]; simpl.
  - now destruct p.
  - reflexivity.
Qed.

Lemma last_end_ge r x pos skip :
  pos + skip <= last_end (finditer_from r pos skip x) (pos + skip).
Proof.
  unfold last_end. destruct (rev _) as [|[a b] t] eqn:E; [lia|].
  assert (Hin : In (a, b) (finditer_from r pos skip x)).
  { apply in_rev. rewrite E. now left. }
  apply finditer_from_spans in Hin. lia.
Qed.

(** Behind the last match of the version pattern there is no digit, so
    nothing that could start another match. *)
Lemma finditer_from_last x : forall pos skip,
  skip <= length x ->
  no_digit (skipn (last_end (finditer_from version_re pos skip x) (pos + skip) - pos) x).
Proof.
  induction x as [|c x IH]; intros pos skip Hs.
  - rewrite skipn_nil. constructor.
  - cbn [finditer_from]. destruct skip as [|k].
    + destruct (match_len version_re (c :: x)) as [n|] eqn:E.
      * rewrite last_end_cons. cbn [snd].
        pose proof (version_re_match_positive _ E) as Hn.
        destruct (match_len_sound _ _ E) as [Hl _]. simpl in Hl.
        replace (pos + n) with (S pos + (n - 1)) by lia.
        pose proof (last_end_ge version_re x (S pos) (n - 1)) as Hge.
        set (e := last_end _ _) in *.
        replace (e - pos) with (S (e - S pos)) by lia.
        cbn [skipn]. apply IH. lia.
      * assert (Hc : is_digit c = false).
        { destruct (is_digit c) eqn:Hc; [|reflexivity].
          now apply (version_re_matches_at_digit c x) in Hc. }
        specialize (IH (S pos) 0 (Nat.le_0_l _)).
        unfold last_end in *. destruct (rev _) as [|[a b] t] eqn:Er.
        -- replace (pos + 0 - pos) with 0 by lia.
           replace (S pos + 0 - S pos) with 0 in IH by lia.
           constructor; assumption.
        -- assert (Hin : In (a, b) (finditer_from version_re (S pos) 0 x)).
           { apply in_rev. rewrite Er. now left. }
           apply finditer_from_spans in Hin.
           replace (b - pos) with (S (b - S pos)) by lia. exact IH.
    + replace (pos + S k) with (S pos + k) by lia.
      pose proof (last_end_ge version_re x (S pos) k) as Hge.
      set (e := last_end _ _) in *.
      replace (e - pos) with (S (e - S pos)) by lia.
      cbn [skipn]. apply IH. simpl in Hs. lia.
Qed.

Lemma version_subject_length v : length (version_subject v) = length v.
Proof. unfold version_subject, replace_char, lower. now rewrite !length_map. Qed.

Lemma finditer_nil_no_digit x : finditer version_re x = [] -> no_digit x.
Proof.
  intro E. pose proof (@finditer_from_last x 0 0 (Nat.le_0_l _)) as H.
  fold (finditer version_re x) in H. rewrite E in H. exact H.
Qed.

Lemma contains_version_digit x : contains_version x -> ~ no_digit x.
Proof.
  intros (pre & m & post & -> & Hm) Hn.
  apply version_starts_with_digit in Hm as (c & m' & -> & Hc).
  unfold no_digit in Hn. rewrite Forall_forall in Hn.
  rewrite (Hn c) in Hc; [discriminate|].
  apply in_or_app. right. now left.
Qed.

Lemma slice_decompose (x : str) a b :
  a <= b -> b <= length x ->
  x = firstn a x ++ slice x a b ++ skipn b x.
Proof.
  intros Hab Hb. unfold slice.
  rewrite <- (firstn_skipn a x) at 1. f_equal.
  rewrite <- (firstn_skipn (b - a) (skipn a x)) at 1. f_equal.
  rewrite skipn_skipn. f_equal. lia.
Qed.

Lemma finditer_last_span x l start stop :
  rev (finditer version_re x) = (start, stop) :: l ->
  last (finditer version_re x) (0, 0) = (start, stop) /\
  start < stop /\ stop <= length x /\
  Matches version_re (slice x start stop) /\
  no_digit (skipn stop x).
Proof.
  intro E.
  assert (El : finditer version_re x = rev l ++ [(start, stop)]).
  { rewrite <- (rev_involutive (finditer version_re x)), E. reflexivity. }
  assert (Hin : In (start, stop) (finditer_from version_re 0 0 x)).
  { fold (finditer version_re x). rewrite El. apply in_or_app. right. now left. }
  apply finditer_from_spans in Hin as (_ & H2 & H3 & H4).
  rewrite Nat.sub_0_r in H4. fold (slice x start stop) in H4.
  split; [rewrite El; apply last_last|].
  split.
  - destruct (version_starts_with_digit H4) as (c & m & Em & _).
    unfold slice in Em. destruct (stop - start) eqn:Ed; [discriminate | lia].
  - repeat split; [lia | exact H4 |].
    pose proof (@finditer_from_last x 0 0 (Nat.le_0_l _)) as H.
    fold (finditer version_re x) in H. unfold last_end in H. rewrite E in H.
    now rewrite Nat.sub_0_r in H.
Qed.




Lemma no_version_finditer_nil x : ~ contains_version x -> finditer version_re x = [].
Proof.
  intro H. destruct (rev (finditer version_re x)) as [|[start stop] l] eqn:E.
  - rewrite <- (rev_involutive (finditer _ _)), E. reflexivity.
  - exfalso. apply H.
    destruct (finditer_last_span _ E) as (_ & H2 & H3 & H4 & _).
    exists (firstn start x), (slice x start stop), (skipn stop x).
    split; [apply slice_decompose; lia | exact H4].
Qed.

(** C2.  [get_name_version] raises [ValueError] exactly when the name or the
    version is missing or empty (falsy).  When both are non-empty strings it
    returns; if the version contains no version number, it returns
    ["<name> <version>"] with the version ["0.0.1"] and logs one warning. *)
Theorem get_name_version_errors (info : dict) :
  ((exists msg, fst (get_name_version info) = Raise (ValueError msg)) <->
   (truthy (get info name_key) = false \/ truthy (get info version_key) = false)) /\
  (forall n v,
     get info name_key = VStr n -> n <> [] ->
     get info version_key = VStr v -> v <> [] ->
     (exists r, fst (get_name_version info) = Ok r) /\
     (~ contains_version (version_subject v) ->
      get_name_version info =
        (Ok (n ++ s " " ++ v, s "0.0.1"), [no_version_warning v]))).
Proof.
  unfold get_name_version. fold name_key version_key. split.
  - destruct (truthy (get info name_key)) eqn:Tn; simpl negb; cbv iota.
    2:{ split; intros _; [now left | simpl; eauto]. }
    destruct (truthy (get info version_key)) eqn:Tv; simpl negb; cbv iota.
    2:{ split; intros _; [now right | simpl; eauto]. }
    split; [|intros [H|H]; discriminate].
    intros [msg H]. exfalso.
    destruct (get info version_key); try discriminate.
    destruct (rev _) as [|[start stop] l]; [discriminate|].
    destruct (get info name_key); discriminate.
  - intros n v Hn Hne Hv Hve. rewrite Hn, Hv.
    assert (Tn : truthy (VStr n) = true) by now destruct n.
    assert (Tv : truthy (VStr v) = true) by now destruct v.
    rewrite Tn, Tv. simpl negb. cbv iota. fold (version_subject v). split.
    + destruct (rev _) as [|[start stop] l]; simpl; eauto.
    + intro H. now rewrite (no_version_finditer_nil H).
Qed.

Lemma get_name_version_errors_witness :
  get_name_version (info_nv "App" "beta") =
    (Ok (s "App beta", s "0.0.1"), [no_version_warning (s "beta")]) /\
  (exists msg, fst (get_name_version [(name_key, VStr (s "App"))]) = Raise (ValueError msg)).
Proof.
  destruct (get_name_version_errors (info_nv "App" "beta")) as [_ H].
  destruct (H (s "App") (s "beta") eq_refl ltac:(discriminate) eq_refl ltac:(discriminate))
    as [_ H2].
  split.
  - apply H2. intro Hc. apply contains_version_digit in Hc. apply Hc.
    unfold no_digit. vm_compute. repeat constructor.
  - apply (get_name_version_errors [(name_key, VStr (s "App"))]). right. reflexivity.
Defined.

(** ** [create_install_options_list] *)

Lemma find_python_found items r :
  find_python items = Ok r ->
  existsb is_python_dist items = match r with Some _ => true | None => false end.
Proof.
  revert r. induction items as [|v items IH]; intros r H; cbn [find_python] in H.
  - now inversion H.
  - destruct v; try discriminate. cbn [existsb is_python_dist].
    destruct (startswith (s "python-") x) eqn:E.
    + now inversion H.
    + now apply IH.
Qed.

Lemma no_python_in_chars x : existsb is_python_dist (map (fun c => VStr [c]) x) = false.
Proof.
  induction x as [|c x IH]; [reflexivity|].
  cbn [map existsb]. rewrite IH.
  change (is_python_dist (VStr [c])) with (ascii_eqb "p" c && false).
  now rewrite andb_false_r.
Qed.

Lemma python_phase info dists r :
  iterate (get_default info (s "_dists") (VList [])) = Ok dists ->
  find_python dists = Ok r ->
  has_python info = match r with Some _ => true | None => false end.
Proof.
  unfold has_python, iterate. intros Hi Hf.
  destruct (get_default info (s "_dists") (VList [])); try discriminate;
    inversion Hi; subst dists.
  - rewrite <- (find_python_found _ Hf). symmetry. apply no_python_in_chars.
  - now apply find_python_found.
Qed.

Lemma register_options_names info python reg :
  register_options info python = Ok reg ->
  option_names reg =
  if is_some python && truthy (get_default info (s "register_python") (VBool true))
  then [s "register_python"] else [].
Proof.
  unfold register_options. destruct python as [pv|]; [|intro H; now inversion H].
  cbn [is_some andb].
  destruct (truthy (get_default info (s "register_python") (VBool true)));
    [|intro H; now inversion H].
  destruct (lookup info (s "name")); [|discriminate]. intro H. now inversion H.
Qed.

Lemma initialize_options_names info :
  option_names (initialize_options info) =
  if truthy (get_default info (s "initialize_conda") (VStr (s "classic")))
  then [s "initialize_conda"] else [].
Proof. unfold initialize_options. now destruct (truthy _). Qed.

Lemma shortcut_options_names info :
  option_names (shortcut_options info) =
  if shortcuts_enabled info then [s "enable_shortcuts"] else [].
Proof.
  unfold shortcut_options, shortcuts_enabled, get_default.
  destruct (lookup info (s "_enable_shortcuts")) as [[| [] | | |]|]; reflexivity.
Qed.

Lemma names_of_table (n1 n2 n3 n4 n5 n6 : str) (b1 b2 b3 b4 b5 b6 : bool) :
  map fst (filter snd [(n1, b1); (n2, b2); (n3, b3); (n4, b4); (n5, b5); (n6, b6)]) =
  (if b1 then [n1] else []) ++ (if b2 then [n2] else []) ++ (if b3 then [n3] else []) ++
  (if b4 then [n4] else []) ++ (if b5 then [n5] else []) ++ (if b6 then [n6] else []).
Proof. destruct b1, b2, b3, b4, b5, b6; reflexivity. Qed.

Lemma In_names_of_table (l : list (str * bool)) (n : str) :
  In n (map fst (filter snd l)) <-> In (n, true) l.
Proof.
  induction l as [|[m b] l IH]; simpl; [tauto|].
  destruct b; simpl; rewrite IH.
  - split; intros [H|H]; auto; left; congruence.
  - split; [auto | intros [H|H]; [discriminate | assumption]].
Qed.

Section ScriptFacts.
Variable path_of : str -> Path.
Variable fs : FS.

Lemma script_option_names info t l :
  script_option path_of fs info t = Ok l ->
  option_names l =
  if truthy (get_default info (t ++ s "_install_desc") (VStr []))
  then [t ++ s "_install_script"] else [].
Proof.
  unfold script_option.
  destruct (truthy (get_default info (t ++ s "_install_desc") (VStr [])));
    destruct (truthy (get_default info (t ++ s "_install") (VStr [])));
    cbn [andb negb]; try discriminate;
    destruct (check_script _ _ _ _); cbn [bind]; try discriminate;
    intro H; now inversion H.
Qed.

(** What a successful call has computed on the way. *)
Lemma create_ok_parts info opts :
  create_install_options_list path_of fs info = Ok opts ->
  exists reg pre post,
    option_names reg =
      (if has_python info && truthy (get_default info (s "register_python") (VBool true))
       then [s "register_python"] else []) /\
    script_option path_of fs info (s "pre") = Ok pre /\
    script_option path_of fs info (s "post") = Ok post /\
    opts = reg ++ initialize_options info ++ clear_options info ++
           shortcut_options info ++ pre ++ post.
Proof.
  unfold create_install_options_list. intro H.
  destruct (iterate _) as [dists|] eqn:Ei; [|discriminate]. cbn [bind] in H.
  destruct (find_python dists) as [python|] eqn:Ef; [|discriminate]. cbn [bind] in H.
  destruct (register_options info python) as [reg|] eqn:Er; [|discriminate].
  cbn [bind] in H.
  destruct (script_option path_of fs info (s "pre")) as [pre|] eqn:Epre; [|discriminate].
  cbn [bind] in H.
  destruct (script_option path_of fs info (s "post")) as [post|] eqn:Epost; [|discriminate].
  cbn [bind] in H. inversion H; subst opts. clear H.
  exists reg, pre, post. repeat split.
  rewrite (python_phase _ Ei Ef). now apply register_options_names.
Qed.

(** The names of the returned options are the enabled rows of the priority
    table, in the order of the table. *)
Lemma create_names info opts :
  create_install_options_list path_of fs info = Ok opts ->
  option_names opts = map fst (filter snd (priority_table info)).
Proof.
  intro H. apply create_ok_parts in H as (reg & pre & post & Hreg & Hpre & Hpost & ->).
  unfold priority_table. rewrite names_of_table.
  unfold option_names in *. rewrite !map_app, Hreg.
  fold (option_names (initialize_options info)). rewrite initialize_options_names.
  fold (option_names (shortcut_options info)). rewrite shortcut_options_names.
  apply script_option_names in Hpre, Hpost. unfold option_names in Hpre, Hpost.
  rewrite Hpre, Hpost. reflexivity.
Qed.

Lemma create_clear_default info opts o :
  create_install_options_list path_of fs info = Ok opts ->
  In o opts -> opt_name o = s "clear_package_cache" ->
  opt_default o = VBool (negb (truthy (get_default info (s "keep_pkgs") (VBool false)))).
Proof.
  intros H Ho Hname.
  apply create_ok_parts in H as (reg & pre & post & Hreg & Hpre & Hpost & ->).
  apply script_option_names in Hpre, Hpost.
  pose proof (initialize_options_names info) as Hinit.
  pose proof (shortcut_options_names info) as Hsc.
  assert (Hnot : forall l (b : bool) n,
            option_names l = (if b then [n] else []) ->
            n <> s "clear_package_cache" -> In o l -> False).
  { intros l b n Hl Hn Hin. apply (in_map opt_name) in Hin.
    fold (option_names l) in Hin. rewrite Hl, Hname in Hin.
    destruct b; [|contradiction]. destruct Hin as [Hin|[]]. congruence. }
  apply in_app_or in Ho as [Ho|Ho]; [exfalso; apply (Hnot _ _ _ Hreg); [discriminate|exact Ho]|].
  apply in_app_or in Ho as [Ho|Ho]; [exfalso; apply (Hnot _ _ _ Hinit); [discriminate|exact Ho]|].
  apply in_app_or in Ho as [Ho|Ho]; [destruct Ho as [<-|[]]; reflexivity|].
  apply in_app_or in Ho as [Ho|Ho]; [exfalso; apply (Hnot _ _ _ Hsc); [discriminate|exact Ho]|].
  apply in_app_or in Ho as [Ho|Ho]; exfalso.
  - apply (Hnot _ _ _ Hpre); [discriminate | exact Ho].
  - apply (Hnot _ _ _ Hpost); [discriminate | exact Ho].
Qed.

(** The function reads [info] only through lookups. *)
Lemma create_lookup_ext info info' :
  (forall k, lookup info k = lookup info' k) ->
  create_install_options_list path_of fs info = create_install_options_list path_of fs info'.
Proof.
  intro H.
  unfold create_install_options_list, script_option, register_options,
    initialize_options, clear_options, shortcut_options, get_default.
  rewrite !H. reflexivity.
Qed.
End ScriptFacts.

Lemma lookup_In d k v : NoDup (map fst d) -> In (k, v) d -> lookup d k = Some v.
Proof.
  induction d as [|[k' v'] d IH]; intros Hnd Hin; [contradiction|].
  simpl in Hnd. inversion Hnd as [|? ? Hk Hd]; subst. simpl.
  destruct Hin as [Hin|Hin].
  - inversion Hin; subst. now rewrite str_eqb_refl.
  - destruct (str_eqb k' k) eqn:E; [|now apply IH].
    apply str_eqb_eq in E. subst k'. exfalso. apply Hk.
    apply (in_map fst) in Hin. exact Hin.
Qed.

Lemma lookup_None d k : lookup d k = None <-> ~ In k (map fst d).
Proof.
  induction d as [|[k' v'] d IH]; simpl; [tauto|].
  destruct (str_eqb k' k) eqn:E.
  - apply str_eqb_eq in E. subst. split; [discriminate | intro H; exfalso; auto].
  - apply str_eqb_neq in E. rewrite IH. tauto.
Qed.

Lemma lookup_Some_In d k v : lookup d k = Some v -> In (k, v) d.
Proof.
  induction d as [|[k' v'] d IH]; simpl; [discriminate|].
  destruct (str_eqb k' k) eqn:E.
  - apply str_eqb_eq in E. subst. intro H. inversion H. now left.
  - auto.
Qed.

(** A dict read by key does not depend on the order of its items. *)
Lemma lookup_Permutation d d' k :
  NoDup (map fst d) -> Permutation d d' -> lookup d k = lookup d' k.
Proof.
  intros Hnd Hp.
  assert (Hnd' : NoDup (map fst d')).
  { eapply Permutation_NoDup; [|exact Hnd]. now apply Permutation_map. }
  destruct (lookup d k) as [v|] eqn:E.
  - symmetry. apply lookup_In; [assumption|].
    eapply Permutation_in; [exact Hp|]. now apply lookup_Some_In.
  - symmetry. apply lookup_None. apply lookup_None in E. intro Hin. apply E.
    eapply Permutation_in; [|exact Hin]. apply Permutation_map. now symmetry.
Qed.

(** C6.  Whenever [create_install_options_list] returns, the names of the
    options are the rows of the priority table (Python registration, PATH
    initialisation, cache clearing, shortcuts, pre-install script,
    post-install script) whose condition holds, in that order; the
    cache-clearing option is there, with the negation of [keep_pkgs] as its
    default ([True] when [keep_pkgs] is absent); and listing the items of
    [info] in another order gives the same result. *)
Theorem install_options_order (path_of : str -> Path) (fs : FS)
        (info : dict) (opts : list install_option) :
  create_install_options_list path_of fs info = Ok opts ->
  option_names opts = map fst (filter snd (priority_table info)) /\
  In clear_name (option_names opts) /\
  (forall o, In o opts -> opt_name o = clear_name ->
     opt_default o = VBool (negb (truthy (get_default info (s "keep_pkgs") (VBool false)))) /\
     (lookup info (s "keep_pkgs") = None -> opt_default o = VBool true)) /\
  (forall info', NoDup (map fst info) -> Permutation info info' ->
     create_install_options_list path_of fs info' = Ok opts).
Proof.
  intro H. pose proof (create_names _ _ _ H) as Hn. repeat split.
  - exact Hn.
  - rewrite Hn. apply In_names_of_table. unfold priority_table. simpl. tauto.
  - eapply create_clear_default; eauto.
  - intro Hk. erewrite create_clear_default; eauto.
    unfold get_default. now rewrite Hk.
  - intros info' Hnd Hp. rewrite <- H. symmetry. apply create_lookup_ext.
    intro k. now apply lookup_Permutation.
Qed.

Lemma install_options_order_witness :
  option_names example_options = map fst (filter snd (priority_table example_info)) /\
  In clear_name (option_names example_options) /\
  (forall o, In o example_options -> opt_name o = clear_name ->
     opt_default o =
       VBool (negb (truthy (get_default example_info (s "keep_pkgs") (VBool false)))) /\
     (lookup example_info (s "keep_pkgs") = None -> opt_default o = VBool true)) /\
  (forall info', NoDup (map fst example_info) -> Permutation example_info info' ->
     create_install_options_list simple_path_of example_fs info' = Ok example_options).
Proof.
  apply (install_options_order simple_path_of example_fs example_info).
  vm_compute. reflexivity.
Defined.

Example example_option_names :
  option_names example_options =
  [s "register_python"; s "initialize_conda"; s "clear_package_cache"; s "pre_install_script"].
Proof. vm_compute. reflexivity. Qed.

(** C10.  The shortcuts option is listed exactly when
    [info["_enable_shortcuts"]] is the boolean [True]; any other value, truthy
    or not, leaves it out. *)
Theorem shortcuts_only_when_True (path_of : str -> Path) (fs : FS)
        (info : dict) (opts : list install_option) :
  create_install_options_list path_of fs info = Ok opts ->
  (In shortcuts_name (option_names opts) <->
   lookup info shortcuts_key = Some (VBool true)) /\
  (forall v, lookup info shortcuts_key = Some v -> v <> VBool true ->
     ~ In shortcuts_name (option_names opts)).
Proof.
  intro H. rewrite (create_names _ _ _ H).
  assert (E : In shortcuts_name (map fst (filter snd (priority_table info))) <->
              lookup info shortcuts_key = Some (VBool true)).
  { rewrite In_names_of_table. unfold priority_table, shortcuts_enabled. simpl In.
    fold shortcuts_key. split.
    - intros [G|[G|[G|[G|[G|[G|[]]]]]]]; try discriminate G.
      inversion G as [G']. destruct (lookup info shortcuts_key) as [[| [] | | |]|];
        try discriminate G'. reflexivity.
    - intros ->. auto. }
  split; [exact E|].
  intros v Hv Hne Hin. apply E in Hin. rewrite Hv in Hin. congruence.
Qed.

Lemma shortcuts_only_when_True_witness :
  (In shortcuts_name (option_names example_options) <->
   lookup example_info shortcuts_key = Some (VBool true)) /\
  (forall v, lookup example_info shortcuts_key = Some v -> v <> VBool true ->
     ~ In shortcuts_name (option_names example_options)).
Proof.
  apply (shortcuts_only_when_True simple_path_of example_fs example_info).
  vm_compute. reflexivity.
Defined.

(** ** Script validation *)

Lemma rsplit1_spec sep x a b :
  rsplit1 sep x = Some (a, b) <-> x = a ++ sep :: b /\ mem_char sep b = false.
Proof.
  split.
  - intro H. destruct (mem_char sep x) eqn:E.
    + destruct (rsplit1_some _ _ E) as (a' & b' & H' & Hx & Hb).
      rewrite H in H'. inversion H'; subst. auto.
    + rewrite (rsplit1_none _ _ E) in H. discriminate.
  - intros [-> Hb]. induction a as [|c a IH]; simpl.
    + rewrite (rsplit1_none _ _ Hb). now rewrite ascii_eqb_refl.
    + now rewrite IH.
Qed.

Lemma lower_bat_no_dot ext : lower ext = s "bat" -> mem_char "." ext = false /\ ext <> [].
Proof.
  destruct ext as [|c1 [|c2 [|c3 [|c4 ext]]]]; try discriminate.
  intro H. split; [|discriminate]. inversion H as [[H1 H2 H3]].
  unfold mem_char. cbn [existsb].
  destruct (ascii_eqb "." c1) eqn:E1; [apply ascii_eqb_eq in E1; subst; discriminate|].
  destruct (ascii_eqb "." c2) eqn:E2; [apply ascii_eqb_eq in E2; subst; discriminate|].
  destruct (ascii_eqb "." c3) eqn:E3; [apply ascii_eqb_eq in E3; subst; discriminate|].
  reflexivity.
Qed.

(** X22 ([is_bat_file], src/constructor/briefcase.py 121-122).  A batch
    file is an existing regular file whose name is a non-empty stem, a dot
    and [bat] in any mix of cases: a directory, a name that is [.bat] alone,
    and a name that goes on after [.bat] are refused. *)
Lemma is_bat_file_iff fs p :
  is_bat_file fs p = true <->
  is_file fs p = true /\
  exists stem ext, path_name p = stem ++ s "." ++ ext /\ stem <> [] /\ lower ext = s "bat".
Proof.
  unfold is_bat_file, suffix. rewrite andb_true_iff, str_eqb_eq. split.
  - intros [Hf H]. split; [exact Hf|].
    destruct (rsplit1 "." (path_name p)) as [[stem ext]|] eqn:E; [|discriminate].
    apply rsplit1_spec in E as [E _].
    destruct stem as [|c stem]; [discriminate|].
    destruct ext as [|d ext]; [discriminate|]. cbn [nonempty andb] in H.
    exists (c :: stem), (d :: ext). repeat split; [exact E | discriminate |].
    unfold lower in *.
    exact (f_equal (@tl ascii) H).
  - intros [Hf (stem & ext & E & Hs & Hl)]. split; [exact Hf|].
    destruct (lower_bat_no_dot _ Hl) as [Hd He].
    assert (R : rsplit1 "." (path_name p) = Some (stem, ext))
      by (apply rsplit1_spec; auto).
    rewrite R. destruct stem; [contradiction|]. destruct ext; [contradiction|].
    cbn [nonempty andb]. unfold lower in *. simpl map. simpl map in Hl.
    now rewrite Hl.
Qed.

Lemma find_python_typed items :
  forallb is_VStr items = true -> exists r, find_python items = Ok r.
Proof.
  induction items as [|v items IH]; intro H; [now exists None|].
  cbn [forallb] in H. apply andb_true_iff in H as [Hv H].
  destruct v; try discriminate. cbn [find_python].
  destruct (startswith _ _); eauto.
Qed.

Section ValidationFacts.
Variable path_of : str -> Path.
Variable fs : FS.

Lemma typed_prefix info :
  well_typed info = true ->
  exists reg,
    create_install_options_list path_of fs info =
      (pre <- script_option path_of fs info (s "pre") ;;
       post <- script_option path_of fs info (s "post") ;;
       Ok (reg ++ initialize_options info ++ clear_options info ++
           shortcut_options info ++ pre ++ post)).
Proof.
  unfold well_typed, create_install_options_list, has_key. intro H.
  apply andb_true_iff in H as [H _]. apply andb_true_iff in H as [H _].
  apply andb_true_iff in H as [Hd Hn].
  assert (Hf : exists python,
            (dists <- iterate (get_default info (s "_dists") (VList [])) ;;
             find_python dists) = Ok python).
  { unfold get_default. destruct (lookup info (s "_dists")) as [[| | | |items]|];
      try discriminate.
    - now apply find_python_typed.
    - now exists None. }
  destruct Hf as [python Hf].
  destruct (iterate _) as [dists|]; [|discriminate]. cbn [bind] in *.
  rewrite Hf. cbn [bind].
  assert (Hr : exists reg, register_options info python = Ok reg).
  { unfold register_options. destruct python; [|eauto].
    destruct (truthy _); [|eauto].
    destruct (lookup info (s "name")); [eauto | discriminate]. }
  destruct Hr as [reg ->]. cbn [bind]. now exists reg.
Qed.

Lemma script_option_typed info t :
  absent_or_str info (t ++ s "_install") = true ->
  (exists l, script_option path_of fs info t = Ok l) \/
  (exists msg, script_option path_of fs info t = Raise (ValueError msg)).
Proof.
  unfold absent_or_str, script_option, check_script, get_default. intro H.
  destruct (truthy (match lookup info (t ++ s "_install_desc") with
                    | Some v => v | None => VStr [] end));
    destruct (lookup info (t ++ s "_install")) as [[| | |x|]|]; try discriminate;
    try (destruct x); cbn [truthy andb negb bind]; eauto;
    destruct (is_bat_file _ _); cbn [negb bind]; eauto.
Qed.

Lemma script_failure_fails info t e :
  t = s "pre" \/ t = s "post" ->
  script_option path_of fs info t = Raise e ->
  (well_typed info = true -> exists msg, e = ValueError msg) ->
  fails_validation (create_install_options_list path_of fs info) (well_typed info).
Proof.
  intros Ht He Hv. unfold fails_validation.
  destruct (create_install_options_list path_of fs info) as [opts|e'] eqn:Ec.
  - exfalso. apply create_ok_parts in Ec as (reg & pre & post & _ & Hpre & Hpost & _).
    destruct Ht as [-> | ->]; congruence.
  - exists e'. split; [reflexivity|]. intro Hw.
    destruct (typed_prefix _ Hw) as [reg Hc]. rewrite Hc in Ec.
    pose proof Hw as Hw'. unfold well_typed in Hw'.
    apply andb_true_iff in Hw' as [Hw' Hpost]. apply andb_true_iff in Hw' as [_ Hpre].
    destruct (Hv Hw) as [msg ->].
    destruct Ht as [-> | ->].
    + rewrite He in Ec. cbn [bind] in Ec. inversion Ec. eauto.
    + destruct (script_option_typed info (s "pre") Hpre) as [[l Hl]|[m Hm]].
      * rewrite Hl, He in Ec. cbn [bind] in Ec. inversion Ec. eauto.
      * rewrite Hm in Ec. cbn [bind] in Ec. inversion Ec. eauto.
Qed.
End ValidationFacts.

Lemma script_ok_option path_of fs info t :
  script_ok path_of fs info t -> exists l, script_option path_of fs info t = Ok l.
Proof.
  unfold script_ok, script_option, check_script.
  fold (script_desc info t) (script_path info t).
  intros [[Hs Hd]|(x & Hx & Hne & Hb)].
  - rewrite Hs, Hd. cbn [andb bind]. eauto.
  - rewrite Hx, Hb. assert (T : truthy (VStr x) = true) by now destruct x.
    rewrite T. cbn [negb]. rewrite andb_false_r. cbn [bind].
    destruct (truthy (script_desc info t)); eauto.
Qed.

(** C7.  For each script type [t] in [pre], [post]: the call fails when a
    description is given without a script, and when the script given is not
    an existing [.bat] file; the failure is a [ValueError] on well-typed
    metadata.  Whenever the call returns, the option [<t>_install_script] is
    listed exactly when a description is given; and on well-typed metadata
    whose two scripts are in order the call does return. *)
Theorem install_script_validation (path_of : str -> Path) (fs : FS) (info : dict) (t : str) :
  t = s "pre" \/ t = s "post" ->
  (truthy (script_desc info t) = true -> truthy (script_path info t) = false ->
   fails_validation (create_install_options_list path_of fs info) (well_typed info)) /\
  (forall x, script_path info t = VStr x -> x <> [] ->
     is_bat_file fs (path_of x) = false ->
     fails_validation (create_install_options_list path_of fs info) (well_typed info)) /\
  (forall opts, create_install_options_list path_of fs info = Ok opts ->
     (In (t ++ s "_install_script") (option_names opts) <->
      truthy (script_desc info t) = true)) /\
  (well_typed info = true ->
   script_ok path_of fs info (s "pre") -> script_ok path_of fs info (s "post") ->
   exists opts, create_install_options_list path_of fs info = Ok opts).
Proof.
  intro Ht. repeat apply conj.
  - intros Hd Hs. eapply script_failure_fails; [exact Ht | | eauto].
    unfold script_option. fold (script_desc info t) (script_path info t).
    rewrite Hd, Hs. reflexivity.
  - intros x Hx Hne Hb. eapply script_failure_fails; [exact Ht | | eauto].
    unfold script_option, check_script. fold (script_desc info t) (script_path info t).
    rewrite Hx, Hb. assert (T : truthy (VStr x) = true) by now destruct x.
    rewrite T. cbn [negb]. rewrite andb_false_r. reflexivity.
  - intros opts H. rewrite (create_names _ _ _ H), In_names_of_table.
    unfold priority_table, script_desc. simpl In.
    destruct Ht as [-> | ->].
    + change (s "pre" ++ s "_install_script") with (s "pre_install_script").
      change (s "pre" ++ s "_install_desc") with (s "pre_install_desc").
      split.
      * intros [G|[G|[G|[G|[G|[G|[]]]]]]]; try discriminate G.
        exact (f_equal snd G).
      * intros ->. auto 10.
    + change (s "post" ++ s "_install_script") with (s "post_install_script").
      change (s "post" ++ s "_install_desc") with (s "post_install_desc").
      split.
      * intros [G|[G|[G|[G|[G|[G|[]]]]]]]; try discriminate G.
        exact (f_equal snd G).
      * intros ->. auto 10.
  - intros Hw Hpre Hpost. destruct (typed_prefix path_of fs _ Hw) as [reg ->].
    destruct (script_ok_option Hpre) as [pre ->].
    destruct (script_ok_option Hpost) as [post ->]. cbn [bind]. eauto.
Qed.

Lemma install_script_validation_witness :
  exists msg,
    create_install_options_list simple_path_of example_fs undescribed_script_info
    = Raise (ValueError msg).
Proof.
  destruct (install_script_validation simple_path_of example_fs
              undescribed_script_info (or_introl eq_refl)) as [H _].
  destruct (H eq_refl eq_refl) as [e [He Hk]].
  destruct (Hk eq_refl) as [msg Hm].
  exists msg. rewrite <- Hm. exact He.
Defined.

Example post_script_not_bat :
  create_install_options_list simple_path_of example_fs
    [ (s "name", VStr (s "App")); (s "post_install", VStr (s "/scripts/post.sh")) ]
  = Raise (ValueError
      (s "Specified post-install script '/scripts/post.sh' must be an existing '.bat' file.")).
Proof. vm_compute. reflexivity. Qed.

(** ** The file system *)

Lemma put_same fs p n : put fs p n p = Some n.
Proof. unfold put. now rewrite path_eqb_refl. Qed.

Lemma put_other fs p n q : q <> p -> put fs p n q = fs q.
Proof. intro H. unfold put. apply path_eqb_neq in H. now rewrite H. Qed.

Lemma child_neq (p : Path) (n : str) : child p n <> p.
Proof.
  unfold child. intro E. apply (f_equal (@length str)) in E. simpl in E. lia.
Qed.

Lemma grandchild_neq (p : Path) (n m : str) : child (child p n) m <> p.
Proof.
  unfold child. intro E. apply (f_equal (@length str)) in E. simpl in E. lia.
Qed.

Lemma is_dir_iff fs p : is_dir fs p = true <-> fs p = Some NDir.
Proof.
  unfold is_dir. destruct (fs p) as [[|d]|]; split; congruence.
Qed.

Ltac absurd_outcome := let H := fresh in intro H; discriminate H.

(** [mkdir(parents=True, exist_ok=True)] leaves a directory when it returns. *)
Lemma mkdir_exist_ok_dir p fs fs' :
  mkdir_exist_ok p fs = (Ok tt, fs') -> is_dir fs' p = true.
Proof.
  unfold mkdir_exist_ok, os_mkdir.
  destruct (fs p) as [n|] eqn:E.
  - destruct (is_dir fs p) eqn:D; [|absurd_outcome].
    intro H. inversion H; subst. assumption.
  - destruct p as [|c up]; [absurd_outcome|].
    destruct (fs up) as [[|d]|]; [| |absurd_outcome].
    + intro H. inversion H. apply is_dir_iff. apply put_same.
    + destruct (is_dir fs (c :: up)) eqn:D; [|absurd_outcome].
      unfold is_dir in D. rewrite E in D. discriminate D.
Qed.

Lemma mkdir_parents_dir p : forall fs fs',
  mkdir_parents_exist_ok p fs = (Ok tt, fs') -> is_dir fs' p = true.
Proof.
  induction p as [|c up IH]; intros fs fs'; cbn [mkdir_parents_exist_ok]; unfold os_mkdir.
  - destruct (fs []) as [n|] eqn:E; [|absurd_outcome].
    destruct (is_dir fs []) eqn:D; [|absurd_outcome].
    intro H. inversion H; subst. assumption.
  - destruct (fs (c :: up)) as [n|] eqn:E.
    + destruct (is_dir fs (c :: up)) eqn:D; [|absurd_outcome].
      intro H. inversion H; subst. assumption.
    + destruct (fs up) as [[|d]|] eqn:Eu.
      * intro H. inversion H. apply is_dir_iff. apply put_same.
      * destruct (is_dir fs (c :: up)) eqn:D; [|absurd_outcome].
        unfold is_dir in D. rewrite E in D. discriminate D.
      * unfold mbind.
        destruct (mkdir_parents_exist_ok up fs) as [[[]|e] fs1]; [|absurd_outcome].
        apply mkdir_exist_ok_dir.
Qed.

(** On a directory that is there, [mkdir(parents=True, exist_ok=True)]
    changes nothing; under an existing parent it creates the directory. *)
Lemma mkdir_parents_existing p fs :
  is_dir fs p = true -> mkdir_parents_exist_ok p fs = (Ok tt, fs).
Proof.
  intro D. pose proof D as D'. apply is_dir_iff in D'.
  destruct p; cbn [mkdir_parents_exist_ok]; unfold os_mkdir; now rewrite D', D.
Qed.

Lemma mkdir_parents_fresh p fs :
  p <> [] -> fs p = None -> is_dir fs (parent p) = true ->
  mkdir_parents_exist_ok p fs = (Ok tt, put fs p NDir).
Proof.
  intros Hp E D. destruct p as [|c up]; [contradiction|]. apply is_dir_iff in D.
  cbn [parent tl] in D. cbn [mkdir_parents_exist_ok]. unfold os_mkdir. now rewrite E, D.
Qed.

Lemma mkdir_fresh p fs :
  p <> [] -> fs p = None -> is_dir fs (parent p) = true ->
  mkdir p fs = (Ok tt, put fs p NDir).
Proof.
  intros Hp E D. destruct p as [|c up]; [contradiction|]. apply is_dir_iff in D.
  cbn [parent tl] in D. unfold mkdir, os_mkdir. now rewrite E, D.
Qed.

Lemma mkdir_existing p fs :
  fs p <> None -> mkdir p fs = (Raise (FileExistsError p), fs).
Proof.
  intro E. unfold mkdir, os_mkdir. destruct (fs p); [reflexivity | contradiction].
Qed.

Lemma create_layout_unfold self root fs :
  _create_layout self root fs =
  (_ <~ mkdir_parents_exist_ok (external_of root) ;;
   _ <~ mkdir (base_of root) ;;
   _ <~ mkdir (pkgs_of root) ;;
   ret (layout_of root)) fs.
Proof. reflexivity. Qed.

(** After the step on [external], which leaves a directory there. *)
Lemma create_layout_after_external self root fs fs1 :
  mkdir_parents_exist_ok (external_of root) fs = (Ok tt, fs1) ->
  (fs1 (base_of root) <> None ->
   _create_layout self root fs = (Raise (FileExistsError (base_of root)), fs1)) /\
  (fs1 (base_of root) = None -> fs1 (pkgs_of root) <> None ->
   _create_layout self root fs =
     (Raise (FileExistsError (pkgs_of root)), put fs1 (base_of root) NDir)) /\
  (fs1 (base_of root) = None -> fs1 (pkgs_of root) = None ->
   _create_layout self root fs =
     (Ok (layout_of root),
      put (put fs1 (base_of root) NDir) (pkgs_of root) NDir)).
Proof.
  intro H1. pose proof (mkdir_parents_dir _ _ H1) as D.
  assert (Hc : _create_layout self root fs =
               (_ <~ mkdir (base_of root) ;;
                _ <~ mkdir (pkgs_of root) ;;
                ret (layout_of root)) fs1).
  { rewrite create_layout_unfold. unfold mbind at 1. now rewrite H1. }
  rewrite Hc. clear Hc.
  assert (Hp : forall n, put fs1 (base_of root) NDir (pkgs_of root) = n ->
               fs1 (pkgs_of root) = n).
  { intros n <-. symmetry. apply put_other. apply child_neq. }
  assert (Db : is_dir (put fs1 (base_of root) NDir) (parent (pkgs_of root)) = true).
  { apply is_dir_iff. apply put_same. }
  repeat split.
  - intro Hb. unfold mbind. now rewrite (mkdir_existing _ _ Hb).
  - intros Hb Hk. unfold mbind.
    rewrite (@mkdir_fresh (base_of root)); [|discriminate|assumption|exact D].
    rewrite mkdir_existing; [reflexivity|].
    intro E. apply Hp in E. contradiction.
  - intros Hb Hk. unfold mbind.
    rewrite (@mkdir_fresh (base_of root)); [|discriminate|assumption|exact D].
    rewrite (@mkdir_fresh (pkgs_of root)); [reflexivity|discriminate| |exact Db].
    rewrite put_other; [assumption | apply child_neq].
Qed.

Lemma external_step root fs :
  is_dir fs root = true ->
  fs (external_of root) = None \/ is_dir fs (external_of root) = true ->
  mkdir_parents_exist_ok (external_of root) fs = (Ok tt, with_external fs root) /\
  with_external fs root (base_of root) = fs (base_of root) /\
  with_external fs root (pkgs_of root) = fs (pkgs_of root).
Proof.
  intros Hr He. unfold with_external.
  destruct (is_dir fs (external_of root)) eqn:D.
  - split; [now apply mkdir_parents_existing | split; reflexivity].
  - destruct He as [He|He]; [|discriminate]. split.
    + apply mkdir_parents_fresh; [discriminate | assumption | exact Hr].
    + split; apply put_other; [apply child_neq | apply grandchild_neq].
Qed.

(** C8.  On a root that is a directory, with [external] absent or already
    a directory: the layout is created when neither [base] nor [pkgs] is
    there, and the call fails with [FileExistsError] when [base], or else
    [pkgs], is there.  A run that succeeds leaves the three directories, so a
    second run on the same root fails with [FileExistsError] at [base]. *)
Theorem create_layout_spec (self : Payload) (root : Path) (fs : FS) :
  is_dir fs root = true ->
  fs (external_of root) = None \/ is_dir fs (external_of root) = true ->
  (fs (base_of root) = None -> fs (pkgs_of root) = None ->
   _create_layout self root fs =
     (Ok (layout_of root),
      put (put (with_external fs root) (base_of root) NDir) (pkgs_of root) NDir)) /\
  (fs (base_of root) <> None ->
   _create_layout self root fs =
     (Raise (FileExistsError (base_of root)), with_external fs root)) /\
  (fs (base_of root) = None -> fs (pkgs_of root) <> None ->
   _create_layout self root fs =
     (Raise (FileExistsError (pkgs_of root)),
      put (with_external fs root) (base_of root) NDir)) /\
  (forall layout fs',
     _create_layout self root fs = (Ok layout, fs') ->
     layout = layout_of root /\
     is_dir fs' (external_of root) = true /\
     is_dir fs' (base_of root) = true /\
     is_dir fs' (pkgs_of root) = true /\
     _create_layout self root fs' = (Raise (FileExistsError (base_of root)), fs')).
Proof.
  intros Hr He.
  destruct (external_step root fs Hr He) as (H1 & Eb & Ek).
  destruct (create_layout_after_external self root fs H1) as (A & B & C).
  rewrite Eb, Ek in *. repeat apply conj.
  - exact C.
  - exact A.
  - exact B.
  - intros layout fs' H.
    destruct (fs (base_of root)) as [n|] eqn:Hb.
    { rewrite A in H by discriminate. discriminate H. }
    destruct (fs (pkgs_of root)) as [n|] eqn:Hk.
    { rewrite B in H by (reflexivity || discriminate). discriminate H. }
    rewrite C in H by reflexivity. inversion H; subst layout fs'. clear H.
    set (fs1 := with_external fs root) in *.
    pose proof (mkdir_parents_dir _ _ H1) as D.
    assert (De : is_dir (put (put fs1 (base_of root) NDir) (pkgs_of root) NDir)
                   (external_of root) = true).
    { apply is_dir_iff. rewrite !put_other.
      - now apply is_dir_iff.
      - intro E. symmetry in E. now apply child_neq in E.
      - intro E. symmetry in E. now apply grandchild_neq in E. }
    assert (Db : put (put fs1 (base_of root) NDir) (pkgs_of root) NDir (base_of root)
                 = Some NDir).
    { rewrite put_other; [apply put_same|].
      intro E. symmetry in E. now apply child_neq in E. }
    repeat split; try assumption.
    + now apply is_dir_iff.
    + apply is_dir_iff. apply put_same.
    + destruct (create_layout_after_external self root _
                  (mkdir_parents_existing _ _ De)) as (A' & _ & _).
      apply A'. rewrite Db. discriminate.
Qed.

Lemma create_layout_spec_witness :
  exists fs',
    _create_layout (new_Payload []) [] example_fs = (Ok (layout_of []), fs') /\
    _create_layout (new_Payload []) [] fs' = (Raise (FileExistsError (base_of [])), fs').
Proof.
  destruct (create_layout_spec (new_Payload []) [] example_fs eq_refl (or_introl eq_refl))
    as (H1 & _ & _ & H4).
  eexists. split; [apply H1; reflexivity|].
  apply (H4 (layout_of [])). apply H1; reflexivity.
Defined.

(** ** The archive *)

Lemma skipn_app_length (A : Type) (a b : list A) :
  skipn (length (a ++ b) - length b) (a ++ b) = b.
Proof.
  rewrite length_app. replace (length a + length b - length b) with (length a) by lia.
  rewrite skipn_app, skipn_all, Nat.sub_diag. reflexivity.
Qed.

Lemma firstn_app_length (A : Type) (a b : list A) :
  firstn (length (a ++ b) - length b) (a ++ b) = a.
Proof.
  rewrite length_app. replace (length a + length b - length b) with (length a) by lia.
  rewrite firstn_app, firstn_all, Nat.sub_diag. simpl. apply app_nil_r.
Qed.

Lemma under_iff p q : under p q = true <-> exists rel, q = rel ++ p.
Proof.
  unfold under. rewrite path_eqb_eq. split.
  - intro H. exists (firstn (length q - length p) q).
    pattern p at 2. rewrite <- H. symmetry. apply firstn_skipn.
  - intros [rel ->]. apply skipn_app_length.
Qed.

Lemma under_app rel p : under p (rel ++ p) = true.
Proof. apply under_iff. now exists rel. Qed.

Lemma relative_to_app dest m : relative_to dest (m ++ dest) = Some m.
Proof. unfold relative_to. now rewrite under_app, firstn_app_length. Qed.

(** The members of the archive are the tree of [src], under its name. *)
Lemma tar_members_at fs archive_path src arcname rel :
  tar_members fs archive_path src arcname (rel ++ [arcname]) =
  if path_eqb (rel ++ src) archive_path then None else fs (rel ++ src).
Proof.
  unfold tar_members. rewrite rev_app_distr. simpl rev. cbn [app].
  rewrite rev_involutive, str_eqb_refl. cbn [andb].
  now destruct (path_eqb (rel ++ src) archive_path).
Qed.

Lemma tar_members_top fs archive_path src arcname m :
  tar_members fs archive_path src arcname m <> None ->
  exists rel, m = rel ++ [arcname].
Proof.
  unfold tar_members. intro H.
  destruct (rev m) as [|top inner] eqn:E; [contradiction|].
  destruct (str_eqb top arcname) eqn:Et; [|now destruct H].
  apply str_eqb_eq in Et. subst top. exists (rev inner).
  rewrite <- (rev_involutive m), E. reflexivity.
Qed.

Lemma make_tar_gz_ok self src dst fs :
  is_dir fs src = true -> is_dir fs dst = true ->
  is_dir fs (archive_path_of self dst) = false ->
  make_tar_gz self src dst fs =
    (Ok (archive_path_of self dst),
     put (put fs (archive_path_of self dst) (NFile (Raw [])))
         (archive_path_of self dst)
         (NFile (TarGz (tar_members
                          (put fs (archive_path_of self dst) (NFile (Raw [])))
                          (archive_path_of self dst) src (path_name src))))).
Proof.
  intros Hs Hd Ha. unfold make_tar_gz. rewrite Hs, Hd. cbn [negb].
  fold (archive_path_of self dst).
  unfold tar_create, mbind, open_w.
  unfold is_dir in Ha.
  apply is_dir_iff in Hd.
  change (parent (archive_path_of self dst)) with dst. rewrite Hd.
  unfold archive_path_of at 1 2, child.
  fold (child dst (archive_name self)). fold (archive_path_of self dst).
  destruct (fs (archive_path_of self dst)) as [[|d]|]; [discriminate | reflexivity | reflexivity].
Qed.

Lemma make_tar_gz_not_dir self src dst fs :
  is_dir fs src = false \/ is_dir fs dst = false ->
  exists p,
    make_tar_gz self src dst fs = (Raise (NotADirectoryError p), fs) /\
    _convert_into_archive self src dst fs = (Raise (NotADirectoryError p), fs).
Proof.
  intro H.
  assert (G : exists p, make_tar_gz self src dst fs = (Raise (NotADirectoryError p), fs)).
  { unfold make_tar_gz. destruct (is_dir fs src); cbn [negb]; [|eauto].
    destruct H as [H|H]; [discriminate|]. rewrite H. cbn [negb]. eauto. }
  destruct G as [p G]. exists p. split; [exact G|].
  unfold _convert_into_archive, mbind. now rewrite G.
Qed.

(** C5, where the archive can be written and is not removed again.  If
    [src] or [dst] is not a directory, both operations raise
    [NotADirectoryError] and leave the file system as it was.  If both are
    directories, [dst] is neither [src] nor below it, and no directory sits
    at [dst/<archive_name>], then [make_tar_gz] writes there a
    gzip-compressed tar and changes nothing else; every member lies under
    the one top-level entry named after [src]; the members are the tree of
    [src], so extracting the archive into a place with nothing in the way
    reproduces that tree; and [_convert_into_archive] then removes [src]
    with everything below it and nothing else: afterwards [src] no longer
    exists and the archive, with these members, is still at its path. *)
Theorem archive_roundtrip (self : Payload) (src dst : Path) (fs : FS) :
  (is_dir fs src = false \/ is_dir fs dst = false ->
   exists p,
     make_tar_gz self src dst fs = (Raise (NotADirectoryError p), fs) /\
     _convert_into_archive self src dst fs = (Raise (NotADirectoryError p), fs)) /\
  (is_dir fs src = true -> is_dir fs dst = true ->
   under src dst = false ->
   is_dir fs (archive_path_of self dst) = false ->
   exists members fs1 fs2,
     make_tar_gz self src dst fs = (Ok (archive_path_of self dst), fs1) /\
     fs1 (archive_path_of self dst) = Some (NFile (TarGz members)) /\
     (forall q, q <> archive_path_of self dst -> fs1 q = fs q) /\
     members [path_name src] = Some NDir /\
     (forall m, members m <> None -> exists rel, m = rel ++ [path_name src]) /\
     (forall rel, members (rel ++ [path_name src]) = fs (rel ++ src)) /\
     (forall fs0 dest,
        (forall rel, fs0 (rel ++ path_name src :: dest) = None) ->
        forall rel,
          extractall members dest fs0 (rel ++ path_name src :: dest) = fs (rel ++ src)) /\
     _convert_into_archive self src dst fs = (Ok (archive_path_of self dst), fs2) /\
     fs2 (archive_path_of self dst) = Some (NFile (TarGz members)) /\
     fs2 src = None /\
     (forall q, under src q = true -> fs2 q = None) /\
     (forall q, under src q = false -> fs2 q = fs1 q)).
Proof.
  split; [apply make_tar_gz_not_dir|].
  intros Hs Hd Hout Ha.
  pose proof (make_tar_gz_ok self src dst fs Hs Hd Ha) as Hm.
  set (ap := archive_path_of self dst) in *.
  set (fs0 := put fs ap (NFile (Raw []))) in *.
  set (members := tar_members fs0 ap src (path_name src)) in *.
  set (fs1 := put fs0 ap (NFile (TarGz members))) in *.
  assert (Hne : src <> ap).
  { intro E. rewrite <- E in Ha. congruence. }
  assert (Hap : under src ap = false).
  { destruct (under src ap) eqn:U; [|reflexivity].
    apply under_iff in U as [rel U]. unfold ap, archive_path_of, child in U.
    destruct rel as [|c rel]; cbn [app] in U; [now destruct Hne|].
    apply (f_equal (@tl str)) in U. cbn [tl] in U.
    assert (under src dst = true) by (apply under_iff; now exists rel). congruence. }
  assert (Hmem : forall rel, members (rel ++ [path_name src]) = fs (rel ++ src)).
  { intro rel. unfold members. rewrite tar_members_at.
    destruct (path_eqb (rel ++ src) ap) eqn:E.
    - apply path_eqb_eq in E. rewrite <- E, under_app in Hap. discriminate Hap.
    - apply path_eqb_neq in E. unfold fs0. now apply put_other. }
  assert (Hsrc : fs1 src = Some NDir).
  { unfold fs1, fs0. rewrite !put_other by assumption. now apply is_dir_iff. }
  exists members, fs1, (fun q => if under src q then None else fs1 q).
  repeat apply conj.
  - exact Hm.
  - apply put_same.
  - intros q Hq. unfold fs1, fs0. now rewrite !put_other.
  - change [path_name src] with ([] ++ [path_name src]).
    rewrite (Hmem []). now apply is_dir_iff.
  - intros m H. now apply tar_members_top in H.
  - exact Hmem.
  - intros fs' dest Hfree rel. unfold extractall.
    replace (rel ++ path_name src :: dest) with ((rel ++ [path_name src]) ++ dest)
      by (rewrite <- app_assoc; reflexivity).
    rewrite relative_to_app, Hmem.
    destruct (fs (rel ++ src)); [reflexivity|].
    rewrite <- app_assoc. apply Hfree.
  - unfold _convert_into_archive, mbind. rewrite Hm.
    unfold exists_. replace (fs1 ap) with (Some (NFile (TarGz members)))
      by (symmetry; apply put_same).
    cbn [negb]. unfold rmtree, ret. now rewrite Hsrc.
  - rewrite Hap. apply put_same.
  - now rewrite (under_app [] src : under src src = true).
  - intros q Hq. now rewrite Hq.
  - intros q Hq. now rewrite Hq.
Qed.

Example archive_of_payload :
  let self := new_Payload [] in
  let base := [s "base"; s "external"] in
  match _convert_into_archive self base [s "external"] payload_fs with
  | (Ok p, fs') =>
      p = [s "payload.tar.gz"; s "external"] /\
      fs' base = None /\
      fs' (s "numpy.conda" :: s "pkgs" :: base) = None /\
      match fs' p with
      | Some (NFile (TarGz members)) =>
          members [s "numpy.conda"; s "pkgs"; s "base"] = Some (NFile (Raw (s "numpy")))
      | _ => False
      end
  | _ => False
  end.
Proof. vm_compute. repeat split. Qed.

(** C5 as stated fails, in two ways, with [src] and [dst] both
    directories.  A directory sits at the archive path: opening it for
    writing fails (with an error that is not [NotADirectoryError]) and no
    archive is written.  Or [dst] lies inside [src]: the conversion
    succeeds, and the archive has been removed together with [src]. *)
Lemma archive_roundtrip_fails :
  (is_dir occupied_fs [s "src"] = true /\
   is_dir occupied_fs [s "dst"] = true /\
   match fst (make_tar_gz (new_Payload []) [s "src"] [s "dst"] occupied_fs) with
   | Ok _ | Raise (NotADirectoryError _) => false
   | Raise _ => true
   end = true /\
   match fst (_convert_into_archive (new_Payload []) [s "src"] [s "dst"] occupied_fs) with
   | Ok _ | Raise (NotADirectoryError _) => false
   | Raise _ => true
   end = true /\
   snd (_convert_into_archive (new_Payload []) [s "src"] [s "dst"] occupied_fs)
       [s "payload.tar.gz"; s "dst"] = Some NDir) /\
  (is_dir nested_fs [s "a"] = true /\
   is_dir nested_fs [s "b"; s "a"] = true /\
   nested_fs [s "payload.tar.gz"; s "b"; s "a"] = None /\
   fst (_convert_into_archive (new_Payload []) [s "a"] [s "b"; s "a"] nested_fs)
     = Ok [s "payload.tar.gz"; s "b"; s "a"] /\
   snd (_convert_into_archive (new_Payload []) [s "a"] [s "b"; s "a"] nested_fs)
       [s "payload.tar.gz"; s "b"; s "a"] = None).
Proof. vm_compute. repeat split. Qed.

Lemma archive_roundtrip_witness :
  exists members fs2,
    _convert_into_archive (new_Payload []) [s "base"; s "external"] [s "external"] payload_fs
      = (Ok [s "payload.tar.gz"; s "external"], fs2) /\
    fs2 [s "payload.tar.gz"; s "external"] = Some (NFile (TarGz members)) /\
    fs2 [s "numpy.conda"; s "pkgs"; s "base"; s "external"] = None.
Proof.
  destruct (archive_roundtrip (new_Payload []) [s "base"; s "external"] [s "external"]
              payload_fs) as [_ H].
  destruct H as (members & fs1 & fs2 & _ & _ & _ & _ & _ & _ & _ & Hc & Hkept & _ & Hgone & _).
  - reflexivity.
  - reflexivity.
  - reflexivity.
  - reflexivity.
  - exists members, fs2.
    split; [exact Hc|]. split; [exact Hkept | apply Hgone; reflexivity].
Defined.


(** * Further properties of the code *)

(** ** [get_name_version]: what every result satisfies *)

Lemma default_version_canonical : Matches version_re DEFAULT_VERSION.
Proof. apply fullmatch_Matches. vm_compute. reflexivity. Qed.

(** X1.  Every version [get_name_version] returns is a word of the
    canonical pattern, the fallback ["0.0.1"] included; it is never empty. *)
Theorem get_name_version_canonical (info : dict) (name version : str) (log : list str) :
  get_name_version info = (Ok (name, version), log) ->
  Matches version_re version /\ version <> [].
Proof.
  intro H.
  enough (G : Matches version_re version).
  { split; [exact G|]. destruct (version_starts_with_digit G) as (c & m & -> & _).
    discriminate. }
  unfold get_name_version in H.
  destruct (truthy (get info (s "name"))); cbn [negb] in H; [|discriminate H].
  destruct (truthy (get info (s "version"))); cbn [negb] in H; [|discriminate H].
  destruct (get info (s "version")) as [| | |v|]; try discriminate H.
  fold (version_subject v) in H.
  destruct (rev (finditer version_re (version_subject v))) as [|[start stop] l] eqn:E.
  - inversion H. apply default_version_canonical.
  - destruct (finditer_last_span _ E) as (_ & _ & _ & Hm & _).
    destruct (get info (s "name")); try discriminate H. inversion H. exact Hm.
Qed.

Lemma get_name_version_canonical_witness :
  Matches version_re (s "23.1.0.1") /\ s "23.1.0.1" <> [].
Proof.
  apply (get_name_version_canonical (info_nv "Miniconda3" "py310_23.1.0-1")
           (name := s "Miniconda3 py310") (log := [])).
  reflexivity.
Defined.

Lemma lower_digit_same c : is_digit (char_lower c) = is_digit c.
Proof. all_chars c. Qed.

Lemma hyphen_dot_not_digit c :
  is_digit (if ascii_eqb c "-" then "."%char else c) = is_digit c.
Proof. all_chars c. Qed.

Lemma version_subject_no_digit v : no_digit (version_subject v) <-> no_digit v.
Proof.
  unfold no_digit, version_subject, replace_char, lower.
  induction v as [|c v IH]; simpl; [tauto|].
  split; intro H; inversion H as [|? ? Hc Hv]; subst; constructor;
    try (now apply IH);
    rewrite hyphen_dot_not_digit, lower_digit_same in *; assumption.
Qed.

Lemma no_digit_finditer_nil x : no_digit x -> finditer version_re x = [].
Proof.
  intro H. apply no_version_finditer_nil. intro Hc.
  now apply contains_version_digit in Hc.
Qed.

Lemma no_digit_dec x : {no_digit x} + {~ no_digit x}.
Proof.
  unfold no_digit. apply Forall_dec. intro c. destruct (is_digit c); [right | left];
    congruence.
Qed.

(** X2.  For a non-empty string name and version, the fallback is taken
    exactly when the version holds no digit: then the result is
    ["<name> <version>"] with ["0.0.1"] and one warning; with a digit
    anywhere in the version no warning is logged and the version returned
    is cut out of the text. *)
Theorem get_name_version_fallback_iff_no_digit (info : dict) (n v : str) :
  get info name_key = VStr n -> n <> [] ->
  get info version_key = VStr v -> v <> [] ->
  (no_digit v ->
   get_name_version info =
     (Ok (n ++ s " " ++ v, DEFAULT_VERSION), [no_version_warning v])) /\
  (~ no_digit v ->
   exists name start stop,
     get_name_version info = (Ok (name, slice (version_subject v) start stop), []) /\
     start < stop /\ stop <= length v).
Proof.
  intros Hn Hne Hv Hve.
  assert (Tn : truthy (VStr n) = true) by now destruct n.
  assert (Tv : truthy (VStr v) = true) by now destruct v.
  unfold get_name_version. fold name_key version_key. rewrite Hn, Hv, Tn, Tv.
  cbn [negb]. fold (version_subject v). split.
  - intro H. apply version_subject_no_digit in H.
    now rewrite (no_digit_finditer_nil H).
  - intro H.
    destruct (rev (finditer version_re (version_subject v))) as [|[start stop] l] eqn:E.
    + exfalso. apply H. apply version_subject_no_digit. apply finditer_nil_no_digit.
      rewrite <- (rev_involutive (finditer _ _)), E. reflexivity.
    + destruct (finditer_last_span _ E) as (_ & H2 & H3 & _).
      rewrite version_subject_length in H3. eauto 10.
Qed.

Lemma get_name_version_fallback_iff_no_digit_witness :
  get_name_version (info_nv "App" "beta") =
    (Ok (s "App" ++ s " " ++ s "beta", DEFAULT_VERSION), [no_version_warning (s "beta")]).
Proof.
  apply (get_name_version_fallback_iff_no_digit (info_nv "App" "beta") eq_refl
           ltac:(discriminate) eq_refl ltac:(discriminate)).
  unfold no_digit. vm_compute. repeat constructor.
Defined.

Lemma join_nonempty_head (n : str) (rest : list str) :
  n <> [] ->
  exists tail, join (s " ") (filter nonempty (n :: rest)) = n ++ tail /\
               (tail = [] \/ exists t, tail = " "%char :: t).
Proof.
  intro Hn. cbn [filter]. assert (E : nonempty n = true) by now destruct n.
  rewrite E. destruct (filter nonempty rest) as [|r rs].
  - exists []. split; [symmetry; apply app_nil_r | now left].
  - exists (s " " ++ join (s " ") (r :: rs)). split; [reflexivity|]. right.
    eexists. reflexivity.
Qed.

(** X3.  The name is only ever extended: for a string name, the name
    returned is the given name, alone or followed by a space and more text. *)
Theorem get_name_version_keeps_name (info : dict) (n name version : str) (log : list str) :
  get info name_key = VStr n ->
  get_name_version info = (Ok (name, version), log) ->
  exists tail, name = n ++ tail /\ (tail = [] \/ exists t, tail = " "%char :: t).
Proof.
  intros Hn H. unfold get_name_version in H. fold name_key version_key in H.
  rewrite Hn in H.
  destruct (truthy (VStr n)) eqn:Tn; cbn [negb] in H; [|discriminate H].
  assert (Hne : n <> []) by (intros ->; discriminate Tn).
  destruct (truthy (get info version_key)); cbn [negb] in H; [|discriminate H].
  destruct (get info version_key) as [| | |v|]; try discriminate H.
  destruct (rev _) as [|[start stop] l].
  - inversion H. exists (s " " ++ v). split; [reflexivity | right; eexists; reflexivity].
  - assert (E : name = join (s " ") (filter nonempty
                     [n; strip (s " .-_") (firstn start v);
                      strip (s " .-_") (skipn stop v)])) by congruence.
    rewrite E. now apply join_nonempty_head.
Qed.

Lemma get_name_version_keeps_name_witness :
  exists tail, s "x 1.0-rc" = s "x" ++ tail /\ (tail = [] \/ exists t, tail = " "%char :: t).
Proof.
  apply (get_name_version_keeps_name (info_nv "x" "1.0-rc1-2.0")
           (version := s "1.2.0") (log := []) eq_refl).
  reflexivity.
Defined.

(** ** [make_app_name] and [get_bundle_app_name]: stability *)

Lemma token_char_lower c :
  lower_digit c || ascii_eqb c "-" = true -> char_lower c = c.
Proof. all_chars c. Qed.

Lemma tok_chars trail prev x :
  tok trail prev x = true ->
  Forall (fun c => lower_digit c || ascii_eqb c "-" = true) x.
Proof.
  revert prev. induction x as [|c x IH]; intros prev H; [constructor|].
  cbn [tok] in H. destruct (ascii_eqb c "-") eqn:E;
    apply andb_true_iff in H as [Hc H]; constructor;
    try (eapply IH; exact H).
  - rewrite E. apply orb_true_r.
  - now rewrite Hc.
Qed.

Lemma tok_lower trail prev x : tok trail prev x = true -> lower x = x.
Proof.
  intro H. apply tok_chars in H. unfold lower.
  induction H as [|c x Hc _ IH]; [reflexivity|].
  simpl. now rewrite IH, (token_char_lower _ Hc).
Qed.

Lemma tok_collapse trail x : forall prev in_run,
  tok trail prev x = true -> (in_run = true -> prev = true) ->
  collapse_runs in_run x = x.
Proof.
  induction x as [|c x IH]; intros prev in_run H Hr; [reflexivity|].
  cbn [tok] in H. cbn [collapse_runs]. destruct (ascii_eqb c "-") eqn:E.
  - apply ascii_eqb_eq in E. subst c. apply andb_true_iff in H as [Hp H].
    change (is_alnum "-") with false. cbv iota.
    destruct in_run.
    + rewrite Hr in Hp by reflexivity. discriminate Hp.
    + f_equal. eapply IH; [exact H | reflexivity].
  - apply andb_true_iff in H as [Hc H].
    rewrite (lower_digit_alnum _ Hc). f_equal. eapply IH; [exact H | discriminate].
Qed.

Lemma tok_lstrip x : tok false true x = true -> lstrip (s "-") x = x.
Proof.
  destruct x as [|c x]; [reflexivity|]. cbn [tok lstrip]. rewrite mem_hyphen.
  destruct (ascii_eqb c "-"); [discriminate | reflexivity].
Qed.

Lemma tok_rstrip x : forall prev,
  tok false prev x = true -> x <> [] -> rstrip (s "-") x = x.
Proof.
  induction x as [|c x IH]; intros prev H Hne; [contradiction|].
  rewrite rstrip_cons, mem_hyphen. cbn [tok] in H.
  destruct x as [|d x].
  - rewrite rstrip_nil. destruct (ascii_eqb c "-"); [|reflexivity].
    cbn [tok] in H. rewrite andb_false_r in H. discriminate H.
  - destruct (ascii_eqb c "-"); apply andb_true_iff in H as [_ H];
      erewrite IH by (try exact H; discriminate); reflexivity.
Qed.

Lemma tok_spec_app_name x : tok false true x = true -> spec_app_name x = x.
Proof.
  intro H. unfold spec_app_name, strip.
  rewrite (@tok_lower false true x H).
  rewrite (@tok_collapse false x true false H) by discriminate.
  rewrite (@tok_lstrip x H). apply (@tok_rstrip x true H).
  intros ->. discriminate H.
Qed.

(** X4.  [make_app_name] is idempotent: a name it has produced is left
    as it is by a second pass, whatever the labels. *)
Theorem make_app_name_idempotent (raw label label' app : str) :
  make_app_name raw label = Ok app -> make_app_name app label' = Ok app.
Proof.
  intro H. apply make_app_name_tok in H.
  rewrite make_app_name_eq, (@tok_spec_app_name app H).
  destruct app; [discriminate H | reflexivity].
Qed.

Lemma make_app_name_idempotent_witness :
  make_app_name (s "my-app-2024") (s "again") = Ok (s "my-app-2024").
Proof.
  apply (make_app_name_idempotent (s "My App!!2024") (s "Name")). reflexivity.
Defined.

Lemma tok_no_dot trail prev x : tok trail prev x = true -> mem_char "." x = false.
Proof.
  intro H. apply tok_chars in H. induction H as [|c x Hc _ IH]; [reflexivity|].
  unfold mem_char in *. cbn [existsb]. rewrite IH, orb_false_r.
  destruct (ascii_eqb "." c) eqn:E; [|reflexivity].
  apply ascii_eqb_eq in E. subst c. discriminate Hc.
Qed.

(** Whatever [get_bundle_app_name] returns as [app_name] is a valid name
    without a dot. *)
Lemma bundle_app_name_shape default info name bundle app_name :
  get_bundle_app_name default info name = Ok (bundle, app_name) ->
  valid_app_name app_name = true /\ mem_char "." app_name = false.
Proof.
  unfold get_bundle_app_name. intro H.
  destruct (get info (s "reverse_domain_identifier")) as [| |z|rdi|items];
    try discriminate H.
  - destruct (make_app_name name _) as [a|e] eqn:Em; [|discriminate H].
    cbn [bind] in H. inversion H; subst. apply make_app_name_tok in Em.
    split; [now apply tok_valid | now apply tok_no_dot in Em].
  - destruct (mem_char "." rdi) eqn:Hdot; cbn [negb] in H; [|discriminate H].
    destruct (rsplit1_some _ _ Hdot) as (a & b & E & -> & Hb).
    unfold rsplit_once in H. rewrite E, fullmatch_app_name in H.
    destruct (valid_app_name b) eqn:Ev; cbn [negb] in H.
    + inversion H; subst. auto.
    + destruct (make_app_name b _) as [a'|e] eqn:Em; [|discriminate H].
      cbn [bind] in H. inversion H; subst. apply make_app_name_tok in Em.
      split; [now apply tok_valid | now apply tok_no_dot in Em].
  - destruct (negb _); discriminate H.
Qed.

(** X5.  The identity is stable: written back as
    [reverse_domain_identifier], the bundle and app name that
    [get_bundle_app_name] returned are returned again, unchanged. *)
Theorem get_bundle_app_name_stable (default default' : str) (info : dict)
        (name name' bundle app_name : str) :
  get_bundle_app_name default info name = Ok (bundle, app_name) ->
  get_bundle_app_name default'
    [(rdi_key, VStr (bundle ++ s "." ++ app_name))] name' = Ok (bundle, app_name).
Proof.
  intro H. apply bundle_app_name_shape in H as [Hv Hd].
  unfold get_bundle_app_name. fold rdi_key.
  change (get [(rdi_key, VStr (bundle ++ s "." ++ app_name))] rdi_key)
    with (if str_eqb rdi_key rdi_key then VStr (bundle ++ s "." ++ app_name) else VNone).
  rewrite str_eqb_refl.
  assert (Hm : mem_char "." (bundle ++ s "." ++ app_name) = true).
  { apply mem_char_In. apply in_or_app. right. now left. }
  rewrite Hm. cbn [negb]. unfold rsplit_once.
  assert (R : rsplit1 "." (bundle ++ s "." ++ app_name) = Some (bundle, app_name))
    by (apply rsplit1_spec; auto).
  rewrite R, fullmatch_app_name, Hv. reflexivity.
Qed.

Lemma get_bundle_app_name_stable_witness :
  get_bundle_app_name (s "org.example")
    [(rdi_key, VStr (s "com.example" ++ s "." ++ s "my-app"))] (s "y")
  = Ok (s "com.example", s "my-app").
Proof.
  apply (get_bundle_app_name_stable (s "io.continuum") (s "org.example")
           [(rdi_key, VStr (s "com.example.my app!"))] (s "x") (s "y")).
  reflexivity.
Defined.

(** ** [create_install_options_list]: the names *)

Lemma filter_keeps_distinct {A B : Type} (keep : A -> bool) (key : A -> B) :
  forall rows, NoDup (map key rows) -> NoDup (map key (filter keep rows)).
Proof.
  intros rows. induction rows as [|row rows IH]; cbn [filter map]; intro H.
  - constructor.
  - apply NoDup_cons_iff in H as [Hrow Hrows].
    destruct (keep row); cbn [map]; [|now apply IH].
    apply NoDup_cons; [|now apply IH].
    rewrite in_map_iff. intros (x & Hx & Hin). apply Hrow.
    rewrite <- Hx. apply in_map. now apply filter_In in Hin.
Qed.

Lemma priority_names_distinct info : NoDup (map fst (priority_table info)).
Proof.
  unfold priority_table. cbn [map fst].
  repeat (constructor; [cbn [In]; intros H;
    repeat (destruct H as [H|H]; [discriminate H|]); exact H|]).
  constructor.
Qed.

(** X6.  The options returned have pairwise different names, and there
    are at least one and at most six of them. *)
Theorem install_option_names_unique (path_of : str -> Path) (fs : FS)
        (info : dict) (opts : list install_option) :
  create_install_options_list path_of fs info = Ok opts ->
  NoDup (option_names opts) /\ 1 <= length opts <= 6.
Proof.
  intro H. pose proof (create_names _ _ _ H) as Hn. split.
  - rewrite Hn. apply filter_keeps_distinct, priority_names_distinct.
  - assert (Hl : length opts = length (option_names opts))
      by (unfold option_names; now rewrite length_map).
    rewrite Hl, Hn, length_map. split.
    + assert (Hin : In (clear_name, true) (filter snd (priority_table info))).
      { apply filter_In. split; [|reflexivity].
        unfold priority_table. cbn [In]. auto 10. }
      destruct (filter snd (priority_table info)); [contradiction | simpl; lia].
    + eapply Nat.le_trans; [apply filter_length_le|]. reflexivity.
Qed.

Lemma install_option_names_unique_witness :
  NoDup (option_names example_options) /\ 1 <= length example_options <= 6.
Proof.
  apply (install_option_names_unique simple_path_of example_fs example_info).
  vm_compute. reflexivity.
Defined.

(** ** [_convert_into_archive]: when it succeeds and what failure leaves *)

Lemma convert_ok self src dst fs :
  is_dir fs src = true -> is_dir fs dst = true ->
  is_dir fs (archive_path_of self dst) = false ->
  _convert_into_archive self src dst fs =
    (Ok (archive_path_of self dst),
     fun q => if under src q then None else archived self src dst fs q).
Proof.
  intros Hs Hd Ha. unfold _convert_into_archive, mbind.
  rewrite (make_tar_gz_ok self src dst fs Hs Hd Ha). fold (archived self src dst fs).
  assert (Hne : src <> archive_path_of self dst).
  { intro E. rewrite <- E in Ha. congruence. }
  assert (Hsrc : archived self src dst fs src = Some NDir).
  { unfold archived. rewrite !put_other by assumption. now apply is_dir_iff. }
  unfold exists_. replace (archived self src dst fs (archive_path_of self dst))
    with (Some (NFile (TarGz (tar_members
                       (put fs (archive_path_of self dst) (NFile (Raw [])))
                       (archive_path_of self dst) src (path_name src)))))
    by (symmetry; apply put_same).
  cbn [negb]. unfold rmtree, ret. now rewrite Hsrc.
Qed.

(** X7.  [_convert_into_archive] succeeds exactly when [src] and [dst]
    are directories and no directory sits at the archive path.  When it
    fails, the file system is left as it was (in particular [src] is not
    removed).  The error is [NotADirectoryError] for [src] when [src] is
    not a directory, and for [dst] when only [dst] is not; otherwise a
    directory sits at the archive path and the error is the one of opening
    it for writing, whatever class the platform gives it: the
    [RuntimeError] of the source is never raised. *)
Theorem convert_into_archive_outcome (self : Payload) (src dst : Path) (fs : FS) :
  (is_dir fs src && is_dir fs dst && negb (is_dir fs (archive_path_of self dst)) = true <->
   exists fs', _convert_into_archive self src dst fs = (Ok (archive_path_of self dst), fs')) /\
  (forall e fs',
     _convert_into_archive self src dst fs = (Raise e, fs') ->
     fs' = fs /\
     (forall msg, e <> RuntimeError msg) /\
     ((is_dir fs src = false /\ e = NotADirectoryError src) \/
      (is_dir fs src = true /\ is_dir fs dst = false /\ e = NotADirectoryError dst) \/
      (is_dir fs src = true /\ is_dir fs dst = true /\
       is_dir fs (archive_path_of self dst) = true /\
       fst (open_w (archive_path_of self dst) fs) = Raise e))).
Proof.
  destruct (is_dir fs src) eqn:Hs.
  2:{ assert (E : _convert_into_archive self src dst fs = (Raise (NotADirectoryError src), fs)).
      { unfold _convert_into_archive, mbind, make_tar_gz. now rewrite Hs. }
      rewrite E. split.
      - split; [discriminate | intros [fs' H]; discriminate H].
      - intros e fs' H. inversion H. split; [reflexivity|].
        split; [discriminate | now left]. }
  destruct (is_dir fs dst) eqn:Hd.
  2:{ assert (E : _convert_into_archive self src dst fs = (Raise (NotADirectoryError dst), fs)).
      { unfold _convert_into_archive, mbind, make_tar_gz. now rewrite Hs, Hd. }
      rewrite E. split.
      - split; [discriminate | intros [fs' H]; discriminate H].
      - intros e fs' H. inversion H. split; [reflexivity|].
        split; [discriminate | right; left; now repeat split]. }
  destruct (is_dir fs (archive_path_of self dst)) eqn:Ha.
  - assert (Eo : open_w (archive_path_of self dst) fs
                 = (Raise (IsADirectoryError (archive_path_of self dst)), fs)).
    { unfold open_w. apply is_dir_iff in Ha. now rewrite Ha. }
    assert (E : _convert_into_archive self src dst fs =
                (Raise (IsADirectoryError (archive_path_of self dst)), fs)).
    { unfold _convert_into_archive, mbind, make_tar_gz. rewrite Hs, Hd. cbn [negb].
      fold (archive_path_of self dst). unfold tar_create, mbind, open_w.
      apply is_dir_iff in Ha. now rewrite Ha. }
    rewrite E. split.
    + split; [discriminate | intros [fs' H]; discriminate H].
    + intros e fs' H. injection H as <- <-. split; [reflexivity|].
      split; [discriminate|]. right; right. rewrite Eo. now repeat split.
  - rewrite (convert_ok self src dst fs Hs Hd Ha). split.
    + split; [eauto | reflexivity].
    + intros e fs' H. discriminate H.
Qed.

Lemma convert_cases self src dst fs :
  (is_dir fs src = true /\ is_dir fs dst = true /\
   is_dir fs (archive_path_of self dst) = false) \/
  (exists e, _convert_into_archive self src dst fs = (Raise e, fs)).
Proof.
  destruct (is_dir fs src) eqn:Hs.
  2:{ right. eexists. unfold _convert_into_archive, mbind, make_tar_gz. now rewrite Hs. }
  destruct (is_dir fs dst) eqn:Hd.
  2:{ right. eexists. unfold _convert_into_archive, mbind, make_tar_gz.
      now rewrite Hs, Hd. }
  destruct (is_dir fs (archive_path_of self dst)) eqn:Ha; [|now left].
  right. eexists. unfold _convert_into_archive, mbind, make_tar_gz. rewrite Hs, Hd.
  cbn [negb]. fold (archive_path_of self dst). unfold tar_create, mbind, open_w.
  apply is_dir_iff in Ha. now rewrite Ha.
Qed.

Lemma under_child (src dst : Path) (name : str) :
  under src (child dst name) = true <-> src = child dst name \/ under src dst = true.
Proof.
  rewrite !under_iff. unfold child. split.
  - intros [[|c rel] E]; [left; now symmetry|]. right. exists rel.
    simpl in E. now inversion E.
  - intros [->|[rel ->]]; [now exists [] | now exists (name :: rel)].
Qed.

(** X8.  After a conversion that succeeded, the archive is still there
    exactly when [dst] does not lie inside [src]: with [dst] inside [src]
    the archive is removed together with [src]. *)
Theorem archive_removed_with_src_when_inside (self : Payload) (src dst p : Path) (fs fs' : FS) :
  _convert_into_archive self src dst fs = (Ok p, fs') ->
  p = archive_path_of self dst /\
  (under src dst = true -> fs' p = None) /\
  (under src dst = false -> exists members, fs' p = Some (NFile (TarGz members))).
Proof.
  intro H.
  destruct (convert_cases self src dst fs) as [Hc|Hc].
  2:{ destruct Hc as [e Hc]. rewrite Hc in H. discriminate H. }
  destruct Hc as (Hs & Hd & Ha). rewrite (convert_ok self src dst fs Hs Hd Ha) in H.
  inversion H; subst p fs'. clear H. split; [reflexivity|].
  assert (Hne : src <> archive_path_of self dst).
  { intro E. rewrite <- E in Ha. congruence. }
  split; intro Hu.
  - assert (U : under src (archive_path_of self dst) = true)
      by (apply under_child; now right).
    now rewrite U.
  - assert (U : under src (archive_path_of self dst) = false).
    { destruct (under src (archive_path_of self dst)) eqn:U; [|reflexivity].
      apply under_child in U as [U|U]; [destruct (Hne U) | congruence]. }
    rewrite U. unfold archived. rewrite put_same. eauto.
Qed.

Lemma archive_removed_with_src_when_inside_witness :
  exists fs',
    _convert_into_archive (new_Payload []) [s "a"] [s "b"; s "a"] nested_fs
      = (Ok [s "payload.tar.gz"; s "b"; s "a"], fs') /\
    fs' [s "payload.tar.gz"; s "b"; s "a"] = None.
Proof.
  pose proof (convert_ok (new_Payload []) [s "a"] [s "b"; s "a"] nested_fs
                eq_refl eq_refl eq_refl) as E.
  destruct (archive_removed_with_src_when_inside _ _ _ _ E) as (_ & H & _).
  eexists. split; [exact E | apply H; reflexivity].
Defined.

(** ** [_create_layout]: missing parents, and the archive of a fresh layout *)

Lemma under_length p q : under p q = true -> length p <= length q.
Proof.
  intro H. apply under_iff in H as [rel ->]. rewrite length_app. lia.
Qed.

Lemma under_refl p : under p p = true.
Proof. apply under_iff. now exists []. Qed.

Lemma under_cons q c up : under q up = true -> under q (c :: up) = true.
Proof.
  intro H. apply under_iff in H as [rel ->]. apply under_iff. now exists (c :: rel).
Qed.

Lemma not_under_longer p q : length q < length p -> under p q = false.
Proof.
  intro H. destruct (under p q) eqn:E; [|reflexivity].
  apply under_length in E. lia.
Qed.

(** [mkdir(parents=True, exist_ok=True)] where nothing blocks the way: the
    directory is there afterwards, with its parent if it had to be made; only
    places on the way change, and no directory is lost. *)
Lemma mkdir_parents_clear_way p : forall fs,
  clear_way fs p = true ->
  exists fs',
    mkdir_parents_exist_ok p fs = (Ok tt, fs') /\
    is_dir fs' p = true /\
    (fs p = None -> p <> [] -> is_dir fs' (parent p) = true) /\
    (forall q, under q p = false -> fs' q = fs q) /\
    (forall q, is_dir fs q = true -> is_dir fs' q = true).
Proof.
  induction p as [|c up IH]; intros fs Hc.
  - cbn [clear_way] in Hc. exists fs. rewrite mkdir_parents_existing by assumption.
    repeat split; auto.
  - cbn [clear_way] in Hc. apply andb_true_iff in Hc as [Hp Hup].
    destruct (is_dir fs (c :: up)) eqn:D.
    { exists fs. rewrite mkdir_parents_existing by assumption.
      repeat split; auto. intro E. apply is_dir_iff in D. congruence. }
    cbn [orb] in Hp. unfold exists_ in Hp.
    destruct (fs (c :: up)) as [n|] eqn:E; [discriminate Hp|]. clear Hp.
    destruct (fs up) as [[|d]|] eqn:Eu.
    + exists (put fs (c :: up) NDir).
      rewrite mkdir_parents_fresh; [|discriminate|assumption|now apply is_dir_iff].
      repeat split.
      * apply is_dir_iff, put_same.
      * intros _ _. apply is_dir_iff. cbn [parent tl].
        rewrite put_other; [assumption|]. intro E'. symmetry in E'.
        exact (@child_neq up c E').
      * intros q Hq. apply put_other. intros ->. now rewrite under_refl in Hq.
      * intros q Hq. apply is_dir_iff. rewrite put_other; [now apply is_dir_iff|].
        intros ->. apply is_dir_iff in Hq. congruence.
    + exfalso. destruct up as [|c' up'].
      * cbn [clear_way] in Hup. apply is_dir_iff in Hup. congruence.
      * cbn [clear_way] in Hup. apply andb_true_iff in Hup as [Hup _].
        unfold is_dir, exists_ in Hup. rewrite Eu in Hup. discriminate Hup.
    + destruct (IH fs Hup) as (fs1 & H1 & D1 & _ & F1 & M1).
      assert (E1 : fs1 (c :: up) = None).
      { rewrite F1; [assumption|]. apply not_under_longer. simpl. lia. }
      exists (put fs1 (c :: up) NDir).
      assert (Hm : mkdir_parents_exist_ok (c :: up) fs = (Ok tt, put fs1 (c :: up) NDir)).
      { cbn [mkdir_parents_exist_ok]. unfold os_mkdir at 1. rewrite E, Eu.
        unfold mbind. rewrite H1. unfold mkdir_exist_ok, os_mkdir.
        apply is_dir_iff in D1. now rewrite E1, D1. }
      repeat split.
      * exact Hm.
      * apply is_dir_iff, put_same.
      * intros _ _. apply is_dir_iff. cbn [parent tl].
        rewrite put_other; [now apply is_dir_iff|]. intro E'. symmetry in E'.
        exact (@child_neq up c E').
      * intros q Hq. rewrite put_other.
        -- apply F1. destruct (under q up) eqn:U; [|reflexivity].
           apply (under_cons _ c) in U. congruence.
        -- intros ->. now rewrite under_refl in Hq.
      * intros q Hq. apply M1 in Hq. apply is_dir_iff.
        rewrite put_other; [now apply is_dir_iff|].
        intros ->. apply is_dir_iff in Hq. congruence.
Qed.

(** X9.  [_create_layout] makes the missing directories above
    [external]: if no file blocks the way from the root of the file system to
    [root/external] and neither [base] nor [pkgs] is there, the layout is
    created, [root] itself included when [external] was missing; only places
    on the way to [pkgs] change, and no directory is lost. *)
Theorem create_layout_makes_parents (self : Payload) (root : Path) (fs : FS) :
  clear_way fs (external_of root) = true ->
  fs (base_of root) = None -> fs (pkgs_of root) = None ->
  exists fs',
    _create_layout self root fs = (Ok (layout_of root), fs') /\
    is_dir fs' (external_of root) = true /\
    is_dir fs' (base_of root) = true /\
    is_dir fs' (pkgs_of root) = true /\
    (fs (external_of root) = None -> is_dir fs' root = true) /\
    (forall q, under q (pkgs_of root) = false -> fs' q = fs q) /\
    (forall q, is_dir fs q = true -> is_dir fs' q = true).
Proof.
  intros Hc Hb Hk.
  destruct (mkdir_parents_clear_way _ _ Hc) as (fs1 & H1 & D1 & P1 & F1 & M1).
  assert (Eb : fs1 (base_of root) = None).
  { rewrite F1; [assumption|]. apply not_under_longer. simpl. lia. }
  assert (Ek : fs1 (pkgs_of root) = None).
  { rewrite F1; [assumption|]. apply not_under_longer. simpl. lia. }
  destruct (create_layout_after_external self root fs H1) as (_ & _ & C).
  exists (put (put fs1 (base_of root) NDir) (pkgs_of root) NDir).
  assert (Hbk : base_of root <> pkgs_of root).
  { intro E. symmetry in E. now apply child_neq in E. }
  assert (Hdir : forall q, is_dir fs1 q = true ->
            is_dir (put (put fs1 (base_of root) NDir) (pkgs_of root) NDir) q = true).
  { intros q Hq. apply is_dir_iff in Hq. apply is_dir_iff.
    rewrite !put_other; [assumption | congruence | congruence]. }
  repeat split.
  - now apply C.
  - now apply Hdir.
  - apply is_dir_iff. rewrite put_other by assumption. apply put_same.
  - apply is_dir_iff, put_same.
  - intro He. apply Hdir. apply (P1 He). discriminate.
  - intros q Hq. rewrite !put_other.
    + apply F1. destruct (under q (external_of root)) eqn:U; [|reflexivity].
      apply (under_cons _ (s "base")) in U. apply (under_cons _ (s "pkgs")) in U.
      unfold pkgs_of, base_of, child in Hq. congruence.
    + intros ->. unfold pkgs_of, child in Hq.
      pose proof (@under_cons (base_of root) (s "pkgs") (base_of root) (under_refl _)) as U.
      congruence.
    + intros ->. now rewrite under_refl in Hq.
  - intros q Hq. apply Hdir. now apply M1.
Qed.

Lemma create_layout_makes_parents_witness :
  exists fs',
    _create_layout (new_Payload []) [s "payload"; s "tmp"] bare_fs
      = (Ok (layout_of [s "payload"; s "tmp"]), fs') /\
    is_dir fs' [s "payload"; s "tmp"] = true /\
    is_dir fs' (pkgs_of [s "payload"; s "tmp"]) = true.
Proof.
  destruct (create_layout_makes_parents (new_Payload []) [s "payload"; s "tmp"] bare_fs
              eq_refl eq_refl eq_refl) as (fs' & H & _ & _ & Hk & Hr & _).
  exists fs'. repeat split; [exact H | apply Hr; reflexivity | exact Hk].
Defined.

(** A layout that was created consists of three directories. *)
Lemma create_layout_result self root fs layout fs' :
  _create_layout self root fs = (Ok layout, fs') ->
  layout = layout_of root /\
  is_dir fs' (external_of root) = true /\
  is_dir fs' (base_of root) = true /\
  is_dir fs' (pkgs_of root) = true.
Proof.
  intro H.
  destruct (mkdir_parents_exist_ok (external_of root) fs) as [[[]|e] fs1] eqn:H1.
  2:{ rewrite create_layout_unfold in H. unfold mbind at 1 in H. rewrite H1 in H.
      discriminate H. }
  pose proof (mkdir_parents_dir _ _ H1) as D.
  destruct (create_layout_after_external self root fs H1) as (A & B & C).
  destruct (fs1 (base_of root)) as [n|] eqn:Hb.
  { rewrite A in H by discriminate. discriminate H. }
  destruct (fs1 (pkgs_of root)) as [n|] eqn:Hk.
  { rewrite B in H by (reflexivity || discriminate). discriminate H. }
  rewrite C in H by reflexivity. inversion H; subst layout fs'. clear H.
  assert (Hbk : base_of root <> pkgs_of root).
  { intro E. symmetry in E. now apply child_neq in E. }
  repeat split; apply is_dir_iff.
  - rewrite !put_other; [now apply is_dir_iff| |].
    + intro E. symmetry in E. now apply child_neq in E.
    + intro E. symmetry in E. now apply grandchild_neq in E.
  - rewrite put_other by assumption. apply put_same.
  - apply put_same.
Qed.

(** X10.  Archiving a layout just created, as [prepare] does with
    [base] and [external]: unless a directory sits at the archive path, the
    conversion succeeds; afterwards [base] and [pkgs] are gone, [external] is
    still a directory and holds the archive, whose members include [base] and
    [base/pkgs]. *)
Theorem archive_of_fresh_layout (self : Payload) (root : Path) (fs fs1 : FS)
        (layout : PayloadLayout) :
  _create_layout self root fs = (Ok layout, fs1) ->
  is_dir fs1 (archive_path_of self (external_of root)) = false ->
  exists fs2 members,
    _convert_into_archive self (layout_base layout) (layout_external layout) fs1
      = (Ok (archive_path_of self (external_of root)), fs2) /\
    fs2 (base_of root) = None /\
    fs2 (pkgs_of root) = None /\
    is_dir fs2 (external_of root) = true /\
    fs2 (archive_path_of self (external_of root)) = Some (NFile (TarGz members)) /\
    members [s "base"] = Some NDir /\
    members [s "pkgs"; s "base"] = Some NDir.
Proof.
  intros H Ha. apply create_layout_result in H as (-> & De & Db & Dk).
  cbn [layout_base layout_external layout_of].
  set (ap := archive_path_of self (external_of root)) in *.
  assert (Hne : base_of root <> ap).
  { intro E. rewrite <- E in Ha. congruence. }
  assert (Hke : pkgs_of root <> ap).
  { unfold ap, archive_path_of, pkgs_of, base_of, child. intro E.
    apply (f_equal (@length str)) in E. simpl in E. lia. }
  assert (Hee : external_of root <> ap).
  { intro E. symmetry in E. now apply child_neq in E. }
  assert (Ue : under (base_of root) (external_of root) = false).
  { apply not_under_longer. simpl. lia. }
  assert (Ua : under (base_of root) ap = false).
  { destruct (under (base_of root) ap) eqn:U; [|reflexivity].
    apply under_child in U as [U|U]; [destruct (Hne U) | congruence]. }
  rewrite (convert_ok self (base_of root) (external_of root) fs1 Db De Ha).
  fold ap. eexists. eexists. repeat split.
  - now rewrite under_refl.
  - unfold pkgs_of, child.
    now rewrite (@under_cons (base_of root) (s "pkgs") (base_of root) (under_refl _)).
  - apply is_dir_iff. rewrite Ue. unfold archived. fold ap.
    rewrite !put_other by assumption. now apply is_dir_iff.
  - rewrite Ua. unfold archived. fold ap. apply put_same.
  - change [s "base"] with ([] ++ [path_name (base_of root)]).
    rewrite tar_members_at. cbn [app].
    apply path_eqb_neq in Hne. rewrite Hne.
    rewrite put_other by (now apply path_eqb_neq). now apply is_dir_iff.
  - change [s "pkgs"; s "base"] with ([s "pkgs"] ++ [path_name (base_of root)]).
    rewrite tar_members_at.
    change ([s "pkgs"] ++ base_of root) with (pkgs_of root).
    apply path_eqb_neq in Hke. rewrite Hke.
    rewrite put_other by (now apply path_eqb_neq). now apply is_dir_iff.
Qed.

Lemma fresh_layout_at_root :
  exists fs1,
    _create_layout (new_Payload []) [] example_fs = (Ok (layout_of []), fs1) /\
    is_dir fs1 (archive_path_of (new_Payload []) (external_of [])) = false.
Proof.
  destruct (external_step [] example_fs eq_refl (or_introl eq_refl)) as (H1 & _ & _).
  destruct (create_layout_after_external (new_Payload []) [] example_fs H1) as (_ & _ & C).
  eexists. split; [apply C; reflexivity | reflexivity].
Defined.

Lemma archive_of_fresh_layout_witness :
  exists fs1 fs2,
    _create_layout (new_Payload []) [] example_fs = (Ok (layout_of []), fs1) /\
    _convert_into_archive (new_Payload []) (base_of []) (external_of []) fs1
      = (Ok [s "payload.tar.gz"; s "external"], fs2) /\
    fs2 (base_of []) = None.
Proof.
  destruct (fresh_layout_at_root) as (fs1 & H1 & Ha).
  destruct (archive_of_fresh_layout _ _ _ H1 Ha) as (fs2 & members & H2 & Hb & _).
  exists fs1, fs2. repeat split; assumption.
Defined.

(** ** [render_template_files] *)

Lemma only_new_dirs_refl fs : only_new_dirs fs fs.
Proof. intro q. now left. Qed.

Lemma only_new_dirs_trans fs1 fs2 fs3 :
  only_new_dirs fs1 fs2 -> only_new_dirs fs2 fs3 -> only_new_dirs fs1 fs3.
Proof.
  intros H1 H2 q. destruct (H1 q) as [E1|[E1 E1']], (H2 q) as [E2|[E2 E2']].
  - left. congruence.
  - right. split; congruence.
  - right. split; congruence.
  - congruence.
Qed.

Lemma os_mkdir_only_new_dirs p fs r fs' :
  os_mkdir p fs = (r, fs') -> only_new_dirs fs fs'.
Proof.
  unfold os_mkdir. intro H.
  destruct (fs p) as [n|] eqn:E.
  { inversion H. apply only_new_dirs_refl. }
  destruct p as [|c up]; [inversion H; apply only_new_dirs_refl|].
  destruct (fs up) as [[|d]|]; inversion H; try apply only_new_dirs_refl.
  intro q. unfold put. destruct (path_eqb q (c :: up)) eqn:Eq; [|now left].
  apply path_eqb_eq in Eq. subst q. now right.
Qed.

Lemma mkdir_exist_ok_only_new_dirs p fs r fs' :
  mkdir_exist_ok p fs = (r, fs') -> only_new_dirs fs fs'.
Proof.
  unfold mkdir_exist_ok. destruct (os_mkdir p fs) as [[[]|e] fs1] eqn:E; intro H.
  - inversion H; subst. eapply os_mkdir_only_new_dirs; eauto.
  - apply os_mkdir_only_new_dirs in E.
    destruct e; try (destruct (is_dir fs1 p)); inversion H; subst; exact E.
Qed.

Lemma mkdir_parents_only_new_dirs p : forall fs r fs',
  mkdir_parents_exist_ok p fs = (r, fs') -> only_new_dirs fs fs'.
Proof.
  induction p as [|c up IH]; intros fs r fs' H; cbn [mkdir_parents_exist_ok] in H.
  - destruct (os_mkdir [] fs) as [[[]|e] fs1] eqn:E;
      apply os_mkdir_only_new_dirs in E.
    + inversion H; subst. exact E.
    + destruct e; try (destruct (is_dir fs1 [])); inversion H; subst; exact E.
  - destruct (os_mkdir (c :: up) fs) as [[[]|e] fs1] eqn:E;
      apply os_mkdir_only_new_dirs in E.
    + inversion H; subst. exact E.
    + assert (Hrec : (_ <~ mkdir_parents_exist_ok up ;; mkdir_exist_ok (c :: up)) fs1
                     = (r, fs') -> only_new_dirs fs fs').
      { unfold mbind. intro H'.
        destruct (mkdir_parents_exist_ok up fs1) as [[[]|e'] fs2] eqn:E2;
          apply IH in E2.
        - apply mkdir_exist_ok_only_new_dirs in H'.
          eauto using only_new_dirs_trans.
        - inversion H'; subst. eauto using only_new_dirs_trans. }
      destruct e; try (exact (Hrec H));
        destruct (is_dir fs1 (c :: up)); inversion H; subst; exact E.
Qed.

Lemma only_new_dirs_files fs fs' q d :
  only_new_dirs fs fs' -> (fs' q = Some (NFile d) <-> fs q = Some (NFile d)).
Proof.
  intro H. destruct (H q) as [E|[E E']]; rewrite ?E, ?E'; [tauto|].
  split; discriminate.
Qed.

Lemma read_text_ok p fs text fs' :
  read_text p fs = (Ok text, fs') ->
  fs' = fs /\ exists raw, fs p = Some (NFile (Raw raw)) /\ text = universal_newlines raw.
Proof.
  unfold read_text. destruct (fs p) as [[|[raw|m]]|]; intro H; inversion H.
  split; [reflexivity|]. now exists raw.
Qed.

Lemma write_text_ok p data newline fs fs' :
  write_text p data newline fs = (Ok tt, fs') ->
  legal_newline newline = true /\
  fs' p = Some (NFile (Raw (translate_newlines newline data))) /\
  (forall q, q <> p -> fs' q = fs q).
Proof.
  unfold write_text, mbind. destruct (open_w p fs) as [[[]|e] fs1] eqn:Eo; [|discriminate].
  destruct (legal_newline newline); cbn [negb]; [|discriminate].
  intro H. inversion H; subst fs'. clear H. split; [reflexivity|].
  split; [apply put_same|]. intros q Hq. rewrite put_other by assumption.
  unfold open_w in Eo. destruct (fs p) as [[|d]|];
    try discriminate Eo;
    destruct (fs (parent p)) as [[|d']|]; destruct p; try discriminate Eo;
    inversion Eo; now apply put_other.
Qed.

Lemma write_text_frame p data newline fs r fs' :
  write_text p data newline fs = (r, fs') ->
  (forall q, q <> p -> fs' q = fs q) /\
  (fs p = Some NDir -> fs' p = Some NDir).
Proof.
  unfold write_text, mbind, open_w. intro H.
  destruct (fs p) as [[|d]|] eqn:E.
  - inversion H; subst. now rewrite E.
  - split; [|discriminate].
    intros q Hq.
    destruct (fs (parent p)) as [[|d']|]; destruct p; inversion H; subst;
      try reflexivity;
      destruct (legal_newline newline); inversion H; subst;
      rewrite ?put_other by assumption; reflexivity.
  - split; [|discriminate].
    intros q Hq.
    destruct (fs (parent p)) as [[|d']|]; destruct p; inversion H; subst;
      try reflexivity;
      destruct (legal_newline newline); inversion H; subst;
      rewrite ?put_other by assumption; reflexivity.
Qed.

Section TemplateFacts.
Variable render_template : str -> dict -> result str.

(** One file of the loop, when the whole call returns. *)
Lemma render_files_step f rest context line_ending fs fs' :
  render_template_files render_template (f :: rest) context line_ending fs = (Ok tt, fs') ->
  exists raw rendered fs2,
    fs (template_src f) = Some (NFile (Raw raw)) /\
    render_template (universal_newlines raw) context = Ok rendered /\
    legal_newline line_ending = true /\
    fs2 (template_dst f) = Some (NFile (Raw (translate_newlines line_ending rendered))) /\
    fs2 (parent (template_dst f)) = Some NDir /\
    (forall q d, q <> template_dst f ->
       (fs2 q = Some (NFile d) <-> fs q = Some (NFile d))) /\
    render_template_files render_template rest context line_ending fs2 = (Ok tt, fs').
Proof.
  cbn [render_template_files]. destruct (exists_ fs (template_src f)); cbn [negb];
    [|discriminate].
  unfold mbind at 1. destruct (read_text (template_src f) fs) as [[text|e] fs0] eqn:Er;
    [|discriminate].
  apply read_text_ok in Er as (-> & raw & Hraw & ->).
  unfold mbind at 1, lift.
  destruct (render_template (universal_newlines raw) context) as [rendered|e] eqn:Et;
    [|discriminate].
  unfold mbind at 1.
  destruct (mkdir_parents_exist_ok (parent (template_dst f)) fs) as [[[]|e] fs1] eqn:Em;
    [|discriminate].
  pose proof (mkdir_parents_dir _ _ Em) as Hp. apply is_dir_iff in Hp.
  apply mkdir_parents_only_new_dirs in Em.
  unfold mbind at 1.
  destruct (write_text (template_dst f) rendered line_ending fs1) as [[[]|e] fs2] eqn:Ew;
    [|discriminate].
  pose proof (write_text_frame _ _ _ _ Ew) as [Hfr Hfd].
  apply write_text_ok in Ew as (Hl & Hd & Hf).
  intro H. exists raw, rendered, fs2. repeat split; try assumption.
  - destruct (path_eqb (parent (template_dst f)) (template_dst f)) eqn:Eq.
    + apply path_eqb_eq in Eq. rewrite Eq in Hp |- *. now apply Hfd.
    + apply path_eqb_neq in Eq. now rewrite Hfr.
  - intro G. rewrite Hf in G by assumption. now apply (only_new_dirs_files q d Em).
  - intro G. rewrite Hf by assumption. now apply (only_new_dirs_files q d Em).
Qed.

(** What a successful call has done: each file, read as it was at the
    start, is rendered and written; no other file is touched. *)
Lemma render_files_effect files context line_ending : forall fs fs',
  render_template_files render_template files context line_ending fs = (Ok tt, fs') ->
  independent files ->
  (forall f, In f files ->
     exists raw rendered,
       fs (template_src f) = Some (NFile (Raw raw)) /\
       render_template (universal_newlines raw) context = Ok rendered /\
       fs' (template_dst f) =
         Some (NFile (Raw (translate_newlines line_ending rendered)))) /\
  (forall q d, (forall f, In f files -> q <> template_dst f) ->
     (fs' q = Some (NFile d) <-> fs q = Some (NFile d))).
Proof.
  induction files as [|f rest IH]; intros fs fs' H Hi.
  - inversion H; subst. split; [intros f []| tauto].
  - destruct Hi as [Hf Hi].
    apply render_files_step in H as (raw & rendered & fs2 & Hraw & Hr & _ & Hd & _ & Hfr & H).
    destruct (IH _ _ H Hi) as [IH1 IH2]. split.
    + intros g [<-|Hg].
      * exists raw, rendered. repeat split; try assumption.
        apply IH2; [|exact Hd]. intros g Hg. now apply Hf.
      * destruct (IH1 g Hg) as (raw' & rendered' & Hraw' & Hr' & Hd').
        exists raw', rendered'. repeat split; try assumption.
        apply Hfr; [|exact Hraw']. intro E. destruct (Hf g Hg) as [Hn _]. congruence.
    + intros q d Hq. rewrite IH2 by (intros g Hg; apply Hq; now right).
      apply Hfr. apply Hq. now left.
Qed.
End TemplateFacts.

Section TemplateDirectories.
Variable render_template : str -> dict -> result str.

(** Whatever the outcome, rendering removes no directory and puts nothing
    in the place of one. *)
Lemma render_files_keeps_dirs files context line_ending : forall fs r fs',
  render_template_files render_template files context line_ending fs = (r, fs') ->
  forall q, fs q = Some NDir -> fs' q = Some NDir.
Proof.
  induction files as [|f rest IH]; intros fs r fs' H q Hq.
  - inversion H; subst. exact Hq.
  - cbn [render_template_files] in H.
    destruct (exists_ fs (template_src f)); cbn [negb] in H;
      [|inversion H; subst; exact Hq].
    unfold mbind at 1 in H.
    destruct (read_text (template_src f) fs) as [[text|e] fs0] eqn:Er.
    2:{ unfold read_text in Er. destruct (fs (template_src f)) as [[|[raw|m]]|];
          inversion Er; subst; inversion H; subst; exact Hq. }
    apply read_text_ok in Er as (-> & _).
    unfold mbind at 1, lift in H.
    destruct (render_template text context) as [rendered|e];
      [|inversion H; subst; exact Hq].
    unfold mbind at 1 in H.
    destruct (mkdir_parents_exist_ok (parent (template_dst f)) fs) as [[[]|e] fs1] eqn:Em;
      apply mkdir_parents_only_new_dirs in Em;
      assert (Hq1 : fs1 q = Some NDir)
        by (destruct (Em q) as [->|[E _]]; congruence).
    2:{ inversion H; subst; exact Hq1. }
    unfold mbind at 1 in H.
    destruct (write_text (template_dst f) rendered line_ending fs1) as [[[]|e] fs2] eqn:Ew;
      apply write_text_frame in Ew as [Hf Hd];
      assert (Hq2 : fs2 q = Some NDir)
        by (destruct (path_eqb q (template_dst f)) eqn:Eq;
            [apply path_eqb_eq in Eq; subst q; now apply Hd
            |apply path_eqb_neq in Eq; now rewrite Hf]).
    + eapply IH; eauto.
    + inversion H; subst; exact Hq2.
Qed.

(** The loop runs the files in order. *)
Lemma render_files_app pre post context line_ending : forall fs,
  render_template_files render_template (pre ++ post) context line_ending fs =
  match render_template_files render_template pre context line_ending fs with
  | (Ok _, fs1) => render_template_files render_template post context line_ending fs1
  | (Raise e, fs1) => (Raise e, fs1)
  end.
Proof.
  induction pre as [|f pre IH]; intro fs; [reflexivity|].
  cbn [app render_template_files].
  destruct (exists_ fs (template_src f)); cbn [negb]; [|reflexivity].
  unfold mbind, lift.
  destruct (read_text (template_src f) fs) as [[text|e] fs0]; [|reflexivity].
  destruct (render_template text context) as [rendered|e]; [|reflexivity].
  destruct (mkdir_parents_exist_ok (parent (template_dst f)) fs0) as [[[]|e] fs1];
    [|reflexivity].
  destruct (write_text (template_dst f) rendered line_ending fs1) as [[[]|e] fs2];
    [|reflexivity].
  apply IH.
Qed.
End TemplateDirectories.

Lemma lf_after_cr_app x : forall b y,
  lf_after_cr b (x ++ y) =
  lf_after_cr b x && lf_after_cr (match rev x with c :: _ => ascii_eqb c CR | [] => b end) y.
Proof.
  induction x as [|c x IH]; intros b y; [reflexivity|].
  cbn [app lf_after_cr]. rewrite IH, <- andb_assoc. f_equal. f_equal.
  cbn [rev]. destruct (rev x) as [|d r] eqn:E; [|reflexivity].
  apply (f_equal (@rev ascii)) in E. rewrite rev_involutive in E. subst x. reflexivity.
Qed.

(** Written with [\r\n] as the line ending, a text has no bare line feed. *)
Lemma translate_crlf_only x : forall b,
  lf_after_cr b (translate_newlines DEFAULT_LINE_ENDING x) = true.
Proof.
  unfold translate_newlines.
  change (str_eqb DEFAULT_LINE_ENDING [] || str_eqb DEFAULT_LINE_ENDING [LF]) with false.
  cbv iota. induction x as [|c x IH]; intro b; [reflexivity|].
  cbn [flat_map]. destruct (ascii_eqb c LF) eqn:E.
  - change (DEFAULT_LINE_ENDING ++ ?r) with (CR :: LF :: r).
    cbn [lf_after_cr]. change (ascii_eqb CR LF) with false.
    change (ascii_eqb LF LF) with true. change (ascii_eqb CR CR) with true.
    cbn [andb]. apply IH.
  - cbn [app lf_after_cr]. rewrite E. cbn [andb]. apply IH.
Qed.

Lemma run_ok {A : Type} (m : M A) (fs : FS) (a : A) :
  fst (m fs) = Ok a -> m fs = (Ok a, snd (m fs)).
Proof. destruct (m fs) as [r fs']. cbn. now intros ->. Qed.

Lemma payload_templates_independent (BRIEFCASE_DIR root : Path) :
  independent (payload_templates BRIEFCASE_DIR root).
Proof.
  cbn [payload_templates independent template_src template_dst].
  split; [|split; [intros g []|exact I]].
  intros g [<-|[]]. cbn [template_src template_dst]. unfold child.
  split; intro E; apply (f_equal (hd [])) in E; vm_compute in E; discriminate E.
Qed.

(** X11 ([render_template_files], src/constructor/template_file.py 18-26).
    When the files do not interfere (no file is written where a later one
    is read or written) and the call returns, then every source was a text
    file at the start, its rendering succeeded, and its destination now
    holds the rendered text with each line feed written as [line_ending],
    inside a directory; every other file is as it was, and every directory
    is still one. *)
Theorem render_template_files_writes
    (render_template : str -> dict -> result str)
    (files : list TemplateFile) (context : dict) (line_ending : str) (fs fs' : FS) :
  independent files ->
  render_template_files render_template files context line_ending fs = (Ok tt, fs') ->
  (forall f, In f files ->
     exists raw rendered,
       fs (template_src f) = Some (NFile (Raw raw)) /\
       render_template (universal_newlines raw) context = Ok rendered /\
       fs' (template_dst f) =
         Some (NFile (Raw (translate_newlines line_ending rendered))) /\
       is_dir fs' (parent (template_dst f)) = true) /\
  (forall q d, (forall f, In f files -> q <> template_dst f) ->
     (fs' q = Some (NFile d) <-> fs q = Some (NFile d))) /\
  (forall q, is_dir fs q = true -> is_dir fs' q = true).
Proof.
  intros Hi H.
  destruct (@render_files_effect render_template files context line_ending fs fs' H Hi)
    as [E1 E2].
  split; [|split; [exact E2|]].
  - intros f Hf. destruct (E1 f Hf) as (raw & rendered & Hraw & Hr & Hd).
    exists raw, rendered. repeat split; try assumption.
    apply in_split in Hf as (pre & post & ->).
    rewrite render_files_app in H.
    destruct (render_template_files render_template pre context line_ending fs)
      as [[[]|e] fs1]; [|discriminate H].
    apply render_files_step in H as (_ & _ & fs2 & _ & _ & _ & _ & Hp & _ & H).
    apply is_dir_iff. eapply render_files_keeps_dirs; eauto.
  - intros q Hq. apply is_dir_iff. apply is_dir_iff in Hq.
    eapply render_files_keeps_dirs; eauto.
Qed.

Lemma render_template_files_writes_witness :
  exists fs',
    render_template_files example_render
      (payload_templates [s "briefcase"] [s "out"])
      [(s "archive_name", VStr (s "payload.tar.gz"))] DEFAULT_LINE_ENDING template_fs
      = (Ok tt, fs') /\
    is_dir fs' [s "out"] = true /\
    is_dir fs' [s "briefcase"] = true.
Proof.
  pose proof (run_ok (render_template_files example_render
      (payload_templates [s "briefcase"] [s "out"])
      [(s "archive_name", VStr (s "payload.tar.gz"))] DEFAULT_LINE_ENDING)
      template_fs (a := tt) eq_refl) as E.
  destruct (render_template_files_writes example_render _ _ _ _
              (payload_templates_independent [s "briefcase"] [s "out"]) E)
    as (H1 & _ & H3).
  eexists. split; [exact E|]. split.
  - destruct (H1 _ (or_introl eq_refl)) as (raw & rendered & _ & _ & _ & Hp). exact Hp.
  - apply H3. reflexivity.
Defined.

(** X12 ([render_template_files], src/constructor/template_file.py 18-26).
    There is no rollback: when the files before [g] have been rendered and
    the source of [g] does not exist then, the call raises
    [FileNotFoundError] with that source and leaves the file system as
    those earlier files left it, with their output written; no later file
    is read or written. *)
Theorem render_template_files_stops_at_missing
    (render_template : str -> dict -> result str)
    (pre post : list TemplateFile) (g : TemplateFile)
    (context : dict) (line_ending : str) (fs fs1 : FS) :
  independent pre ->
  render_template_files render_template pre context line_ending fs = (Ok tt, fs1) ->
  fs1 (template_src g) = None ->
  render_template_files render_template (pre ++ g :: post) context line_ending fs
    = (Raise (FileNotFoundError (template_src g)), fs1) /\
  (forall f, In f pre ->
     exists rendered,
       fs1 (template_dst f) =
         Some (NFile (Raw (translate_newlines line_ending rendered)))).
Proof.
  intros Hi H Hg. split.
  - rewrite render_files_app, H. cbn [render_template_files]. unfold exists_.
    now rewrite Hg.
  - intros f Hf.
    destruct (@render_files_effect render_template pre context line_ending fs fs1 H Hi)
      as [E1 _].
    destruct (E1 f Hf) as (raw & rendered & _ & _ & Hd). now exists rendered.
Qed.

Lemma render_template_files_stops_at_missing_witness :
  exists fs1,
    render_template_files example_render
      ([ {| template_name := s "post_install_script";
            template_src := [s "run_installation.bat"; s "briefcase"];
            template_dst := [s "run_installation.bat"; s "out"] |} ]
       ++ {| template_name := s "extra";
             template_src := [s "missing.bat"; s "briefcase"];
             template_dst := [s "missing.bat"; s "out"] |} :: [])
      [] DEFAULT_LINE_ENDING template_fs
      = (Raise (FileNotFoundError [s "missing.bat"; s "briefcase"]), fs1) /\
    exists rendered,
      fs1 [s "run_installation.bat"; s "out"] =
        Some (NFile (Raw (translate_newlines DEFAULT_LINE_ENDING rendered))).
Proof.
  pose proof (run_ok (render_template_files example_render
      [ {| template_name := s "post_install_script";
           template_src := [s "run_installation.bat"; s "briefcase"];
           template_dst := [s "run_installation.bat"; s "out"] |} ]
      [] DEFAULT_LINE_ENDING) template_fs (a := tt) eq_refl) as E.
  assert (Hi : independent
      [ {| template_name := s "post_install_script";
           template_src := [s "run_installation.bat"; s "briefcase"];
           template_dst := [s "run_installation.bat"; s "out"] |} ])
    by (split; [intros g []|exact I]).
  destruct (@render_template_files_stops_at_missing example_render _ []
              {| template_name := s "extra";
                 template_src := [s "missing.bat"; s "briefcase"];
                 template_dst := [s "missing.bat"; s "out"] |}
              _ _ _ _ Hi E eq_refl)
    as [H1 H2].
  eexists. split; [exact H1|]. exact (H2 _ (or_introl eq_refl)).
Defined.

(** ** The session state: [_ensure_root], [remove], [render_templates] *)

Lemma ensure_root_cases temp_name self fs r self1 fs1 :
  _ensure_root temp_name self fs = (r, self1, fs1) ->
  only_new_dirs fs fs1 /\
  rendered_templates self1 = rendered_templates self /\
  template_context self1 = template_context self /\
  match r with
  | Ok p =>
      root self1 = Some p /\
      match root self with
      | Some p0 => p = p0 /\ self1 = self /\ fs1 = fs
      | None => p = temp_name fs /\ fs p = None /\ is_dir fs1 p = true
      end
  | Raise e => self1 = self /\ root self = None
  end.
Proof.
  unfold _ensure_root, mkdtemp. destruct (root self) as [p0|] eqn:Er.
  - intro H. inversion H; subst. repeat split; try assumption.
    apply only_new_dirs_refl.
  - destruct (os_mkdir (temp_name fs) fs) as [[[]|e] fs2] eqn:Em; intro H;
      inversion H; subst; pose proof (os_mkdir_only_new_dirs _ _ Em) as Hn;
      repeat split; try assumption.
    + unfold os_mkdir in Em. destruct (fs (temp_name fs)); [discriminate Em|reflexivity].
    + unfold os_mkdir in Em. destruct (fs (temp_name fs)); [discriminate Em|].
      destruct (temp_name fs) as [|c up]; [discriminate Em|].
      destruct (fs up) as [[|d]|]; inversion Em. apply is_dir_iff, put_same.
Qed.

Lemma only_new_dirs_keeps_dirs fs fs' q :
  only_new_dirs fs fs' -> fs q = Some NDir -> fs' q = Some NDir.
Proof. intros H Hq. destruct (H q) as [->|[E _]]; congruence. Qed.

(** What a call of [render_templates] that returns has done. *)
Lemma render_templates_ok
    (render_template : str -> dict -> result str) (BRIEFCASE_DIR : Path)
    (temp_name : FS -> Path) (self self' : Payload) (fs fs' : FS)
    (templates : list TemplateFile) :
  render_templates render_template BRIEFCASE_DIR temp_name self fs
    = (Ok templates, self', fs') ->
  exists r,
    root self' = Some r /\
    (root self = None \/ root self = Some r) /\
    is_dir fs' r = true /\
    templates = payload_templates BRIEFCASE_DIR r /\
    rendered_templates self' = Some templates /\
    forall name,
      name = s "run_installation.bat" \/ name = s "pre_uninstall.bat" ->
      exists raw rendered,
        fs (child BRIEFCASE_DIR name) = Some (NFile (Raw raw)) /\
        render_template (universal_newlines raw)
          [ (s "archive_name", VStr (archive_name self));
            (s "conda_exe_name", VStr (conda_exe_name self)) ] = Ok rendered /\
        fs' (child r name) =
          Some (NFile (Raw (translate_newlines DEFAULT_LINE_ENDING rendered))) /\
        crlf_only (translate_newlines DEFAULT_LINE_ENDING rendered) = true.
Proof.
  unfold render_templates.
  destruct (_ensure_root temp_name self fs) as [[[r|e] self1] fs1] eqn:Ee; [|discriminate].
  apply ensure_root_cases in Ee as (Hn & Ht & Hc & Hr & Hcase).
  destruct (render_template_files render_template (payload_templates BRIEFCASE_DIR r)
              (template_context self1) DEFAULT_LINE_ENDING fs1) as [[[]|e] fs2] eqn:Ef;
    [|discriminate].
  intro H. inversion H; subst templates self' fs'. clear H.
  destruct (@render_files_effect render_template _ _ _ _ _ Ef
              (payload_templates_independent BRIEFCASE_DIR r)) as [E1 _].
  exists r. split; [exact Hr|]. split.
  { destruct (root self) as [p0|]; [right; f_equal; symmetry; apply Hcase | now left]. }
  split.
  { destruct (@render_files_step render_template _ _ _ _ _ _ Ef)
      as (_ & _ & fs3 & _ & _ & _ & _ & Hp & _ & Hrest).
    apply is_dir_iff. eapply render_files_keeps_dirs; [exact Hrest|exact Hp]. }
  split; [reflexivity|]. split; [reflexivity|].
  intros name Hname.
  assert (Hin : In {| template_name :=
                        if str_eqb name (s "run_installation.bat")
                        then s "post_install_script" else s "pre_uninstall_script";
                      template_src := child BRIEFCASE_DIR name;
                      template_dst := child r name |}
                   (payload_templates BRIEFCASE_DIR r)).
  { destruct Hname as [->| ->]; [left|right; left]; reflexivity. }
  destruct (E1 _ Hin) as (raw & rendered & Hraw & Hrd & Hd).
  cbn [template_src template_dst] in Hraw, Hd.
  exists raw, rendered. rewrite Hc in Hrd. repeat split; try assumption.
  - now apply (only_new_dirs_files (child BRIEFCASE_DIR name) (Raw raw) Hn).
  - apply translate_crlf_only.
Qed.

(** X13 ([Payload.render_templates], src/constructor/briefcase.py 302-325).
    When the call returns, the payload has a root directory (the one it
    had, or a new temporary one), the two templates returned are the ones
    recorded on the payload, and [run_installation.bat] and
    [pre_uninstall.bat] in the root hold the renderings of the files of
    the same names in [BRIEFCASE_DIR], read as they were before the call,
    with the archive name and the name of the conda executable as the only
    variables; in what is written every line feed follows a carriage
    return. *)
Theorem render_templates_writes_both
    (render_template : str -> dict -> result str) (BRIEFCASE_DIR : Path)
    (temp_name : FS -> Path) (self self' : Payload) (fs fs' : FS)
    (templates : list TemplateFile) :
  render_templates render_template BRIEFCASE_DIR temp_name self fs
    = (Ok templates, self', fs') ->
  exists r,
    root self' = Some r /\
    (root self = None \/ root self = Some r) /\
    is_dir fs' r = true /\
    templates = payload_templates BRIEFCASE_DIR r /\
    rendered_templates self' = Some templates /\
    forall name,
      name = s "run_installation.bat" \/ name = s "pre_uninstall.bat" ->
      exists raw rendered,
        fs (child BRIEFCASE_DIR name) = Some (NFile (Raw raw)) /\
        render_template (universal_newlines raw)
          [ (s "archive_name", VStr (archive_name self));
            (s "conda_exe_name", VStr (conda_exe_name self)) ] = Ok rendered /\
        fs' (child r name) =
          Some (NFile (Raw (translate_newlines DEFAULT_LINE_ENDING rendered))) /\
        crlf_only (translate_newlines DEFAULT_LINE_ENDING rendered) = true.
Proof.
  exact (@render_templates_ok render_template BRIEFCASE_DIR temp_name self self' fs fs'
           templates).
Qed.

Lemma render_templates_writes_both_witness :
  exists self' fs',
    render_templates example_render [s "briefcase"] example_temp_name
      (new_Payload []) session_fs
      = (Ok (payload_templates [s "briefcase"] [s "constructor0"; s "tmp"]), self', fs') /\
    root self' = Some [s "constructor0"; s "tmp"] /\
    is_dir fs' [s "constructor0"; s "tmp"] = true.
Proof.
  assert (E : render_templates example_render [s "briefcase"] example_temp_name
                (new_Payload []) session_fs
              = (Ok (payload_templates [s "briefcase"] [s "constructor0"; s "tmp"]),
                 snd (fst (render_templates example_render [s "briefcase"]
                             example_temp_name (new_Payload []) session_fs)),
                 snd (render_templates example_render [s "briefcase"]
                        example_temp_name (new_Payload []) session_fs))).
  { destruct (render_templates example_render [s "briefcase"] example_temp_name
                (new_Payload []) session_fs) as [[r self'] fs'] eqn:Ev.
    apply (f_equal (fun x => fst (fst x))) in Ev. vm_compute in Ev. now subst r. }
  destruct (render_templates_writes_both _ _ _ _ _ E)
    as (r & Hr & _ & Hd & Ht & _).
  assert (r = [s "constructor0"; s "tmp"]) as ->.
  { apply (f_equal (map template_dst)) in Ht. cbn in Ht. unfold child in Ht.
    now inversion Ht. }
  eexists _, _. split; [exact E|]. split; assumption.
Defined.

(** X14 ([Payload.render_templates], src/constructor/briefcase.py 302-325).
    When the call raises, no templates are recorded: the payload keeps the
    record it had.  Its root is unchanged too, unless it had none: then
    the temporary directory may have been made already, it is still there
    and the payload has it as its root.  No directory has been removed. *)
Theorem render_templates_failure
    (render_template : str -> dict -> result str) (BRIEFCASE_DIR : Path)
    (temp_name : FS -> Path) (self self' : Payload) (fs fs' : FS) (e : exn) :
  render_templates render_template BRIEFCASE_DIR temp_name self fs
    = (Raise e, self', fs') ->
  rendered_templates self' = rendered_templates self /\
  (root self' = root self \/
   (root self = None /\ root self' = Some (temp_name fs) /\
    is_dir fs' (temp_name fs) = true)) /\
  (forall q, is_dir fs q = true -> is_dir fs' q = true).
Proof.
  unfold render_templates.
  destruct (_ensure_root temp_name self fs) as [[[r|e0] self1] fs1] eqn:Ee.
  - apply ensure_root_cases in Ee as (Hn & Ht & Hc & Hr & Hcase).
    destruct (render_template_files render_template (payload_templates BRIEFCASE_DIR r)
                (template_context self1) DEFAULT_LINE_ENDING fs1) as [[[]|e1] fs2] eqn:Ef;
      [discriminate|].
    intro H. inversion H; subst e1 self' fs'. clear H.
    split; [exact Ht|]. split.
    + destruct (root self) as [p0|] eqn:Er0.
      * left. destruct Hcase as (_ & Hs & _). rewrite Hs. exact Er0.
      * right. destruct Hcase as (-> & _ & Hd). split; [reflexivity|].
        split; [exact Hr|]. apply is_dir_iff.
        eapply render_files_keeps_dirs; [exact Ef|]. now apply is_dir_iff.
    + intros q Hq. apply is_dir_iff. eapply render_files_keeps_dirs; [exact Ef|].
      eapply only_new_dirs_keeps_dirs; [exact Hn|]. now apply is_dir_iff.
  - apply ensure_root_cases in Ee as (Hn & Ht & _ & -> & _).
    intro H. inversion H; subst. split; [reflexivity|]. split; [now left|].
    intros q Hq. apply is_dir_iff. eapply only_new_dirs_keeps_dirs; [exact Hn|].
    now apply is_dir_iff.
Qed.

Lemma render_templates_failure_witness :
  exists e self' fs',
    render_templates example_render [s "nowhere"] example_temp_name
      (new_Payload []) session_fs = (Raise e, self', fs') /\
    rendered_templates self' = None /\
    is_dir fs' [s "tmp"] = true.
Proof.
  assert (E : render_templates example_render [s "nowhere"] example_temp_name
                (new_Payload []) session_fs
              = (Raise (FileNotFoundError [s "run_installation.bat"; s "nowhere"]),
                 snd (fst (render_templates example_render [s "nowhere"]
                             example_temp_name (new_Payload []) session_fs)),
                 snd (render_templates example_render [s "nowhere"]
                        example_temp_name (new_Payload []) session_fs))).
  { destruct (render_templates example_render [s "nowhere"] example_temp_name
                (new_Payload []) session_fs) as [[r self'] fs'] eqn:Ev.
    apply (f_equal (fun x => fst (fst x))) in Ev. vm_compute in Ev. now subst r. }
  destruct (render_templates_failure _ _ _ _ _ E) as (Ht & _ & Hq).
  eexists _, _, _. split; [exact E|]. split; [exact Ht|]. apply Hq. reflexivity.
Defined.

Lemma clear_way_ext fs fs1 p :
  (forall q, length q <= length p -> fs1 q = fs q) ->
  clear_way fs1 p = clear_way fs p.
Proof.
  induction p as [|c up IH]; intro H; cbn [clear_way]; unfold is_dir, exists_.
  - now rewrite H.
  - rewrite H by lia. rewrite IH; [reflexivity|].
    intros q Hq. apply H. cbn [length]. lia.
Qed.

(** X15 ([Payload.remove], [Payload._ensure_root], [Payload._create_layout],
    src/constructor/briefcase.py 263-265, 359-362, 364-380).
    Removing a payload whose root is a directory below the top deletes the
    root and all below it and nothing else, and the payload keeps the root
    it had: removing it once more raises [FileNotFoundError], while
    [_ensure_root] still answers the removed path, making nothing, and
    [_create_layout] builds the whole layout there again. *)
Theorem remove_then_layout_again
    (temp_name : FS -> Path) (self : Payload) (p : Path) (fs : FS) :
  root self = Some p -> p <> [] ->
  is_dir fs p = true -> clear_way fs p = true ->
  exists fs1,
    remove self fs = (Ok tt, fs1) /\
    (forall q, fs1 q = if under p q then None else fs q) /\
    remove self fs1 = (Raise (FileNotFoundError p), fs1) /\
    _ensure_root temp_name self fs1 = (Ok p, self, fs1) /\
    exists fs2,
      _create_layout self p fs1 = (Ok (layout_of p), fs2) /\
      is_dir fs2 p = true /\
      is_dir fs2 (external_of p) = true /\
      is_dir fs2 (base_of p) = true /\
      is_dir fs2 (pkgs_of p) = true /\
      (forall q, under p q = false -> under q p = false -> fs2 q = fs q).
Proof.
  intros Hr Hne Hd Hc. apply is_dir_iff in Hd.
  exists (fun q => if under p q then None else fs q).
  assert (Hself : (fun q => if under p q then None else fs q) p = None)
    by (cbv beta; now rewrite under_refl).
  split; [unfold remove, rmtree; now rewrite Hr, Hd|].
  split; [reflexivity|].
  split; [unfold remove, rmtree; now rewrite Hr, Hself|].
  split; [unfold _ensure_root; now rewrite Hr|].
  set (fs1 := fun q => if under p q then None else fs q) in *.
  assert (Hbelow : forall q, under p q = true -> fs1 q = None)
    by (intros q Hq; unfold fs1; now rewrite Hq).
  assert (Hext : under p (external_of p) = true) by (apply under_cons, under_refl).
  assert (Hbase : under p (base_of p) = true) by (apply under_cons, Hext).
  assert (Hpkgs : under p (pkgs_of p) = true) by (apply under_cons, Hbase).
  assert (Hc1 : clear_way fs1 (external_of p) = true).
  { unfold external_of, child. cbn [clear_way]. unfold exists_ at 1.
    fold (child p EXTERNAL_PACKAGE_PATH). fold (external_of p).
    rewrite (Hbelow _ Hext), orb_true_r. cbn [andb].
    destruct p as [|c up]; [congruence|]. cbn [clear_way] in Hc |- *.
    unfold exists_ at 1. rewrite Hself, orb_true_r. cbn [andb].
    apply andb_true_iff in Hc as [_ Hc]. rewrite <- Hc. apply clear_way_ext.
    intros q Hq. unfold fs1. rewrite not_under_longer; [reflexivity|]. cbn [length]. lia. }
  destruct (mkdir_parents_clear_way _ _ Hc1) as (fs2 & H1 & D1 & P1 & F1 & M1).
  assert (Eb : fs2 (base_of p) = None).
  { rewrite F1; [now apply Hbelow|]. apply not_under_longer. simpl. lia. }
  assert (Ek : fs2 (pkgs_of p) = None).
  { rewrite F1; [now apply Hbelow|]. apply not_under_longer. simpl. lia. }
  destruct (create_layout_after_external self p fs1 H1) as (_ & _ & C).
  assert (Hbk : base_of p <> pkgs_of p).
  { intro E. symmetry in E. now apply child_neq in E. }
  assert (Hdir : forall q, is_dir fs2 q = true ->
            is_dir (put (put fs2 (base_of p) NDir) (pkgs_of p) NDir) q = true).
  { intros q Hq. apply is_dir_iff in Hq. apply is_dir_iff.
    rewrite !put_other; [assumption | congruence | congruence]. }
  exists (put (put fs2 (base_of p) NDir) (pkgs_of p) NDir).
  split; [now apply C|].
  split; [apply Hdir; apply (P1 (Hbelow _ Hext)); discriminate|].
  split; [now apply Hdir|].
  split; [apply is_dir_iff; rewrite put_other by assumption; apply put_same|].
  split; [apply is_dir_iff, put_same|].
  intros q Hq Hq'.
  assert (Hq1 : forall x, under p x = true -> q <> x) by (intros x Hx ->; congruence).
  rewrite !put_other by (apply Hq1; assumption).
  rewrite F1.
  - unfold fs1. now rewrite Hq.
  - destruct (under q (external_of p)) eqn:U; [|reflexivity].
    apply under_iff in U as [rel U]. unfold external_of, child in U.
    destruct rel as [|c rel]; cbn [app] in U.
    + subst q. fold (child p EXTERNAL_PACKAGE_PATH) in Hq. fold (external_of p) in Hq.
      congruence.
    + apply (f_equal (@tl str)) in U. cbn [tl] in U.
      assert (under q p = true) by (apply under_iff; now exists rel). congruence.
Qed.

Lemma remove_then_layout_again_witness :
  exists fs1 fs2,
    (remove (rooted_Payload [s "tmp"]) session_fs = (Ok tt, fs1)) /\
    (_create_layout (rooted_Payload [s "tmp"]) [s "tmp"] fs1
       = (Ok (layout_of [s "tmp"]), fs2)) /\
    is_dir fs2 (pkgs_of [s "tmp"]) = true.
Proof.
  destruct (@remove_then_layout_again example_temp_name (rooted_Payload [s "tmp"])
              [s "tmp"] session_fs eq_refl)
    as (fs1 & H1 & _ & _ & _ & fs2 & H2 & _ & _ & _ & H3 & _);
    [discriminate | reflexivity | reflexivity |].
  exists fs1, fs2. repeat split; assumption.
Defined.

(** ** The parametrization of the tests *)

Lemma existsb_str_eqb_In x l : existsb (str_eqb x) l = true <-> In x l.
Proof.
  rewrite existsb_exists. split.
  - intros (y & Hy & E). apply str_eqb_eq in E. now subst.
  - intro H. exists x. split; [exact H|]. now apply str_eqb_eq.
Qed.

Lemma platform_types_cases platform x :
  In x (ALL_INSTALLER_TYPES platform) ->
  (x = s "exe" /\ startswith (s "win") platform = true) \/
  (x = s "sh" /\ startswith (s "win") platform = false) \/
  (x = s "pkg" /\ platform = s "darwin").
Proof.
  unfold ALL_INSTALLER_TYPES, _platform_installer_types.
  destruct (startswith (s "win") platform) eqn:Ew.
  - intros [<-|[]]. now left.
  - destruct (str_eqb platform (s "darwin")) eqn:Ed.
    + apply str_eqb_eq in Ed. intros [<-|[<-|[]]]; [right; left|right; right]; now split.
    + intros [<-|[]]. right; left. now split.
Qed.

(** X16 ([pytest_generate_tests], [_platform_installer_types],
    src/tests/conftest.py 10-17, 22-50).
    When the hook parametrizes a test, the argument is [installer_type],
    which the test declares, and the values are never an empty list: each
    is one of the strings [exe], [sh] and [pkg] that the platform offers
    ([exe] only where the platform name starts with [win], [sh] only where
    it does not, [pkg] only on [darwin]).  With a marker the values are
    the marker's arguments that the platform offers, in the order and with
    the repetitions of the marker; without one, all the platform offers. *)
Theorem pytest_generate_tests_parametrization
    (platform : str) (fixturenames : list str) (marker : option (list value))
    (argname : str) (types : list value) :
  pytest_generate_tests platform fixturenames marker = Parametrized argname types ->
  argname = s "installer_type" /\
  In (s "installer_type") fixturenames /\
  types <> [] /\
  (forall t, In t types ->
     exists x, t = VStr x /\
       ((x = s "exe" /\ startswith (s "win") platform = true) \/
        (x = s "sh" /\ startswith (s "win") platform = false) \/
        (x = s "pkg" /\ platform = s "darwin"))) /\
  match marker with
  | Some args => types = filter (is_available platform) args
  | None => types = map VStr (_platform_installer_types platform)
  end.
Proof.
  unfold pytest_generate_tests.
  destruct (existsb (str_eqb (s "installer_type")) fixturenames) eqn:Ef; cbn [negb];
    [|discriminate].
  apply existsb_str_eqb_In in Ef.
  destruct marker as [args|].
  - destruct (filter (is_available platform) args) as [|t0 rest] eqn:Et; [discriminate|].
    intro H. inversion H; subst argname types. clear H.
    split; [reflexivity|]. split; [exact Ef|]. split; [discriminate|].
    split; [|reflexivity].
    intros t Ht. rewrite <- Et in Ht. apply filter_In in Ht as [_ Ha].
    destruct t as [| | |x|]; try discriminate Ha. exists x. split; [reflexivity|].
    apply platform_types_cases. now apply existsb_str_eqb_In.
  - intro H. inversion H; subst argname types. clear H.
    split; [reflexivity|]. split; [exact Ef|]. split.
    + unfold ALL_INSTALLER_TYPES, _platform_installer_types.
      destruct (startswith (s "win") platform); [discriminate|].
      destruct (str_eqb platform (s "darwin")); discriminate.
    + split; [|reflexivity]. intros t Ht. apply in_map_iff in Ht as (x & <- & Hx).
      exists x. split; [reflexivity|]. now apply platform_types_cases.
Qed.

Lemma pytest_generate_tests_parametrization_witness :
  pytest_generate_tests (s "darwin") [s "tmp_path"; s "installer_type"]
    (Some [VStr (s "pkg"); VStr (s "exe"); VInt 3; VStr (s "sh")])
    = Parametrized (s "installer_type") [VStr (s "pkg"); VStr (s "sh")] /\
  [VStr (s "pkg"); VStr (s "sh")] <> [].
Proof.
  assert (E : pytest_generate_tests (s "darwin") [s "tmp_path"; s "installer_type"]
                (Some [VStr (s "pkg"); VStr (s "exe"); VInt 3; VStr (s "sh")])
              = Parametrized (s "installer_type") [VStr (s "pkg"); VStr (s "sh")])
    by reflexivity.
  split; [exact E|].
  exact (proj1 (proj2 (proj2 (pytest_generate_tests_parametrization _ _ _ E)))).
Defined.

(** X17 ([pytest_generate_tests], src/tests/conftest.py 22-50).
    A test that declares [installer_type] is skipped exactly when it has
    a marker none of whose arguments the platform offers (so also when the
    marker has no arguments); the hook returns without parametrizing
    exactly when the test does not declare [installer_type]. *)
Theorem pytest_generate_tests_skips_iff
    (platform : str) (fixturenames : list str) (marker : option (list value)) :
  ((exists msg, pytest_generate_tests platform fixturenames marker = Skipped msg) <->
   In (s "installer_type") fixturenames /\
   exists args, marker = Some args /\
     forall t, In t args -> is_available platform t = false) /\
  (pytest_generate_tests platform fixturenames marker = Returned <->
   ~ In (s "installer_type") fixturenames).
Proof.
  unfold pytest_generate_tests.
  destruct (existsb (str_eqb (s "installer_type")) fixturenames) eqn:Ef; cbn [negb].
  - apply existsb_str_eqb_In in Ef. split.
    + destruct marker as [args|].
      * destruct (filter (is_available platform) args) as [|t0 rest] eqn:Et.
        -- split; [intros _|intros _; eexists; reflexivity].
           split; [exact Ef|]. exists args. split; [reflexivity|].
           intros t Ht. destruct (is_available platform t) eqn:Ea; [|reflexivity].
           assert (Hin : In t (filter (is_available platform) args))
             by (apply filter_In; now split).
           rewrite Et in Hin. destruct Hin.
        -- split; [intros [msg H]; discriminate H|].
           intros (_ & args' & Ha & Hn). inversion Ha; subst args'.
           assert (Hin : In t0 (filter (is_available platform) args))
             by (rewrite Et; now left).
           apply filter_In in Hin as [Hin Ha0]. rewrite (Hn _ Hin) in Ha0. discriminate.
      * split; [intros [msg H]; discriminate H|].
        intros (_ & args & Ha & _). discriminate Ha.
    + split; [|tauto]. destruct marker as [args|];
        [destruct (filter (is_available platform) args)|]; discriminate.
  - assert (Hn : ~ In (s "installer_type") fixturenames).
    { intro H. apply existsb_str_eqb_In in H. congruence. }
    split; [|tauto]. split; [intros [msg H]; discriminate H | tauto].
Qed.

(** ** The project file *)

Lemma formal_name_after_name_version info nv log :
  get_name_version info = (Ok nv, log) -> exists formal, formal_name info = Ok formal.
Proof.
  unfold get_name_version, formal_name, getitem, get, get_default.
  destruct (lookup info (s "name")) as [n|]; [|cbn; discriminate].
  destruct (lookup info (s "version")) as [v|].
  - intros _. eexists. reflexivity.
  - destruct (negb (truthy n)); cbn; discriminate.
Qed.

Lemma table_lookup_set d key v key' :
  table_lookup (table_set d key v) key' =
  if str_eqb key key' then Some v else table_lookup d key'.
Proof.
  induction d as [|[k w] d IH]; cbn [table_set table_lookup].
  - reflexivity.
  - destruct (str_eqb k key) eqn:E; cbn [table_lookup].
    + apply str_eqb_eq in E. subst k. now destruct (str_eqb key key').
    + rewrite IH. destruct (str_eqb k key') eqn:E'; [|reflexivity].
      apply str_eqb_eq in E'. subst k.
      destruct (str_eqb key key') eqn:E2; [|reflexivity].
      apply str_eqb_eq in E2. subst key.
      assert (R : str_eqb key' key' = true) by now apply str_eqb_eq.
      congruence.
Qed.

Section ProjectFileFacts.
Variable MODULE_DIR : Path.
Variable DEFAULT_REVERSE_DOMAIN_ID : str.
Variable path_of : str -> Path.
Variable render_template : str -> dict -> result str.
Variable temp_name : FS -> Path.
Variable dumps : toml -> result str.
Variable locale_encode_error : str -> option str.
Variable linesep : str.

Lemma write_text_locale_ok p data fs fs' :
  write_text_locale locale_encode_error linesep p data fs = (Ok tt, fs') ->
  fs' p = Some (NFile (Raw (translate_newlines linesep data))) /\
  (forall q, q <> p -> fs' q = fs q).
Proof.
  unfold write_text_locale, mbind.
  destruct (open_w p fs) as [[[]|e] fs1] eqn:Eo; [|discriminate].
  destruct (locale_encode_error data); [discriminate|].
  intro H. inversion H; subst fs'. clear H.
  split; [apply put_same|]. intros q Hq. rewrite put_other by assumption.
  unfold open_w in Eo. destruct (fs p) as [[|d]|];
    try discriminate Eo;
    destruct (fs (parent p)) as [[|d']|]; destruct p; try discriminate Eo;
    inversion Eo; now apply put_other.
Qed.

(** X18 ([Payload.write_pyproject_toml], src/constructor/briefcase.py
    327-357).  The checks come before every effect: when the name and
    version, the identifier or the installation options are refused, the
    call raises that error and has made no directory, written no file and
    left the payload as it was. *)
Theorem write_pyproject_toml_checks_first
    (self : Payload) (layout : PayloadLayout) (fs : FS) (e : exn) :
  project_checks DEFAULT_REVERSE_DOMAIN_ID path_of fs (info self) = Raise e ->
  write_pyproject_toml MODULE_DIR DEFAULT_REVERSE_DOMAIN_ID path_of render_template
    temp_name dumps locale_encode_error linesep self layout fs
  = (Raise e, self, fs, snd (get_name_version (info self))).
Proof.
  unfold project_checks, write_pyproject_toml.
  destruct (get_name_version (info self)) as [[[name version]|e0] log] eqn:Env;
    cbn [fst snd]; [|now intros [= ->]].
  destruct (get_bundle_app_name DEFAULT_REVERSE_DOMAIN_ID (info self) name)
    as [[bundle app_name]|e1]; [|now intros [= ->]].
  destruct (formal_name_after_name_version _ Env) as [formal ->].
  destruct (create_install_options_list path_of fs (info self)) as [options|e2];
    [discriminate|now intros [= ->]].
Qed.
(** What a call of [write_pyproject_toml] that returns has done. *)
Lemma write_pyproject_toml_ok
    (self self' : Payload) (layout : PayloadLayout) (fs fs' : FS) (log : list str) :
  write_pyproject_toml MODULE_DIR DEFAULT_REVERSE_DOMAIN_ID path_of render_template
    temp_name dumps locale_encode_error linesep self layout fs
  = (Ok tt, self', fs', log) ->
  exists name version bundle app_name options r app text,
    project_checks DEFAULT_REVERSE_DOMAIN_ID path_of fs (info self)
      = Ok (name, version, (bundle, app_name), options) /\
    root self' = Some r /\
    rendered_templates self'
      = Some (payload_templates (child MODULE_DIR (s "briefcase")) r) /\
    let config := project_config MODULE_DIR (info self) name version bundle app_name app in
    dumps (document config) = Ok text /\
    fs' (child (layout_root layout) (s "pyproject.toml"))
      = Some (NFile (Raw (translate_newlines linesep text))) /\
    table_lookup config (s "project_name") = Some (TVal (VStr name)) /\
    table_lookup config (s "version") = Some (TVal (VStr version)) /\
    table_lookup config (s "bundle") = Some (TVal (VStr bundle)) /\
    table_lookup config (s "app") = Some (TTable [(app_name, TTable app)]) /\
    table_lookup config (s "author") = option_map TVal (lookup (info self) (s "company")) /\
    table_lookup app (s "install_option") = Some (TArray (map option_table options)) /\
    table_lookup app (s "external_package_path")
      = Some (TVal (VStr (path_str (layout_external layout)))) /\
    (forall key file,
       (key = s "post_install_script" /\ file = s "run_installation.bat") \/
       (key = s "pre_uninstall_script" /\ file = s "pre_uninstall.bat") ->
       table_lookup app key = Some (TVal (VStr (path_str (child r file)))) /\
       exists content,
         fs' (child r file) = Some (NFile (Raw content)) /\ crlf_only content = true) /\
    log = snd (get_name_version (info self))
          ++ [s "Created TOML file at: " ++ path_str (layout_root layout)].
Proof.
  unfold write_pyproject_toml, project_checks.
  destruct (get_name_version (info self)) as [[[name version]|e0] log0] eqn:Env;
    cbn [fst snd]; [|discriminate].
  destruct (get_bundle_app_name DEFAULT_REVERSE_DOMAIN_ID (info self) name)
    as [[bundle app_name]|e1]; [|discriminate].
  destruct (formal_name (info self)) as [formal|e2]; [|discriminate].
  destruct (create_install_options_list path_of fs (info self)) as [options|e3];
    [|discriminate].
  destruct (render_templates render_template (child MODULE_DIR (s "briefcase"))
              temp_name self fs) as [[[rendered|e4] self1] fs1] eqn:Er; [|discriminate].
  assert (Hinfo : info self1 = info self).
  { unfold render_templates in Er.
    destruct (_ensure_root temp_name self fs) as [[[r0|e5] self0] fs0] eqn:Ee;
      [|discriminate Er].
    assert (info self0 = info self).
    { unfold _ensure_root in Ee. destruct (root self); [now inversion Ee|].
      destruct (mkdtemp temp_name fs) as [[p|e6] fs6]; now inversion Ee. }
    destruct (render_template_files render_template
                (payload_templates (child MODULE_DIR (s "briefcase")) r0)
                (template_context self0) DEFAULT_LINE_ENDING fs0) as [[[]|e7] fs7];
      inversion Er; subst; assumption. }
  apply render_templates_ok in Er as (r & Hr & _ & _ & -> & Ht & Hfiles).
  rewrite Hinfo.
  set (app := table_update (app_table formal layout options)
                (template_items (payload_templates (child MODULE_DIR (s "briefcase")) r))).
  destruct (dumps (document (project_config MODULE_DIR (info self) name version bundle
                               app_name app))) as [text|e8] eqn:Ed; [|discriminate].
  destruct (write_text_locale locale_encode_error linesep
              (child (layout_root layout) (s "pyproject.toml")) text fs1)
    as [[[]|e9] fs2] eqn:Ew; [|discriminate].
  apply write_text_locale_ok in Ew as [Hw Hframe].
  intro H. inversion H; subst self' fs' log. clear H.
  exists name, version, bundle, app_name, options, r, app, text.
  split; [reflexivity|]. split; [exact Hr|]. split; [exact Ht|].
  cbv zeta. split; [exact Ed|]. split; [exact Hw|].
  assert (Hcfg : forall key,
            str_eqb (s "author") key = false ->
            table_lookup (project_config MODULE_DIR (info self) name version bundle
                            app_name app) key
            = table_lookup
                [ (s "project_name", TVal (VStr name));
                  (s "bundle", TVal (VStr bundle));
                  (s "version", TVal (VStr version));
                  (s "license", TTable (get_license MODULE_DIR (info self)));
                  (s "app", TTable [(app_name, TTable app)]) ] key).
  { intros key Hk. unfold project_config.
    destruct (lookup (info self) (s "company")); [|reflexivity].
    now rewrite table_lookup_set, Hk. }
  split; [now rewrite Hcfg by reflexivity|].
  split; [now rewrite Hcfg by reflexivity|].
  split; [now rewrite Hcfg by reflexivity|].
  split; [now rewrite Hcfg by reflexivity|].
  split.
  { unfold project_config. destruct (lookup (info self) (s "company")); [|reflexivity].
    now rewrite table_lookup_set. }
  split; [reflexivity|]. split; [reflexivity|]. split; [|reflexivity].
  intros key file Hkf. split.
  - destruct Hkf as [[-> ->]|[-> ->]]; reflexivity.
  - destruct (Hfiles file) as (raw & rendered & _ & _ & Hd & Hc).
    { destruct Hkf as [[_ ->]|[_ ->]]; [now left|now right]. }
    eexists. split; [|exact Hc]. rewrite Hframe; [exact Hd|].
    unfold child. intro E. apply (f_equal (hd [])) in E. cbn [hd] in E.
    destruct Hkf as [[_ ->]|[_ ->]]; vm_compute in E; discriminate E.
Qed.

(** X19 ([Payload.write_pyproject_toml], src/constructor/briefcase.py
    327-357).  When the call returns, all checks were passed and
    [pyproject.toml] in the root of the layout holds the text [tomli_w]
    gave for the configuration, with the line ending of the platform.  That
    configuration has the name, the version and the bundle the checks
    gave, the company as author exactly when the info has one, and one
    application table under the application name, with the installation
    options and the external package path; the two script entries of that
    table are the paths of the rendered templates, which are files in the
    root of the payload (not of the layout) whose every line feed follows
    a carriage return.  The log ends with the record of the file made. *)
Theorem write_pyproject_toml_writes
    (self self' : Payload) (layout : PayloadLayout) (fs fs' : FS) (log : list str) :
  write_pyproject_toml MODULE_DIR DEFAULT_REVERSE_DOMAIN_ID path_of render_template
    temp_name dumps locale_encode_error linesep self layout fs
  = (Ok tt, self', fs', log) ->
  exists name version bundle app_name options r app text,
    project_checks DEFAULT_REVERSE_DOMAIN_ID path_of fs (info self)
      = Ok (name, version, (bundle, app_name), options) /\
    root self' = Some r /\
    rendered_templates self'
      = Some (payload_templates (child MODULE_DIR (s "briefcase")) r) /\
    let config := project_config MODULE_DIR (info self) name version bundle app_name app in
    dumps (document config) = Ok text /\
    fs' (child (layout_root layout) (s "pyproject.toml"))
      = Some (NFile (Raw (translate_newlines linesep text))) /\
    table_lookup config (s "project_name") = Some (TVal (VStr name)) /\
    table_lookup config (s "version") = Some (TVal (VStr version)) /\
    table_lookup config (s "bundle") = Some (TVal (VStr bundle)) /\
    table_lookup config (s "app") = Some (TTable [(app_name, TTable app)]) /\
    table_lookup config (s "author") = option_map TVal (lookup (info self) (s "company")) /\
    table_lookup app (s "install_option") = Some (TArray (map option_table options)) /\
    table_lookup app (s "external_package_path")
      = Some (TVal (VStr (path_str (layout_external layout)))) /\
    (forall key file,
       (key = s "post_install_script" /\ file = s "run_installation.bat") \/
       (key = s "pre_uninstall_script" /\ file = s "pre_uninstall.bat") ->
       table_lookup app key = Some (TVal (VStr (path_str (child r file)))) /\
       exists content,
         fs' (child r file) = Some (NFile (Raw content)) /\ crlf_only content = true) /\
    log = snd (get_name_version (info self))
          ++ [s "Created TOML file at: " ++ path_str (layout_root layout)].
Proof. exact (@write_pyproject_toml_ok self self' layout fs fs' log). Qed.

End ProjectFileFacts.

Lemma write_pyproject_toml_checks_first_witness :
  write_pyproject_toml [] (s "com.example") simple_path_of example_render
    example_temp_name example_dumps (fun _ => None) [LF]
    (new_Payload [ (s "name", VStr (s "App")); (s "version", VStr (s "1.2.3"));
                   (s "pre_install_desc", VStr (s "Prepare")) ])
    (layout_of [s "tmp"]) session_fs
  = (Raise (ValueError (s "pre_install_desc was set, but pre_install was not!")),
     new_Payload [ (s "name", VStr (s "App")); (s "version", VStr (s "1.2.3"));
                   (s "pre_install_desc", VStr (s "Prepare")) ],
     session_fs, []).
Proof.
  exact (@write_pyproject_toml_checks_first [] (s "com.example") simple_path_of
           example_render example_temp_name example_dumps (fun _ => None) [LF]
           (new_Payload [ (s "name", VStr (s "App")); (s "version", VStr (s "1.2.3"));
                          (s "pre_install_desc", VStr (s "Prepare")) ])
           (layout_of [s "tmp"]) session_fs _ eq_refl).
Defined.

Lemma write_pyproject_toml_writes_witness :
  exists self' fs' log,
    write_pyproject_toml [] (s "com.example") simple_path_of example_render
      example_temp_name example_dumps (fun _ => None) [CR; LF]
      (new_Payload example_project_info) (layout_of [s "tmp"]) session_fs
    = (Ok tt, self', fs', log) /\
    exists r text,
      root self' = Some r /\
      fs' (child (layout_root (layout_of [s "tmp"])) (s "pyproject.toml"))
        = Some (NFile (Raw (translate_newlines [CR; LF] text))).
Proof.
  assert (E : write_pyproject_toml [] (s "com.example") simple_path_of example_render
                example_temp_name example_dumps (fun _ => None) [CR; LF]
                (new_Payload example_project_info) (layout_of [s "tmp"]) session_fs
              = (Ok tt,
                 snd (fst (fst (write_pyproject_toml [] (s "com.example") simple_path_of
                   example_render example_temp_name example_dumps (fun _ => None) [CR; LF]
                   (new_Payload example_project_info) (layout_of [s "tmp"]) session_fs))),
                 snd (fst (write_pyproject_toml [] (s "com.example") simple_path_of
                   example_render example_temp_name example_dumps (fun _ => None) [CR; LF]
                   (new_Payload example_project_info) (layout_of [s "tmp"]) session_fs)),
                 snd (write_pyproject_toml [] (s "com.example") simple_path_of
                   example_render example_temp_name example_dumps (fun _ => None) [CR; LF]
                   (new_Payload example_project_info) (layout_of [s "tmp"]) session_fs))).
  { destruct (write_pyproject_toml [] (s "com.example") simple_path_of example_render
                example_temp_name example_dumps (fun _ => None) [CR; LF]
                (new_Payload example_project_info) (layout_of [s "tmp"]) session_fs)
      as [[[r self'] fs'] log] eqn:Ev.
    apply (f_equal (fun x => fst (fst (fst x)))) in Ev. vm_compute in Ev. now subst r. }
  destruct (@write_pyproject_toml_writes [] (s "com.example") simple_path_of
              example_render example_temp_name example_dumps (fun _ => None) [CR; LF]
              _ _ _ _ _ _ E)
    as (name & version & bundle & app_name & options & r & app & text
        & _ & Hr & Ht & Hd & Hw & _).
  eexists _, _, _. split; [exact E|]. exists r, text. split; [exact Hr | exact Hw].
Defined.

(** ** Staging the packages *)

Lemma not_in_dir (src dir : Path) (name : str) :
  src <> child dir (path_name src) -> src <> child dir name.
Proof. intros H E. apply H. rewrite E at 2. exact E. Qed.

Lemma shutil_copy_ok src pkgs fs fs' :
  shutil_copy src pkgs fs = (None, fs') -> is_dir fs pkgs = true ->
  exists content,
    fs src = Some (NFile content) /\
    src <> child pkgs (path_name src) /\
    fs' (child pkgs (path_name src)) = Some (NFile content) /\
    (forall q, q <> child pkgs (path_name src) -> fs' q = fs q).
Proof.
  unfold shutil_copy. intros H Hd. rewrite Hd in H. unfold exists_ in H.
  destruct (fs src) as [[|content]|] eqn:Es;
    try (destruct (path_eqb src (child pkgs (path_name src))); discriminate H).
  cbn [andb] in H.
  destruct (path_eqb src (child pkgs (path_name src))) eqn:Ee; [discriminate H|].
  apply path_eqb_neq in Ee.
  destruct (open_w (child pkgs (path_name src)) fs) as [[[]|e] fs1] eqn:Eo;
    [|discriminate H].
  inversion H; subst fs'. clear H. exists content.
  split; [reflexivity|]. split; [exact Ee|]. split; [apply put_same|].
  intros q Hq. rewrite put_other by assumption.
  unfold open_w in Eo. destruct (fs (child pkgs (path_name src))) as [[|d]|];
    try discriminate Eo;
    cbn [parent child tl] in Eo; destruct (fs pkgs) as [[|d']|]; try discriminate Eo;
    inversion Eo; now apply put_other.
Qed.

Section StageFacts.
Variable path_of : str -> Path.
Variable joinpath : Path -> str -> Path.
Variable filename_dist : value -> result str.

(** What the loop has done when it comes to its end. *)
Lemma copy_dists_ok download_dir pkgs dists : forall fs fs',
  copy_dists joinpath filename_dist download_dir pkgs dists fs = (None, fs') ->
  is_dir fs pkgs = true ->
  is_dir fs' pkgs = true /\
  (forall dist, In dist dists ->
     exists fn content,
       filename_dist dist = Ok fn /\
       fs (joinpath download_dir fn) = Some (NFile content) /\
       fs' (joinpath download_dir fn) = Some (NFile content) /\
       joinpath download_dir fn <> child pkgs (path_name (joinpath download_dir fn)) /\
       exists dist' fn' content',
         In dist' dists /\ filename_dist dist' = Ok fn' /\
         path_name (joinpath download_dir fn') = path_name (joinpath download_dir fn) /\
         fs (joinpath download_dir fn') = Some (NFile content') /\
         fs' (child pkgs (path_name (joinpath download_dir fn))) = Some (NFile content')) /\
  (forall q,
     (forall dist fn, In dist dists -> filename_dist dist = Ok fn ->
        q <> child pkgs (path_name (joinpath download_dir fn))) ->
     fs' q = fs q).
Proof.
  induction dists as [|d0 rest IH]; intros fs fs' H Hd.
  - inversion H; subst. split; [exact Hd|]. split; [intros dist []|reflexivity].
  - cbn [copy_dists] in H. destruct (filename_dist d0) as [fn0|e] eqn:E0; [|discriminate H].
    destruct (shutil_copy (joinpath download_dir fn0) pkgs fs) as [[err|] fs1] eqn:Ec;
      [discriminate H|].
    apply shutil_copy_ok in Ec as (c0 & Hs0 & Hn0 & Hd0 & Hf0); [|exact Hd].
    assert (Hd1 : is_dir fs1 pkgs = true).
    { apply is_dir_iff. rewrite Hf0; [now apply is_dir_iff|].
      intro E. symmetry in E. now apply child_neq in E. }
    destruct (IH _ _ H Hd1) as (Hd' & Hall & Hframe).
    assert (Hsrc : forall dist fn content,
              In dist rest -> filename_dist dist = Ok fn ->
              fs1 (joinpath download_dir fn) = Some (NFile content) ->
              fs (joinpath download_dir fn) = Some (NFile content)).
    { intros dist fn content Hin Hfn Hc.
      destruct (Hall dist Hin) as (fn1 & c1 & Hfn1 & _ & _ & Hne & _).
      rewrite Hfn in Hfn1. inversion Hfn1; subst fn1.
      rewrite <- Hf0; [exact Hc|]. now apply not_in_dir. }
    split; [exact Hd'|]. split.
    + intros dist [<-|Hin].
      * exists fn0, c0. split; [exact E0|]. split; [exact Hs0|]. split.
        { rewrite Hframe.
          - rewrite Hf0; assumption.
          - intros dist fn _ _. now apply not_in_dir. }
        split; [exact Hn0|].
        destruct (existsb (fun dist' =>
                     match filename_dist dist' with
                     | Ok fn' => str_eqb (path_name (joinpath download_dir fn'))
                                         (path_name (joinpath download_dir fn0))
                     | Raise _ => false
                     end) rest) eqn:Ex.
        -- apply existsb_exists in Ex as (dist' & Hin' & Hm).
           destruct (filename_dist dist') as [fn'|] eqn:Efn'; [|discriminate Hm].
           apply str_eqb_eq in Hm.
           destruct (Hall dist' Hin')
             as (fn1 & c1 & Hfn1 & _ & _ & _ & dist2 & fn2 & c2 & Hin2 & Hfn2 & Hnm & Hc2 & Hp2).
           rewrite Efn' in Hfn1. inversion Hfn1; subst fn1.
           exists dist2, fn2, c2. split; [now right|]. split; [exact Hfn2|].
           split; [congruence|]. split; [now apply (Hsrc dist2)|].
           rewrite <- Hm. exact Hp2.
        -- exists d0, fn0, c0. split; [now left|]. split; [exact E0|].
           split; [reflexivity|]. split; [exact Hs0|].
           rewrite Hframe; [exact Hd0|].
           intros dist fn Hin Hfn E. 
           assert (Hfalse : existsb (fun dist' =>
                     match filename_dist dist' with
                     | Ok fn' => str_eqb (path_name (joinpath download_dir fn'))
                                         (path_name (joinpath download_dir fn0))
                     | Raise _ => false
                     end) rest = true).
           { apply existsb_exists. exists dist. split; [exact Hin|]. rewrite Hfn.
             apply str_eqb_eq. unfold child in E.
             exact (eq_sym (f_equal (hd []) E)). }
           congruence.
      * destruct (Hall dist Hin)
          as (fn & c & Hfn & Hc1 & Hc' & Hne & dist2 & fn2 & c2 & Hin2 & Hfn2 & Hnm & Hc2 & Hp2).
        exists fn, c. split; [exact Hfn|]. split; [now apply (Hsrc dist)|].
        split; [exact Hc'|]. split; [exact Hne|].
        exists dist2, fn2, c2. split; [now right|]. split; [exact Hfn2|].
        split; [exact Hnm|]. split; [now apply (Hsrc dist2)|exact Hp2].
    + intros q Hq. rewrite Hframe.
      * apply Hf0. apply (Hq d0 fn0); [now left|exact E0].
      * intros dist fn Hin Hfn. apply (Hq dist fn); [now right|exact Hfn].
Qed.

(** X20 ([Payload._stage_dists], src/constructor/briefcase.py 382-385).
    Staging copies and never moves: when the call returns and [pkgs] was a
    directory, every package of [_dists] was a file in the download
    directory and still is one there, with the content it had; none of
    them lies in [pkgs] itself; [pkgs] holds a file with the name of each,
    whose content is that of a listed package of that name; and nothing
    but those files of [pkgs] has changed. *)
Theorem stage_dists_copies
    (self : Payload) (layout : PayloadLayout) (fs fs' : FS) :
  _stage_dists path_of joinpath filename_dist self layout fs = (None, fs') ->
  is_dir fs (layout_pkgs layout) = true ->
  exists d dists,
    lookup (info self) (s "_download_dir") = Some (VStr d) /\
    items_of (info self) (s "_dists") = Some dists /\
    is_dir fs' (layout_pkgs layout) = true /\
    (forall dist, In dist dists ->
       exists fn content,
         filename_dist dist = Ok fn /\
         fs (joinpath (path_of d) fn) = Some (NFile content) /\
         fs' (joinpath (path_of d) fn) = Some (NFile content) /\
         parent (joinpath (path_of d) fn) <> layout_pkgs layout /\
         exists dist' fn' content',
           In dist' dists /\ filename_dist dist' = Ok fn' /\
           path_name (joinpath (path_of d) fn') = path_name (joinpath (path_of d) fn) /\
           fs (joinpath (path_of d) fn') = Some (NFile content') /\
           fs' (child (layout_pkgs layout) (path_name (joinpath (path_of d) fn)))
             = Some (NFile content')) /\
    (forall q,
       (forall dist fn, In dist dists -> filename_dist dist = Ok fn ->
          q <> child (layout_pkgs layout) (path_name (joinpath (path_of d) fn))) ->
       fs' q = fs q).
Proof.
  unfold _stage_dists, getitem, items_of. intros H Hd.
  destruct (lookup (info self) (s "_download_dir")) as [[| | |d|]|]; try discriminate H.
  destruct (lookup (info self) (s "_dists")) as [v|]; [|discriminate H].
  destruct (iterate v) as [dists|e]; [|discriminate H].
  destruct (copy_dists_ok _ _ _ _ H Hd) as (Hd' & Hall & Hframe).
  exists d, dists. split; [reflexivity|]. split; [reflexivity|]. split; [exact Hd'|].
  split; [|exact Hframe].
  intros dist Hin.
  destruct (Hall dist Hin) as (fn & c & Hfn & Hc & Hc' & Hne & Hrest).
  exists fn, c. repeat (split; [assumption|]). split; [|exact Hrest].
  intro E. apply Hne. unfold child, path_name.
  destruct (joinpath (path_of d) fn) as [|n up] eqn:Ej.
  - unfold is_dir in Hd. cbn [parent tl] in E. rewrite <- E in Hd. 
    rewrite Hc in Hd. discriminate Hd.
  - cbn [parent tl] in E. now rewrite E.
Qed.
End StageFacts.

Lemma stage_dists_copies_witness :
  exists fs',
    _stage_dists simple_path_of child example_filename_dist
      (new_Payload download_info) (layout_of []) download_fs = (None, fs') /\
    is_dir fs' (layout_pkgs (layout_of [])) = true.
Proof.
  assert (E : _stage_dists simple_path_of child example_filename_dist
                (new_Payload download_info) (layout_of []) download_fs
              = (None, snd (_stage_dists simple_path_of child example_filename_dist
                              (new_Payload download_info) (layout_of []) download_fs))).
  { destruct (_stage_dists simple_path_of child example_filename_dist
                (new_Payload download_info) (layout_of []) download_fs) as [r fs'] eqn:Ev.
    apply (f_equal fst) in Ev. vm_compute in Ev. now subst r. }
  destruct (@stage_dists_copies simple_path_of child example_filename_dist _ _ _ _ E eq_refl)
    as (d & dists & _ & _ & Hd & _).
  eexists. split; [exact E | exact Hd].
Defined.

(** ** Preparing the payload *)

Lemma render_templates_self render_template BRIEFCASE_DIR temp_name self fs r self' fs' :
  render_templates render_template BRIEFCASE_DIR temp_name self fs = (r, self', fs') ->
  info self' = info self /\
  archive_name self' = archive_name self /\
  conda_exe_name self' = conda_exe_name self /\
  (forall p, root self = Some p -> root self' = Some p).
Proof.
  unfold render_templates, _ensure_root, mkdtemp.
  destruct (root self) as [p0|] eqn:Er.
  - destruct (render_template_files render_template (payload_templates BRIEFCASE_DIR p0)
                (template_context self) DEFAULT_LINE_ENDING fs) as [[[]|e] fs1];
      intro H; inversion H; subst; repeat split; try reflexivity;
      intros p Hp; cbn; congruence.
  - destruct (os_mkdir (temp_name fs) fs) as [[[]|e] fs1].
    + destruct (render_template_files render_template
                  (payload_templates BRIEFCASE_DIR (temp_name fs))
                  (template_context (set_root self (temp_name fs)))
                  DEFAULT_LINE_ENDING fs1) as [[[]|e] fs2];
        intro H; inversion H; subst; repeat split; try reflexivity;
        intros p Hp; discriminate Hp.
    + intro H; inversion H; subst. repeat split; try reflexivity.
      intros p Hp; discriminate Hp.
Qed.

Section PrepareFacts.
Variable MODULE_DIR : Path.
Variable DEFAULT_REVERSE_DOMAIN_ID : str.
Variable path_of : str -> Path.
Variable joinpath : Path -> str -> Path.
Variable render_template : str -> dict -> result str.
Variable temp_name : FS -> Path.
Variable dumps : toml -> result str.
Variable locale_encode_error : str -> option str.
Variable linesep : str.
Variable filename_dist : value -> result str.
Variable write_files : dict -> Path -> M unit.
Variable copy_extra_files : value -> Path -> M unit.
Variable copy_conda_exe : Path -> str -> value -> M unit.

Lemma write_pyproject_toml_self self layout fs r self' fs' log :
  write_pyproject_toml MODULE_DIR DEFAULT_REVERSE_DOMAIN_ID path_of render_template
    temp_name dumps locale_encode_error linesep self layout fs = (r, self', fs', log) ->
  info self' = info self /\
  archive_name self' = archive_name self /\
  conda_exe_name self' = conda_exe_name self /\
  (forall p, root self = Some p -> root self' = Some p).
Proof.
  unfold write_pyproject_toml.
  destruct (get_name_version (info self)) as [[[name version]|e0] log0];
    [|intro H; inversion H; subst; auto].
  destruct (get_bundle_app_name DEFAULT_REVERSE_DOMAIN_ID (info self) name)
    as [[bundle app_name]|e1]; [|intro H; inversion H; subst; auto].
  destruct (formal_name (info self)) as [formal|e2]; [|intro H; inversion H; subst; auto].
  destruct (create_install_options_list path_of fs (info self)) as [options|e3];
    [|intro H; inversion H; subst; auto].
  destruct (render_templates render_template (child MODULE_DIR (s "briefcase"))
              temp_name self fs) as [[[rendered|e4] self1] fs1] eqn:Er;
    apply render_templates_self in Er; [|intro H; inversion H; subst; exact Er].
  destruct (dumps _) as [text|e5]; [|intro H; inversion H; subst; exact Er].
  destruct (write_text_locale _ _ _ _ _) as [[[]|e6] fs2];
    intro H; inversion H; subst; exact Er.
Qed.

(** X21 ([Payload.prepare], src/constructor/briefcase.py 246-261).
    When [prepare] returns with [as_archive] set, the layout it returns is
    the one of the payload's root, the templates are recorded on the
    payload, and the last step has held whatever the calls of [preconda]
    and [copy_conda_exe] did before: nothing is left of [base],
    [external] is a directory, and the archive in it is a gzip archive
    with the member [base]. *)
Theorem prepare_archives_base
    (self self' : Payload) (layout : PayloadLayout) (fs fs' : FS) (log : list str) :
  prepare MODULE_DIR DEFAULT_REVERSE_DOMAIN_ID path_of joinpath render_template temp_name
    dumps locale_encode_error linesep filename_dist write_files copy_extra_files
    copy_conda_exe self true fs = (inl layout, self', fs', log) ->
  exists r,
    root self' = Some r /\
    (root self = None \/ root self = Some r) /\
    layout = layout_of r /\
    rendered_templates self'
      = Some (payload_templates (child MODULE_DIR (s "briefcase")) r) /\
    (forall q, under (base_of r) q = true -> fs' q = None) /\
    is_dir fs' (external_of r) = true /\
    exists members,
      fs' (child (external_of r) (archive_name self)) = Some (NFile (TarGz members)) /\
      members [s "base"] = Some NDir.
Proof.
  unfold prepare.
  destruct (_ensure_root temp_name self fs) as [[[r|e] self1] fs1] eqn:Ee; [|discriminate].
  assert (Hnames : archive_name self1 = archive_name self).
  { unfold _ensure_root in Ee. destruct (root self); [now inversion Ee|].
    destruct (mkdtemp temp_name fs) as [[p|e6] fs6]; now inversion Ee. }
  apply ensure_root_cases in Ee as (_ & _ & _ & Hr1 & Hcase).
  destruct (_create_layout self1 r fs1) as [[layout0|e] fs2] eqn:Ec; [|discriminate].
  apply create_layout_result in Ec as (-> & _).
  destruct (write_pyproject_toml MODULE_DIR DEFAULT_REVERSE_DOMAIN_ID path_of
              render_template temp_name dumps locale_encode_error linesep
              self1 (layout_of r) fs2) as [[[[[]|e] self3] fs3] log3] eqn:Ew; [|discriminate].
  pose proof (write_pyproject_toml_self _ _ _ Ew) as (_ & Ha3 & _ & Hr3).
  apply write_pyproject_toml_ok in Ew
    as (_ & _ & _ & _ & _ & r' & _ & _ & _ & Hr' & Ht & _).
  rewrite (Hr3 _ Hr1) in Hr'. inversion Hr'; subst r'. clear Hr'.
  destruct (write_files (info self3) (layout_base (layout_of r)) fs3) as [[[]|e] fs4];
    [|discriminate].
  destruct (copy_extra_files _ _ fs4) as [[[]|e] fs5]; [|discriminate].
  destruct (_stage_dists path_of joinpath filename_dist self3 (layout_of r) fs5)
    as [[err|] fs6]; [discriminate|].
  destruct (_stage_conda copy_conda_exe self3 (layout_of r) fs6) as [[[]|e] fs7];
    [|discriminate].
  cbn [layout_base layout_external layout_of].
  destruct (convert_cases self3 (base_of r) (external_of r) fs7) as [Hc|[e Hc]];
    [|rewrite Hc; discriminate].
  destruct Hc as (Db & De & Ha).
  rewrite (convert_ok self3 (base_of r) (external_of r) fs7 Db De Ha).
  intro H. inversion H; subst layout self' fs' log. clear H.
  exists r. split; [exact (Hr3 _ Hr1)|]. split.
  { destruct (root self) as [p0|]; [right; f_equal; symmetry; apply Hcase | now left]. }
  split; [reflexivity|]. split; [exact Ht|].
  set (ap := archive_path_of self3 (external_of r)) in *.
  assert (Hap : child (external_of r) (archive_name self) = ap).
  { unfold ap, archive_path_of. now rewrite Ha3, Hnames. }
  rewrite Hap.
  assert (Hne : base_of r <> ap).
  { intro E. rewrite <- E in Ha. congruence. }
  assert (Hee : external_of r <> ap).
  { intro E. symmetry in E. now apply child_neq in E. }
  assert (Ue : under (base_of r) (external_of r) = false).
  { apply not_under_longer. simpl. lia. }
  assert (Ua : under (base_of r) ap = false).
  { destruct (under (base_of r) ap) eqn:U; [|reflexivity].
    apply under_child in U as [U|U]; [destruct (Hne U) | congruence]. }
  split; [intros q Hq; now rewrite Hq|]. split.
  - apply is_dir_iff. rewrite Ue. unfold archived. fold ap.
    rewrite !put_other by assumption. now apply is_dir_iff.
  - eexists. split.
    + rewrite Ua. unfold archived. fold ap. apply put_same.
    + change [s "base"] with ([] ++ [path_name (base_of r)]).
      rewrite tar_members_at. cbn [app].
      apply path_eqb_neq in Hne. rewrite Hne.
      rewrite put_other by (now apply path_eqb_neq). now apply is_dir_iff.
Qed.
End PrepareFacts.

Lemma prepare_archives_base_witness :
  exists layout self' fs' log,
    prepare [] (s "com.example") simple_path_of child example_render example_temp_name
      example_dumps (fun _ => None) [CR; LF] example_filename_dist
      (fun _ _ => ret tt) (fun _ _ => ret tt) (fun _ _ _ => ret tt)
      (new_Payload prepare_info) true prepare_fs = (inl layout, self', fs', log) /\
    exists r, root self' = Some r /\ is_dir fs' (external_of r) = true.
Proof.
  destruct (prepare [] (s "com.example") simple_path_of child example_render
              example_temp_name example_dumps (fun _ => None) [CR; LF]
              example_filename_dist (fun _ _ => ret tt) (fun _ _ => ret tt)
              (fun _ _ _ => ret tt) (new_Payload prepare_info) true prepare_fs)
    as [[[[layout|err] self'] fs'] log] eqn:E.
  - destruct (@prepare_archives_base _ _ _ _ _ _ _ _ _ _ _ _ _ _ _ _ _ _ _ E)
      as (r & Hr & _ & _ & _ & _ & Hd & _).
    exists layout, self', fs', log. split; [reflexivity|]. exists r. now split.
  - apply (f_equal (fun x => fst (fst (fst x)))) in E. vm_compute in E. discriminate E.
Defined.
